(** * XAP documentation generator: the layered merge and the section renderers

    A shallow embedding of [lib/python/qmk/cli/xap/docs.py].

    The Python code works on the object graph that [hjson.load] returns:
    [OrderedDict] and [list] objects, shared by reference and updated in
    place.  The embedding keeps that: values are scalars or references into a
    store of objects, and every function of the source is a computation in a
    state-and-exception monad over the store. *)
From Stdlib Require Import ZArith Ascii DecimalString Sorted.

From Stdlib Require String.

From stdpp Require Import base list strings.

Set Warnings "-register-all".

(** * Definitions *)

(** ** Values, objects and the store *)

Abbreviation addr := nat.

(** What hjson yields besides containers.  A float is kept as its text: the
    program never computes with one. *)
Inductive value :=
| VNone
| VBool (b : bool)
| VInt (z : Z)
| VFloat (repr : string)
| VStr (s : string)
| VRef (a : addr).

(** [hjson.load] builds [OrderedDict]s; the dict display
    [{ "name": "-", "description": "-" }] of [_update_response_flags] builds a
    plain [dict], which [isinstance(v, OrderedDict)] tells apart. *)
Inductive dict_kind := OrderedDict | PlainDict.

(** Both kinds of dict keep insertion order; keys are strings throughout. *)
Inductive obj :=
| ODict (kind : dict_kind) (items : list (string * value))
| OList (elems : list value).

(** The store: object [a] is the [a]-th allocated. *)
Abbreviation heap := (list obj).

Global Instance value_eq_dec : EqDecision value.
Proof. solve_decision. Defined.

Global Instance dict_kind_eq_dec : EqDecision dict_kind.
Proof. solve_decision. Defined.

Global Instance obj_eq_dec : EqDecision obj.
Proof. solve_decision. Defined.

(** ** Dict items: an insertion-ordered association list *)

Fixpoint dict_get (k : string) (items : list (string * value)) : option value :=
  match items with
  | [] => None
  | (k', v) :: rest => if String.eqb k k' then Some v else dict_get k rest
  end.

Definition dict_has (k : string) (items : list (string * value)) : bool :=
  match dict_get k items with Some _ => true | None => false end.

(** [d[k] = v]: an existing key keeps its position, a new one goes last. *)
Fixpoint dict_set (k : string) (v : value) (items : list (string * value))
  : list (string * value) :=
  match items with
  | [] => [(k, v)]
  | (k', v') :: rest =>
      if String.eqb k k' then (k', v) :: rest else (k', v') :: dict_set k v rest
  end.

(** [del d[k]] *)
Fixpoint dict_del (k : string) (items : list (string * value))
  : list (string * value) :=
  match items with
  | [] => []
  | (k', v') :: rest =>
      if String.eqb k k' then dict_del k rest else (k', v') :: dict_del k rest
  end.

Definition keys (items : list (string * value)) : list string := map fst items.

Definition values (items : list (string * value)) : list value := map snd items.

(** ** The monad: store passing with Python exceptions *)

Inductive exn :=
| KeyError | IndexError | TypeError | AttributeError | RecursionError.

Inductive outcome (A : Type) :=
| Returned (a : A)
| Raised (e : exn).

Arguments Returned {A} a.

Arguments Raised {A} e.

Definition M (A : Type) : Type := heap -> outcome A * heap.

Definition ret {A} (a : A) : M A := fun h => (Returned a, h).

Definition raise {A} (e : exn) : M A := fun h => (Raised e, h).

Definition bind {A B} (m : M A) (f : A -> M B) : M B :=
  fun h =>
    match m h with
    | (Returned a, h') => f a h'
    | (Raised e, h') => (Raised e, h')
    end.

Notation "'let*' x ':=' m 'in' k" := (bind m (fun x => k))
  (at level 10, x name, m at level 100, k at level 200).

Notation "m ';;;' k" := (bind m (fun _ => k))
  (at level 100, k at level 200, right associativity, only parsing).

(** [for x in l: body(x)] over a list already taken out of the store. *)
Fixpoint for_each {A} (l : list A) (body : A -> M unit) : M unit :=
  match l with
  | [] => ret tt
  | x :: rest => body x ;;; for_each rest body
  end.

(** A new object gets the next address. *)
Definition alloc (o : obj) : M value :=
  fun h => (Returned (VRef (length h)), h ++ [o]).

Definition deref (h : heap) (v : value) : option obj :=
  match v with
  | VRef a => h !! a
  | _ => None
  end.

(** ** The Python operations the program uses *)

Definition RESET : string := "!reset!".

(** [x == s] for a string literal [s] *)
Definition eq_str (x : value) (s : string) : bool :=
  match x with
  | VStr s' => String.eqb s' s
  | _ => false
  end.

Definition is_substring (needle s : string) : bool :=
  match String.index 0 needle s with Some _ => true | None => false end.

(** [s in v] for a string [s]: key membership in a dict, element membership
    in a list, substring test on a string, [TypeError] on anything else. *)
Definition py_contains (s : string) (v : value) : M bool :=
  fun h =>
    match v with
    | VStr t => (Returned (is_substring s t), h)
    | VRef a =>
        match h !! a with
        | Some (ODict _ items) => (Returned (dict_has s items), h)
        | Some (OList elems) => (Returned (existsb (fun x => eq_str x s) elems), h)
        | None => (Raised TypeError, h)
        end
    | _ => (Raised TypeError, h)
    end.

Definition isinstance_OrderedDict (v : value) : M bool :=
  fun h =>
    match deref h v with
    | Some (ODict OrderedDict _) => (Returned true, h)
    | _ => (Returned false, h)
    end.

Definition isinstance_list (v : value) : M bool :=
  fun h =>
    match deref h v with
    | Some (OList _) => (Returned true, h)
    | _ => (Returned false, h)
    end.

(** [v[k]] with a string [k]: only a dict takes a string subscript. *)
Definition py_getitem (v : value) (k : string) : M value :=
  fun h =>
    match deref h v with
    | Some (ODict _ items) =>
        match dict_get k items with
        | Some x => (Returned x, h)
        | None => (Raised KeyError, h)
        end
    | _ => (Raised TypeError, h)
    end.

(** [v[k] = x] with a string [k] *)
Definition py_setitem (v : value) (k : string) (x : value) : M unit :=
  fun h =>
    match v with
    | VRef a =>
        match h !! a with
        | Some (ODict kind items) =>
            (Returned tt, <[a := ODict kind (dict_set k x items)]> h)
        | _ => (Raised TypeError, h)
        end
    | _ => (Raised TypeError, h)
    end.

(** [del v[k]] with a string [k] *)
Definition py_delitem (v : value) (k : string) : M unit :=
  fun h =>
    match v with
    | VRef a =>
        match h !! a with
        | Some (ODict kind items) =>
            if dict_has k items
            then (Returned tt, <[a := ODict kind (dict_del k items)]> h)
            else (Raised KeyError, h)
        | _ => (Raised TypeError, h)
        end
    | _ => (Raised TypeError, h)
    end.

(** [v[0]] where [v] is known to be a list *)
Definition py_first (v : value) : M value :=
  fun h =>
    match deref h v with
    | Some (OList (x :: _)) => (Returned x, h)
    | Some (OList []) => (Raised IndexError, h)
    | _ => (Raised TypeError, h)
    end.

(** [v[1:]] where [v] is known to be a list: a new list *)
Definition py_rest (v : value) : M value :=
  fun h =>
    match deref h v with
    | Some (OList elems) => alloc (OList (tail elems)) h
    | _ => (Raised TypeError, h)
    end.

(** [x + v] where [v] is known to be a list: a new list when [x] is a list
    too, [TypeError] for every other left operand. *)
Definition py_add (x v : value) : M value :=
  fun h =>
    match deref h x, deref h v with
    | Some (OList xs), Some (OList vs) => alloc (OList (xs ++ vs)) h
    | _, _ => (Raised TypeError, h)
    end.

(** [d.items()], read when the loop starts.  Python raises if the dict
    changes size while the loop runs; in this program that needs a dict that
    contains itself, which no parsed file gives. *)
Definition py_items (d : value) : M (list (string * value)) :=
  fun h =>
    match deref h d with
    | Some (ODict _ items) => (Returned items, h)
    | _ => (Raised AttributeError, h)
    end.

(** ** [_merge_ordered_dicts] *)

(** The inner function of [_merge_ordered_dicts]; [merge] is the recursive
    call [_merge_ordered_dicts([target[k], v])]. *)
Definition add_entry (merge : list value -> M value)
    (target : value) (k : string) (v : value) : M unit :=
  let* present := py_contains k target in
  let* is_dict := isinstance_OrderedDict v in
  if present && is_dict then
    (let* reset := py_contains RESET v in
     if reset then py_setitem target k v
     else
       let* old := py_getitem target k in
       let* merged := merge [old; v] in
       py_setitem target k merged) ;;;
    let* cur := py_getitem target k in
    let* reset' := py_contains RESET cur in
    if reset' then py_delitem cur RESET else ret tt
  else
    let* is_list := isinstance_list v in
    if present && is_list then
      let* first := py_first v in
      if eq_str first RESET then
        let* rest := py_rest v in
        py_setitem target k rest
      else
        let* old := py_getitem target k in
        let* sum := py_add old v in
        py_setitem target k sum
    else py_setitem target k v.

(** [for (k,v) in d.items(): add_entry(result, k, v)] *)
Definition merge_into (merge : list value -> M value)
    (result : value) (d : value) : M unit :=
  let* items := py_items d in
  for_each items (fun kv => add_entry merge result kv.1 kv.2).

(** [limit] is the depth of Python calls still allowed: the interpreter
    raises [RecursionError] when it is used up. *)
Fixpoint _merge_ordered_dicts (limit : nat) (dicts : list value) : M value :=
  match limit with
  | 0 => raise RecursionError
  | S limit' =>
      let* result := alloc (ODict OrderedDict []) in
      for_each dicts (merge_into (_merge_ordered_dicts limit') result) ;;;
      ret result
  end.

(** ** Parsed documents

    What [hjson.load] returns, as a value of its own: a finite tree.  [load]
    builds it in the store, children first; [reify] reads a value of the
    store back as a tree, down to a given depth. *)
Inductive tree :=
| TNone
| TBool (b : bool)
| TInt (z : Z)
| TFloat (repr : string)
| TStr (s : string)
| TList (elems : list tree)
| TDict (kind : dict_kind) (items : list (string * tree)).

(** [[f(x) for x in l]] *)
Definition map_m {A B} (f : A -> M B) : list A -> M (list B) :=
  fix go (l : list A) : M (list B) :=
    match l with
    | [] => ret []
    | x :: rest =>
        let* y := f x in
        let* ys := go rest in
        ret (y :: ys)
    end.

Fixpoint load (t : tree) : M value :=
  match t with
  | TNone => ret VNone
  | TBool b => ret (VBool b)
  | TInt z => ret (VInt z)
  | TFloat r => ret (VFloat r)
  | TStr s => ret (VStr s)
  | TList elems =>
      let* vs := map_m load elems in
      alloc (OList vs)
  | TDict kind items =>
      let* kvs := map_m (fun kt => let* v := load kt.2 in ret (kt.1, v)) items in
      alloc (ODict kind kvs)
  end.

Fixpoint all_some {A} (l : list (option A)) : option (list A) :=
  match l with
  | [] => Some []
  | Some x :: rest => option_map (cons x) (all_some rest)
  | None :: _ => None
  end.

Fixpoint reify (depth : nat) (h : heap) (v : value) : option tree :=
  match v with
  | VNone => Some TNone
  | VBool b => Some (TBool b)
  | VInt z => Some (TInt z)
  | VFloat r => Some (TFloat r)
  | VStr s => Some (TStr s)
  | VRef a =>
      match depth with
      | 0 => None
      | S depth' =>
          match h !! a with
          | Some (OList elems) =>
              option_map TList (all_some (map (reify depth' h) elems))
          | Some (ODict kind items) =>
              option_map (TDict kind)
                (all_some (map (fun kv =>
                   option_map (pair kv.1) (reify depth' h kv.2)) items))
          | None => None
          end
      end
  end.

(** Shorthands for writing documents. *)
Definition od (items : list (string * tree)) : tree := TDict OrderedDict items.

Definition run {A} (m : M A) : outcome A * heap := m [].

(** Load the layers, merge them, read the result back. *)
Definition merge_trees (limit : nat) (layers : list tree)
  : outcome (option tree) :=
  let m :=
    let* vs := map_m load layers in
    let* r := _merge_ordered_dicts limit vs in
    fun h => (Returned (reify (length h) h r), h) in
  fst (run m).

(** Load the layers, merge them, read the layers back. *)
Definition layers_after (limit : nat) (layers : list tree)
  : outcome (list (option tree)) :=
  let m :=
    let* vs := map_m load layers in
    fun h =>
      let h' := snd (_merge_ordered_dicts limit vs h) in
      (Returned (map (reify (length h') h') vs), h') in
  fst (run m).

(** ** Well-formed stores

    What holds of every store Python can build: a reference points to an
    allocated object and a dict has no key twice. *)
Definition obj_values (o : obj) : list value :=
  match o with
  | ODict _ items => values items
  | OList elems => elems
  end.

Definition closed_val (n : nat) (v : value) : Prop :=
  match v with
  | VRef a => a < n
  | _ => True
  end.

Definition obj_ok (n : nat) (o : obj) : Prop :=
  Forall (closed_val n) (obj_values o) ∧
  match o with
  | ODict _ items => NoDup (keys items)
  | OList _ => True
  end.

Definition heap_ok (h : heap) : Prop := Forall (obj_ok (length h)) h.

(** Some object of the store holds [v]. *)
Definition held (h : heap) (v : value) : Prop :=
  Exists (fun o => v ∈ obj_values o) h.

(** No object holds a reference to [t]: only local variables know it. *)
Definition private (t : addr) (h : heap) : Prop := ¬ held h (VRef t).

(** What [del d["!reset!"]] leaves of an object. *)
Definition strip (o : obj) : obj :=
  match o with
  | ODict kind items => ODict kind (dict_del RESET items)
  | OList elems => OList elems
  end.

(** [reach h v a]: object [a] is [v] itself or nested in [v] through dict
    values (the merge never looks inside the elements of a list). *)
Inductive reach (h : heap) : value -> addr -> Prop :=
| reach_here a : reach h (VRef a) a
| reach_item b kind items k x a :
    h !! b = Some (ODict kind items) ->
    (k, x) ∈ items ->
    reach h x a ->
    reach h (VRef b) a.

(** [below h d a]: object [a] is nested in the dict [d], and is not [d]
    itself unless [d] contains itself. *)
Definition below (h : heap) (d : value) (a : addr) : Prop :=
  ∃ b kind items k x,
    d = VRef b ∧ h !! b = Some (ODict kind items) ∧ (k, x) ∈ items ∧ reach h x a.

(** ** What a merge does to the store

    [_merge_ordered_dicts] allocates its result and the lists and dicts it
    builds; of the objects that were there before it changes only dicts nested
    in the second and later arguments, and those only by deleting their
    ["!reset!"] key.  [merge_spec] states it, for use at the recursive call. *)
Definition merge_spec (merge : list value -> M value) : Prop :=
  ∀ ds h out h',
    heap_ok h -> Forall (closed_val (length h)) ds ->
    merge ds h = (out, h') ->
    heap_ok h' ∧ length h ≤ length h' ∧
    (∀ a o, h !! a = Some o ->
       h' !! a = Some o ∨
       (h' !! a = Some (strip o) ∧ Exists (fun d => below h d a) (tail ds))) ∧
    (∀ y, held h' (VRef y) -> held h (VRef y) ∨ length h ≤ y) ∧
    (∀ r, out = Returned r ->
       r = VRef (length h) ∧
       (∃ items, h' !! length h = Some (ODict OrderedDict items)) ∧
       private (length h) h').

(** The store while [add_entry] works out the new value of [target[k]]. *)
Definition phase (t : addr) (v : value) (h h1 : heap) : Prop :=
  heap_ok h1 ∧ length h ≤ length h1 ∧ h1 !! t = h !! t ∧ private t h1 ∧
  (∀ a o, a ≠ t -> h !! a = Some o ->
     h1 !! a = Some o ∨ (h1 !! a = Some (strip o) ∧ reach h v a)) ∧
  (∀ y, held h1 (VRef y) -> held h (VRef y) ∨ length h ≤ y).

Definition entry_post (t : addr) (k : string) (v : value) (kd : dict_kind)
    (its : list (string * value)) (h : heap) (out : outcome unit) (h' : heap) : Prop :=
  heap_ok h' ∧ length h ≤ length h' ∧
  (∀ a o, a ≠ t -> h !! a = Some o ->
     h' !! a = Some o ∨ (h' !! a = Some (strip o) ∧ reach h v a)) ∧
  (∀ y, held h' (VRef y) -> held h (VRef y) ∨ v = VRef y ∨ length h ≤ y) ∧
  private t h' ∧
  (∃ its', h' !! t = Some (ODict kd its') ∧
     (its' = its ∨ ∃ x, its' = dict_set k x its) ∧
     (out = Returned tt -> ∃ x, its' = dict_set k x its)).

Definition entries_post (t : addr) (kd : dict_kind) (its : list (string * value))
    (items : list (string * value)) (h h' : heap) : Prop :=
  heap_ok h' ∧ length h ≤ length h' ∧
  (∀ a o, a ≠ t -> h !! a = Some o ->
     h' !! a = Some o ∨
     (h' !! a = Some (strip o) ∧ Exists (fun kv => reach h kv.2 a) items)) ∧
  (∀ y, held h' (VRef y) ->
     held h (VRef y) ∨ VRef y ∈ values items ∨ length h ≤ y) ∧
  private t h' ∧
  ∃ its', h' !! t = Some (ODict kd its') ∧
    (∀ j, j ∉ keys items -> dict_get j its' = dict_get j its).

Definition dicts_post (t : addr) (kd : dict_kind) (S : addr -> Prop)
    (h h' : heap) : Prop :=
  heap_ok h' ∧ length h ≤ length h' ∧
  (∀ a o, a ≠ t -> h !! a = Some o ->
     h' !! a = Some o ∨ (h' !! a = Some (strip o) ∧ S a)) ∧
  (∀ y, held h' (VRef y) -> held h (VRef y) ∨ length h ≤ y) ∧
  private t h' ∧
  ∃ its', h' !! t = Some (ODict kd its').

(** Every object but [t] is as it was or has lost its ["!reset!"] key. *)
Definition sframe (t : addr) (h h' : heap) : Prop :=
  ∀ b o, b ≠ t -> h !! b = Some o -> h' !! b = Some o ∨ h' !! b = Some (strip o).

(** The loop of [_merge_ordered_dicts] for one dict, its items already read:
    they are entered into the dict [t] one after the other. *)
Definition entered (merge : list value -> M value) (t : addr)
    (items : list (string * value)) : M unit :=
  for_each items (fun kv => add_entry merge (VRef t) kv.1 kv.2).

(** [raised_elsewhere merge t k v items h e h']: entering [items] into [t]
    raises [e] at an entry before that of the key [k], or after it, the entry
    of [k] having returned. *)
Definition raised_elsewhere (merge : list value -> M value) (t : addr)
    (k : string) (v : value) (items : list (string * value)) (h : heap)
    (e : exn) (h' : heap) : Prop :=
  ∃ pre post,
    items = pre ++ (k, v) :: post ∧
    (entered merge t pre h = (Raised e, h') ∨
     ∃ h1 h2,
       entered merge t pre h = (Returned tt, h1) ∧
       add_entry merge (VRef t) k v h1 = (Returned tt, h2) ∧
       entered merge t post h2 = (Raised e, h')).

(** ** Deciding well-formedness; the stores of the examples *)

Global Instance closed_val_dec n v : Decision (closed_val n v).
Proof. destruct v; simpl; apply _. Defined.

Global Instance obj_ok_dec n o : Decision (obj_ok n o).
Proof. unfold obj_ok. destruct o; apply _. Defined.

Global Instance heap_ok_dec h : Decision (heap_ok h).
Proof. unfold heap_ok. apply _. Defined.

(** [{a: [1,2]}] and [{a: ["!reset!",3]}] in the store. *)
Definition store_lists : heap :=
  [ OList [VInt 1; VInt 2];
    ODict OrderedDict [("a", VRef 0)];
    OList [VStr "!reset!"; VInt 3];
    ODict OrderedDict [("a", VRef 2)] ].

(** [{a: {x:1, y:2}}] and [{a: {y:3}}] in the store. *)
Definition store_nested : heap :=
  [ ODict OrderedDict [("x", VInt 1); ("y", VInt 2)];
    ODict OrderedDict [("a", VRef 0)];
    ODict OrderedDict [("y", VInt 3)];
    ODict OrderedDict [("a", VRef 2)] ].

(** [{b: 1}] and [{a: {"!reset!": true, z: 9}, c: 2}] in the store. *)
Definition store_new_key : heap :=
  [ ODict OrderedDict [("b", VInt 1)];
    ODict OrderedDict [("!reset!", VBool true); ("z", VInt 9)];
    ODict OrderedDict [("a", VRef 1); ("c", VInt 2)] ].

(** [result["a"]["x"] = 2] after [result = merge(null, incoming)], and the
    incoming tree read back: it has changed with the result. *)
Definition mutate_result_of_merge (incoming : tree) : outcome (option tree) :=
  fst (run (
    let* v := load incoming in
    let* result := _merge_ordered_dicts 10 [v] in
    let* sub := py_getitem result "a" in
    py_setitem sub "x" (VInt 2) ;;;
    fun h => (Returned (reify (length h) h v), h))).

(** [{a: [1]}] and [{a: []}] in the store. *)
Definition store_empty : heap :=
  [ OList [VInt 1];
    ODict OrderedDict [("a", VRef 0)];
    OList [];
    ODict OrderedDict [("a", VRef 2)] ].

(** [{a: {x: 1}}] and [{a: {"!reset!": true, z: 9}}] in the store. *)
Definition store_reset : heap :=
  [ ODict OrderedDict [("x", VInt 1)];
    ODict OrderedDict [("a", VRef 0)];
    ODict OrderedDict [("!reset!", VBool true); ("z", VInt 9)];
    ODict OrderedDict [("a", VRef 2)] ].

(** ** The section renderers *)

Definition nl : string := String (Ascii.ascii_of_nat 10) EmptyString.

(** [str(n)] for an integer *)
Definition str_of_Z (z : Z) : string := NilZero.string_of_int (Z.to_int z).

Definition str_of_nat (n : nat) : string := str_of_Z (Z.of_nat n).

(** [sorted(items, key=lambda x: x[0])]: a stable insertion sort on the keys,
    compared as Python compares strings. *)
Fixpoint insert_by_key (kv : string * value) (l : list (string * value))
  : list (string * value) :=
  match l with
  | [] => [kv]
  | kv' :: rest =>
      if String.leb kv'.1 kv.1 then kv' :: insert_by_key kv rest
      else kv :: kv' :: rest
  end.

Definition sorted_by_key (items : list (string * value)) : list (string * value) :=
  foldl (fun acc kv => insert_by_key kv acc) [] items.

(** [sep.join(l)]: every item must be a string. *)
Fixpoint strings_of (vs : list value) : option (list string) :=
  match vs with
  | [] => Some []
  | VStr s :: rest => option_map (cons s) (strings_of rest)
  | _ :: _ => None
  end.

Definition py_join (sep : string) (vs : list value) : M string :=
  match strings_of vs with
  | Some l => ret (String.concat sep l)
  | None => raise TypeError
  end.

(** [range(0,8)] and [range(7,-1,-1)] *)
Definition bits_up : list nat := [0; 1; 2; 3; 4; 5; 6; 7].

Definition bits_down : list nat := [7; 6; 5; 4; 3; 2; 1; 0].

Section Rendering.

(** Python's [str()] of a list or dict: not part of this program. *)
Variable repr_obj : heap -> addr -> string.

(** [f'{v}'] *)
Definition py_str (h : heap) (v : value) : string :=
  match v with
  | VNone => "None"
  | VBool true => "True"
  | VBool false => "False"
  | VInt z => str_of_Z z
  | VFloat r => r
  | VStr s => s
  | VRef a => repr_obj h a
  end.

Definition format (v : value) : M string :=
  fun h => (Returned (py_str h v), h).

(** The rows [f'| _{k}_ | {v} |'] of the sorted items, then the table. *)
Definition definition_table (items : list (string * value)) : M string :=
  let* rows :=
    map_m (fun kv =>
             let* s := format kv.2 in
             ret ("| _" +:+ kv.1 +:+ "_ | " +:+ s +:+ " |"))
          (sorted_by_key items) in
  let desc_str := String.concat nl rows in
  ret ("| Name | Definition |" +:+ nl +:+ "| -- | -- |" +:+ nl
       +:+ desc_str +:+ nl).

Definition _update_type_docs (overall : value) : M unit :=
  let* defs := py_getitem overall "type_docs" in
  let* items := py_items defs in
  let* text := definition_table items in
  let* doc := py_getitem overall "documentation" in
  py_setitem doc "!type_docs!" (VStr text).

Definition _update_term_definitions (overall : value) : M unit :=
  let* defs := py_getitem overall "term_definitions" in
  let* items := py_items defs in
  let* text := definition_table items in
  let* doc := py_getitem overall "documentation" in
  py_setitem doc "!term_definitions!" (VStr text).

(** [if str(n) not in flags: flags[str(n)] = { "name": "-", "description": "-" }] *)
Definition fill_default (flags : value) (n : nat) : M unit :=
  let* present := py_contains (str_of_nat n) flags in
  if present then ret tt
  else
    let* dflt := alloc (ODict PlainDict
                          [("name", VStr "-"); ("description", VStr "-")]) in
    py_setitem flags (str_of_nat n) dflt.

Definition fill_defaults (flags : value) : M unit :=
  for_each bits_up (fill_default flags).

(** [[flags[str(n)]['name'] for n in range(7,-1,-1)]] *)
Definition bit_name (flags : value) (n : nat) : M value :=
  let* bit := py_getitem flags (str_of_nat n) in
  py_getitem bit "name".

Definition bit_names (flags : value) : M (list value) :=
  map_m (bit_name flags) bits_down.

(** The loop that builds [bit_descriptions]. *)
Fixpoint bit_descriptions (flags : value) (ns : list nat) (acc : string)
  : M string :=
  match ns with
  | [] => ret acc
  | n :: rest =>
      let* bit_desc := py_getitem flags (str_of_nat n) in
      let* name := py_getitem bit_desc "name" in
      if negb (eq_str name "-") then
        let* desc := py_getitem bit_desc "description" in
        let* s := format desc in
        bit_descriptions flags rest
          (acc +:+ nl +:+ "* `Bit " +:+ str_of_nat n +:+ "`: " +:+ s)
      else bit_descriptions flags rest acc
  end.

Definition _update_response_flags (overall : value) : M unit :=
  let* rf := py_getitem overall "response_flags" in
  let* flags := py_getitem rf "bits" in
  fill_defaults flags ;;;
  let header :=
    "| " +:+ String.concat " | " (map (fun n => "Bit " +:+ str_of_nat n) bits_down)
    +:+ " |" in
  let dividers :=
    "|" +:+ String.concat "|" (map (fun _ => "--") bits_down) +:+ "|" in
  let* names := bit_names flags in
  let* joined := py_join " | " names in
  let bit_names := "| " +:+ joined +:+ " |" in
  let* descriptions := bit_descriptions flags bits_down "" in
  let text := header +:+ nl +:+ dividers +:+ nl +:+ bit_names +:+ nl
              +:+ descriptions +:+ nl in
  let* doc := py_getitem overall "documentation" in
  py_setitem doc "!response_flags!" (VStr text).

(** The bullet line of bit [n]: none when its name is the placeholder. *)
Definition bullet (h : heap) (nm : nat -> string) (dv : nat -> value) (n : nat)
  : string :=
  if String.eqb (nm n) "-" then ""
  else nl +:+ "* `Bit " +:+ str_of_nat n +:+ "`: " +:+ py_str h (dv n).

(** The text of the response-flags section, as the specification describes
    it. *)
Definition flags_table (h : heap) (nm : nat -> string) (dv : nat -> value)
  : string :=
  "| Bit 7 | Bit 6 | Bit 5 | Bit 4 | Bit 3 | Bit 2 | Bit 1 | Bit 0 |" +:+ nl +:+
  "|--|--|--|--|--|--|--|--|" +:+ nl +:+
  "| " +:+ String.concat " | " (map nm [7; 6; 5; 4; 3; 2; 1; 0]) +:+ " |" +:+ nl +:+
  String.concat "" (map (bullet h nm dv) [7; 6; 5; 4; 3; 2; 1; 0]) +:+ nl.

End Rendering.

Definition placeholder : obj :=
  ODict PlainDict [("name", VStr "-"); ("description", VStr "-")].

(** [reachable h v a]: object [a] is [v] itself or a part of it, through
    dict values and list elements. *)
Inductive reachable (h : heap) : value -> addr -> Prop :=
| reachable_here a : reachable h (VRef a) a
| reachable_step b o x a :
    h !! b = Some o -> x ∈ obj_values o -> reachable h x a ->
    reachable h (VRef b) a.

(** The tree under a key of [overall] does not contain the [documentation]
    dict of [overall]. *)
Definition apart (h : heap) (overall : value) (key : string) : Prop :=
  ∀ src d,
    py_getitem overall key h = (Returned src, h) ->
    py_getitem overall "documentation" h = (Returned (VRef d), h) ->
    ¬ reachable h src d.

(** The body that [_update_type_docs] and [_update_term_definitions] share. *)
Definition update_definitions (repr_obj : heap -> addr -> string)
    (src dst : string) (overall : value) : M unit :=
  let* defs := py_getitem overall src in
  let* items := py_items defs in
  let* text := definition_table repr_obj items in
  let* doc := py_getitem overall "documentation" in
  py_setitem doc dst (VStr text).

Definition definition_text (fmt : value -> string)
    (items : list (string * value)) : string :=
  "| Name | Definition |" +:+ nl +:+ "| -- | -- |" +:+ nl +:+
  String.concat nl
    (map (fun kv => "| _" +:+ kv.1 +:+ "_ | " +:+ fmt kv.2 +:+ " |")
         (sorted_by_key items)) +:+ nl.

(** A bit record, as the renderer reads it after the fill: a string name
    and, unless the name is the placeholder, a description. *)
Definition bit_record (h : heap) (bits : list (string * value)) (n : nat)
    (name : string) (desc : value) : Prop :=
  ∃ b kb ib,
    dict_get (str_of_nat n) bits = Some (VRef b) ∧
    h !! b = Some (ODict kb ib) ∧
    dict_get "name" ib = Some (VStr name) ∧
    (name ≠ "-" -> dict_get "description" ib = Some desc).

Definition bit_keys : list string := map str_of_nat bits_up.

(** [keeps K h h']: the dicts of [h] are dicts of [h'] that agree with them
    outside the keys [K]. *)
Definition keeps (K : list string) (h h' : heap) : Prop :=
  ∀ a kd its, h !! a = Some (ODict kd its) ->
    ∃ its', h' !! a = Some (ODict kd its') ∧
            ∀ j, j ∉ K -> dict_get j its' = dict_get j its.

(** Python's [str()] of containers, for the examples: they print none. *)
Definition no_repr : heap -> addr -> string := fun _ _ => "".

(** Render a document and read it back. *)
Definition render_tree (render : value -> M unit) (overall : tree)
  : outcome (option tree) :=
  fst (run (let* v := load overall in
            render v ;;;
            fun h => (Returned (reify (length h) h v), h))).

(** The example of the specification: only bit 3 is defined. *)
Definition flags_doc : tree :=
  od [("response_flags",
       od [("bits", od [("3", od [("name", TStr "ERR");
                                  ("description", TStr "error flag")])])]);
      ("documentation", od [("order", TList [])])].

Definition dflt : tree :=
  TDict PlainDict [("name", TStr "-"); ("description", TStr "-")].

Definition store_flags : heap := (run (load flags_doc)).2.

(** A document with the three sources, for running the renderers twice. *)
Definition full_doc : tree :=
  od [("type_docs", od [("u8", TStr "byte")]);
      ("term_definitions", od [("Token", TStr "a tag")]);
      ("response_flags",
       od [("bits", od [("3", od [("name", TStr "ERR");
                                  ("description", TStr "error flag")])])]);
      ("documentation", od [("order", TList [])])].

Definition store_full : heap := (run (load full_doc)).2.

(** ** The command [xap_generate_docs] *)

(** What the command leaves behind: the store, what was printed, and the
    files written, by path. *)
Record world := World {
  store : heap;
  stdout : list string;
  files : list (string * string)
}.

(** How a piece of the command ends: normally, with an exception on its way
    up, or in [exit(code)]. *)
Inductive ending (A : Type) :=
| Done (a : A)
| Uncaught (e : exn)
| Exited (code : Z).

Arguments Done {A} a.

Arguments Uncaught {A} e.

Arguments Exited {A} code.

Definition IO (A : Type) : Type := world -> ending A * world.

Definition io_ret {A} (a : A) : IO A := fun w => (Done a, w).

Definition io_bind {A B} (m : IO A) (f : A -> IO B) : IO B :=
  fun w =>
    match m w with
    | (Done a, w') => f a w'
    | (Uncaught e, w') => (Uncaught e, w')
    | (Exited c, w') => (Exited c, w')
    end.

Notation "'let+' x ':=' m 'in' k" := (io_bind m (fun x => k))
  (at level 10, x name, m at level 100, k at level 200).

Notation "m ';;+' k" := (io_bind m (fun _ => k))
  (at level 100, k at level 200, right associativity, only parsing).

(** A computation on the store, inside the command. *)
Definition lift {A} (m : M A) : IO A :=
  fun w =>
    let '(out, h) := m (store w) in
    let w' := World h (stdout w) (files w) in
    match out with
    | Returned a => (Done a, w')
    | Raised e => (Uncaught e, w')
    end.

(** [try: body / except: handler]: a bare [except] takes whatever ends the
    body abnormally. *)
Definition try_except {A} (body handler : IO A) : IO A :=
  fun w =>
    match body w with
    | (Done a, w') => (Done a, w')
    | (_, w') => handler w'
    end.

Definition print (s : string) : IO unit :=
  fun w => (Done tt, World (store w) (stdout w ++ [s]) (files w)).

Definition exit {A} (code : Z) : IO A := fun w => (Exited code, w).

Fixpoint file_set (path content : string) (fs : list (string * string))
  : list (string * string) :=
  match fs with
  | [] => [(path, content)]
  | (p, c) :: rest =>
      if String.eqb p path then (p, content) :: rest
      else (p, c) :: file_set path content rest
  end.

Fixpoint file_get (path : string) (fs : list (string * string)) : option string :=
  match fs with
  | [] => None
  | (p, c) :: rest => if String.eqb p path then Some c else file_get path rest
  end.

(** [open(path, "w")]: the file is there and empty. *)
Definition open_w (path : string) : IO unit :=
  fun w => (Done tt, World (store w) (stdout w) (file_set path "" (files w))).

(** [out_file.write(s)] *)
Definition write (path s : string) : IO unit :=
  fun w =>
    let old := default "" (file_get path (files w)) in
    (Done tt, World (store w) (stdout w) (file_set path (old +:+ s) (files w))).

Fixpoint io_for_each {A} (l : list A) (body : A -> IO unit) : IO unit :=
  match l with
  | [] => io_ret tt
  | x :: rest => body x ;;+ io_for_each rest body
  end.

(** [for e in v]: the elements of a list, the keys of a dict, the characters
    of a string. *)
Fixpoint chars (s : string) : list value :=
  match s with
  | EmptyString => []
  | String c rest => VStr (String c EmptyString) :: chars rest
  end.

Definition py_iter (v : value) : M (list value) :=
  fun h =>
    match v with
    | VStr s => (Returned (chars s), h)
    | VRef a =>
        match h !! a with
        | Some (OList elems) => (Returned elems, h)
        | Some (ODict _ items) => (Returned (map VStr (keys items)), h)
        | None => (Raised TypeError, h)
        end
    | _ => (Raised TypeError, h)
    end.

(** [d[e]] for a dict [d] and any value [e]: a list or dict cannot be a key,
    a key that is not a string is not there. *)
Definition py_getitem_at (d e : value) : M value :=
  fun h =>
    match deref h d with
    | Some (ODict _ items) =>
        match e with
        | VStr k => py_getitem d k h
        | VRef _ => (Raised TypeError, h)
        | _ => (Raised KeyError, h)
        end
    | _ => (Raised TypeError, h)
    end.

(** [sorted(names)] *)
Fixpoint insert_name (s : string) (l : list string) : list string :=
  match l with
  | [] => [s]
  | s' :: rest =>
      if String.leb s' s then s' :: insert_name s rest else s :: s' :: rest
  end.

Definition sorted_names (l : list string) : list string :=
  foldl (fun acc s => insert_name s acc) [] l.

(** [s[4:]] *)
Fixpoint drop_chars (n : nat) (s : string) : string :=
  match n, s with
  | S n', String _ rest => drop_chars n' rest
  | _, _ => s
  end.

Section Command.

Variable repr_obj : heap -> addr -> string.

(** [hjson.dumps] and [str.strip]: library code. *)
Variable hjson_dumps : heap -> value -> string.

Variable py_strip : string -> string.

(** The constant [QMK_FIRMWARE] of [qmk.constants], a path. *)
Variable QMK_FIRMWARE : string.

(** [update_xap_definitions] of [qmk.xap]. *)
Variable update_xap_definitions : option value -> value -> M value.

(** The body of the [try]. *)
Definition refresh_sections (overall : value) : M unit :=
  let* has_types := py_contains "type_docs" overall in
  (if has_types then _update_type_docs repr_obj overall else ret tt) ;;;
  let* has_terms := py_contains "term_definitions" overall in
  (if has_terms then _update_term_definitions repr_obj overall else ret tt) ;;;
  let* has_flags := py_contains "response_flags" overall in
  if has_flags then _update_response_flags repr_obj overall else ret tt.

(** [print(hjson.dumps(overall)); exit(1)] *)
Definition dump_and_exit {A} (overall : value) : IO A :=
  (fun w => print (hjson_dumps (store w) overall) w) ;;+
  exit 1.

Definition doc_path (stem : string) : string :=
  QMK_FIRMWARE +:+ "/docs/" +:+ stem +:+ ".md".

(** The [with open(output_doc, "w")] block: one section per entry of
    [order]. *)
Definition write_document (overall : value) (path : string) : IO unit :=
  open_w path ;;+
  let+ doc := lift (py_getitem overall "documentation") in
  let+ order := lift (py_getitem doc "order") in
  let+ entries := lift (py_iter order) in
  io_for_each entries (fun e =>
    let+ doc' := lift (py_getitem overall "documentation") in
    let+ text := lift (py_getitem_at doc' e) in
    match text with
    | VStr s => write path (py_strip s)
    | _ => fun w => (Uncaught AttributeError, w)
    end ;;+
    write path (nl +:+ nl)).

(** One turn of the loop over the definition files; a file is its stem and
    what [hjson.load] reads from it. *)
Definition process_file (file : string * tree)
    (state : option value * list string) : IO (option value * list string) :=
  let+ new := lift (load file.2) in
  let+ overall := lift (update_xap_definitions state.1 new) in
  try_except (lift (refresh_sections overall)) (dump_and_exit overall) ;;+
  let output_doc := doc_path file.1 in
  write_document overall output_doc ;;+
  io_ret (Some overall, state.2 ++ [file.1]).

Fixpoint process_files (fs : list (string * tree))
    (state : option value * list string) : IO (option value * list string) :=
  match fs with
  | [] => io_ret state
  | file :: rest =>
      let+ state' := process_file file state in
      process_files rest state'
  end.

(** The index: newest version first. *)
Definition write_index (stems : list string) : IO unit :=
  let path := QMK_FIRMWARE +:+ "/docs/xap_protocol.md" in
  open_w path ;;+
  write path ("# XAP Protocol Reference" +:+ nl +:+ nl) ;;+
  io_for_each (rev (sorted_names (map (fun s => s +:+ ".md") stems)))
    (fun name =>
       let stem := String.substring 0 (String.length name - 3) name in
       let ver := drop_chars 4 stem in
       write path ("* [XAP Version " +:+ ver +:+ "](" +:+ name +:+ ")" +:+ nl)).

Definition xap_generate_docs (definition_files : list (string * tree)) : IO unit :=
  let+ state := process_files definition_files (None, []) in
  write_index state.2.

End Command.

(** Modelled from the spec: [update_xap_definitions] of [qmk.xap] is not part
    of the source tree.  The specification's contract for the merge of a
    layer: with no cumulative tree yet the layer alone is merged, otherwise
    the cumulative tree and the layer, in this order. *)
Definition fold_layer (limit : nat) (existing : option value) (incoming : value)
  : M value :=
  match existing with
  | None => _merge_ordered_dicts limit [incoming]
  | Some overall => _merge_ordered_dicts limit [overall; incoming]
  end.

(** The text of a document whose sections are the keys [ks] of the
    documentation dict [idoc]. *)
Fixpoint sections (py_strip : string -> string) (idoc : list (string * value))
    (ks : list string) : string :=
  match ks with
  | [] => ""
  | k :: rest =>
      match dict_get k idoc with
      | Some (VStr s) => py_strip s +:+ nl +:+ nl +:+ sections py_strip idoc rest
      | _ => ""
      end
  end.

(** A piece of the command that prints nothing, however it ends. *)
Definition silent {A} (m : IO A) : Prop :=
  forall w r w', m w = (r, w') -> stdout w' = stdout w.

(** The string of the given bytes. *)
Definition utf8 (bytes : list nat) : string :=
  String.string_of_list_ascii (map Ascii.ascii_of_nat bytes).

(** [str.strip()] of the library, for running the command on examples.
    White space, for Python, is: the characters from tab to carriage return,
    the separators U+001C to U+001F, the space, and beyond ASCII U+0085,
    U+00A0, U+1680, U+2000 to U+200A, U+2028, U+2029, U+202F, U+205F and
    U+3000, listed here by their UTF-8 encodings. *)
Definition py_whitespace : list string :=
  map utf8
    [ [9]; [10]; [11]; [12]; [13]; [28]; [29]; [30]; [31]; [32];
      [194; 133]; [194; 160]; [225; 154; 128];
      [226; 128; 128]; [226; 128; 129]; [226; 128; 130]; [226; 128; 131];
      [226; 128; 132]; [226; 128; 133]; [226; 128; 134]; [226; 128; 135];
      [226; 128; 136]; [226; 128; 137]; [226; 128; 138];
      [226; 128; 168]; [226; 128; 169]; [226; 128; 175];
      [226; 129; 159]; [227; 128; 128] ].

(** [s] without the prefix [p], when it starts with [p]. *)
Fixpoint after_prefix (p s : string) : option string :=
  match p, s with
  | EmptyString, _ => Some s
  | String a p', String b s' => if Ascii.eqb a b then after_prefix p' s' else None
  | String _ _, EmptyString => None
  end.

(** [s] without its first character, when that is one of [spaces]. *)
Fixpoint after_space (spaces : list string) (s : string) : option string :=
  match spaces with
  | [] => None
  | p :: rest =>
      match after_prefix p s with
      | Some s' => Some s'
      | None => after_space rest s
      end
  end.

(** The white space at the start of [s] is dropped, one character for each
    unit of [fuel] at most. *)
Fixpoint drop_spaces (spaces : list string) (fuel : nat) (s : string) : string :=
  match fuel with
  | 0 => s
  | S fuel' =>
      match after_space spaces s with
      | Some s' => drop_spaces spaces fuel' s'
      | None => s
      end
  end.

(** [s.lstrip()]: a string has no more characters than bytes. *)
Definition str_lstrip (s : string) : string :=
  drop_spaces py_whitespace (String.length s) s.

(** [s.rstrip()]: the end of [s] is stripped as the start of its mirror
    image. *)
Definition str_rstrip (s : string) : string :=
  String.rev
    (drop_spaces (map String.rev py_whitespace) (String.length s) (String.rev s)).

(** [s.strip()] *)
Definition str_strip (s : string) : string := str_rstrip (str_lstrip s).

(** A stand-in for [hjson.dumps]. *)
Definition dumps_tag : heap -> value -> string := fun _ _ => "<overall>".

(** A stand-in for [hjson.dumps] that tells one tree from another: the keys
    of the dict, in their order. *)
Definition dumps_keys : heap -> value -> string :=
  fun h v =>
    match deref h v with
    | Some (ODict _ items) => "{" +:+ String.concat ", " (keys items) +:+ "}"
    | _ => "?"
    end.

(** A layer whose [order] names a section it does not have. *)
Definition layer_missing : string * tree :=
  ("xap_0.0.1",
   od [("documentation",
        od [("order", TList [TStr "intro"; TStr "missing"]);
            ("intro", TStr (" # Intro" +:+ nl))])]).

Definition generate (fs : list (string * tree)) : ending unit * world :=
  xap_generate_docs no_repr dumps_tag str_strip "qmk_firmware" (fold_layer 10) fs
    (World [] [] []).

(** A layer on which the type renderer raises: there is no documentation
    dict to store the table in. *)
Definition layer_no_documentation : string * tree :=
  ("xap_0.0.1", od [("type_docs", od [("u8", TStr "byte")])]).

(** Two layers that can be written. *)
Definition layer_1 : string * tree :=
  ("xap_0.1.0",
   od [("documentation",
        od [("order", TList [TStr "intro"]);
            ("intro", TStr ("# One" +:+ nl))])]).

Definition layer_2 : string * tree :=
  ("xap_0.2.0",
   od [("documentation",
        od [("order", TList [TStr "more"]);
            ("more", TStr "Two")])]).

(** ** One call for all layers, or one call per layer *)

(** The specification's formulation: the layers are folded in one at a time,
    [merge(merge(merge(null, L1), L2), L3)...]. *)
Fixpoint fold_layers (limit : nat) (existing : option value) (layers : list value)
  : M (option value) :=
  match layers with
  | [] => ret existing
  | layer :: rest =>
      let* merged := fold_layer limit existing layer in
      fold_layers limit (Some merged) rest
  end.

(** The two formulations build their results at different addresses, so the
    stores are compared through a correspondence of addresses. *)
Definition corr : Type := addr -> addr -> Prop.

Definition is_scalar (v : value) : Prop :=
  match v with
  | VRef _ => False
  | _ => True
  end.

Inductive vrel (ρ : corr) : value -> value -> Prop :=
| vrel_ref a b : ρ a b -> vrel ρ (VRef a) (VRef b)
| vrel_scalar v : is_scalar v -> vrel ρ v v.

Definition irel (ρ : corr) (x y : string * value) : Prop :=
  x.1 = y.1 ∧ vrel ρ x.2 y.2.

Inductive orel (ρ : corr) : obj -> obj -> Prop :=
| orel_dict kind items items' :
    Forall2 (irel ρ) items items' -> orel ρ (ODict kind items) (ODict kind items')
| orel_list elems elems' :
    Forall2 (vrel ρ) elems elems' -> orel ρ (OList elems) (OList elems').

(** [sim ρ h g]: [ρ] pairs objects of [h] with objects of [g], one to one,
    and paired objects hold the same scalars and paired references. *)
Definition sim (ρ : corr) (h g : heap) : Prop :=
  (∀ a b, ρ a b -> ∃ o p, h !! a = Some o ∧ g !! b = Some p ∧ orel ρ o p) ∧
  (∀ a b b', ρ a b -> ρ a b' -> b = b') ∧
  (∀ a a' b, ρ a b -> ρ a' b -> a = a').

Definition out_rel {A} (R : A -> A -> Prop) (x y : outcome A) : Prop :=
  match x, y with
  | Returned a, Returned b => R a b
  | Raised e, Raised e' => e = e'
  | _, _ => False
  end.

(** [m] in [h] and [n] in [g] end the same way, in stores that correspond
    under a larger correspondence. *)
Definition simulates {A} (R : corr -> A -> A -> Prop) (ρ : corr) (h g : heap)
    (m n : M A) : Prop :=
  ∃ ρ', (∀ a b, ρ a b -> ρ' a b) ∧ sim ρ' (m h).2 (n g).2 ∧
        out_rel (R ρ') (m h).1 (n g).1.

Definition same {A} : corr -> A -> A -> Prop := fun _ => eq.

(** A new object on each side: the correspondence grows by the new pair. *)
Definition grow (ρ : corr) (a b : addr) : corr :=
  fun x y => ρ x y ∨ (x = a ∧ y = b).

(** The result of the call so far is handed to the next call, which copies
    it into its own result: the correspondence follows the copy. *)
Definition remap (ρ : corr) (r r' : addr) : corr :=
  fun a b => (a = r ∧ b = r') ∨ (a ≠ r ∧ ρ a b).

(** Three layers in the store, at addresses 3, 7 and 11. *)
Definition three_layers : list tree :=
  [ od [("a", od [("x", TInt 1); ("y", TList [TInt 1])]);
        ("b", TList [TInt 1; TInt 2])];
    od [("a", od [("y", TList [TInt 2]); ("z", TInt 3)]);
        ("b", TList [TStr "!reset!"; TInt 3])];
    od [("a", od [("q", TInt 9)]);
        ("c", od [("!reset!", TBool true); ("k", TInt 5)]);
        ("b", TList [TInt 4])] ].

Definition store_three : heap :=
  Eval vm_compute in (run (map_m load three_layers)).2.

Definition merged_three : tree :=
  od [("a", od [("x", TInt 1); ("y", TList [TInt 1; TInt 2]);
                ("z", TInt 3); ("q", TInt 9)]);
      ("b", TList [TInt 3; TInt 4]);
      ("c", od [("!reset!", TBool true); ("k", TInt 5)])].

(** ** Definitions for the further properties *)

(** Whether a value is a list, or a dict of either kind. *)
Definition holds_list (h : heap) (v : value) : bool :=
  match deref h v with
  | Some (OList _) => true
  | _ => false
  end.

Definition holds_dict (h : heap) (v : value) : bool :=
  match deref h v with
  | Some (ODict _ _) => true
  | _ => false
  end.

(** [{a: [1], b: "x"}] and [{a: "s"}] in the store. *)
Definition store_plain : heap :=
  [ OList [VInt 1];
    ODict OrderedDict [("a", VRef 0); ("b", VStr "x")];
    ODict OrderedDict [("a", VStr "s")] ].

(** [{a: "old"}] and [{a: [3]}] in the store. *)
Definition store_sequence_onto_text : heap :=
  [ ODict OrderedDict [("a", VStr "old")];
    OList [VInt 3];
    ODict OrderedDict [("a", VRef 1)] ].

(** [{a: 1}] and [{a: {x: 2}}] in the store. *)
Definition store_tree_onto_number : heap :=
  [ ODict OrderedDict [("a", VInt 1)];
    ODict OrderedDict [("x", VInt 2)];
    ODict OrderedDict [("a", VRef 1)] ].

(** [{b: 1}] and [{a: []}] in the store. *)
Definition store_empty_new : heap :=
  [ ODict OrderedDict [("b", VInt 1)];
    OList [];
    ODict OrderedDict [("a", VRef 1)] ].

(** [{x: 1, y: 2}] and [{z: 3, x: 4}] in the store. *)
Definition store_keys : heap :=
  [ ODict OrderedDict [("x", VInt 1); ("y", VInt 2)];
    ODict OrderedDict [("z", VInt 3); ("x", VInt 4)] ].

(** [{type_docs: {u8: "byte"}}], with no documentation, in the store. *)
Definition store_no_documentation : heap :=
  [ ODict OrderedDict [("u8", VStr "byte")];
    ODict OrderedDict [("type_docs", VRef 0)] ].

(** [{response_flags: {bits: {3: {name: "ERR", description: "error flag"}}}}],
    with no documentation, in the store. *)
Definition store_flags_only : heap :=
  [ ODict OrderedDict [("name", VStr "ERR"); ("description", VStr "error flag")];
    ODict OrderedDict [("3", VRef 0)];
    ODict OrderedDict [("bits", VRef 1)];
    ODict OrderedDict [("response_flags", VRef 2)] ].

(** What the index lists: the names of the documents, last name first. *)
Definition index_names (stems : list string) : list string :=
  rev (sorted_names (map (fun s => s +:+ ".md") stems)).

Definition index_line (name : string) : string :=
  "* [XAP Version "
  +:+ drop_chars 4 (String.substring 0 (String.length name - 3) name)
  +:+ "](" +:+ name +:+ ")" +:+ nl.

Definition index_text (stems : list string) : string :=
  "# XAP Protocol Reference" +:+ nl +:+ nl
  +:+ String.concat "" (map index_line (index_names stems)).

Definition index_path (QMK_FIRMWARE : string) : string :=
  QMK_FIRMWARE +:+ "/docs/xap_protocol.md".

(** A piece of the command that neither prints nor exits. *)
Definition calm {A} (m : IO A) : Prop :=
  ∀ w r w', m w = (r, w') -> stdout w' = stdout w ∧ ∀ c, r ≠ Exited c.

(** A tree with two sections, in the store. *)
Definition store_two_sections : heap :=
  [ OList [VStr "intro"; VStr "more"];
    ODict OrderedDict [("order", VRef 0); ("intro", VStr (" # One" +:+ nl));
                       ("more", VStr "Two")];
    ODict OrderedDict [("documentation", VRef 1)] ].

(** The same, with a number where the text of [more] should be. *)
Definition store_number_section : heap :=
  [ OList [VStr "intro"; VStr "more"];
    ODict OrderedDict [("order", VRef 0); ("intro", VStr (" # One" +:+ nl));
                       ("more", VInt 5)];
    ODict OrderedDict [("documentation", VRef 1)] ].

(** * Theorems *)

(** The merges of the specification's examples. *)
Example merge_append :
  merge_trees 10 [od [("a", TList [TInt 1; TInt 2])]; od [("a", TList [TInt 3; TInt 4])]]
  = Returned (Some (od [("a", TList [TInt 1; TInt 2; TInt 3; TInt 4])])).
Proof. reflexivity. Qed.

Example merge_reset_list :
  merge_trees 10 [od [("a", TList [TInt 1; TInt 2])]; od [("a", TList [TStr "!reset!"; TInt 3])]]
  = Returned (Some (od [("a", TList [TInt 3])])).
Proof. reflexivity. Qed.

Example merge_nested :
  merge_trees 10 [od [("a", od [("x", TInt 1); ("y", TInt 2)])]; od [("a", od [("y", TInt 3)])]]
  = Returned (Some (od [("a", od [("x", TInt 1); ("y", TInt 3)])])).
Proof. reflexivity. Qed.

Example merge_reset_dict :
  merge_trees 10 [od [("a", od [("x", TInt 1)])];
                  od [("a", od [("!reset!", TBool true); ("z", TInt 9)])]]
  = Returned (Some (od [("a", od [("z", TInt 9)])])).
Proof. reflexivity. Qed.

(** ** Facts about dict items *)

Ltac case_eqb :=
  match goal with
  | |- context [String.eqb ?a ?b] => destruct (String.eqb_spec a b); subst
  | H : context [String.eqb ?a ?b] |- _ => destruct (String.eqb_spec a b); subst
  end.

Lemma dict_get_set_eq k v items : dict_get k (dict_set k v items) = Some v.
Proof.
  induction items as [|[k' v'] rest IH]; simpl.
  - by rewrite String.eqb_refl.
  - case_eqb; simpl; [by rewrite String.eqb_refl|].
    by destruct (String.eqb_spec k k').
Qed.

Lemma dict_get_set_ne j k v items :
  j ≠ k -> dict_get j (dict_set k v items) = dict_get j items.
Proof.
  intros Hne. induction items as [|[k' v'] rest IH]; simpl.
  - by destruct (String.eqb_spec j k).
  - destruct (String.eqb_spec k k'); subst; simpl.
    + by destruct (String.eqb_spec j k').
    + by rewrite IH.
Qed.

Lemma dict_get_del_eq k items : dict_get k (dict_del k items) = None.
Proof.
  induction items as [|[k' v'] rest IH]; simpl; [done|].
  destruct (String.eqb_spec k k') as [->|Hne]; simpl; [done|].
  by destruct (String.eqb_spec k k').
Qed.

Lemma dict_get_del_ne j k items :
  j ≠ k -> dict_get j (dict_del k items) = dict_get j items.
Proof.
  intros Hne. induction items as [|[k' v'] rest IH]; simpl; [done|].
  destruct (String.eqb_spec k k') as [->|Hne']; simpl.
  - by destruct (String.eqb_spec j k').
  - by rewrite IH.
Qed.

Lemma dict_get_elem k v items : dict_get k items = Some v -> (k, v) ∈ items.
Proof.
  induction items as [|[k' v'] rest IH]; simpl; [done|].
  destruct (String.eqb_spec k k') as [->|Hne].
  - intros [= ->]. left.
  - intros H. right. auto.
Qed.

Lemma dict_get_None k items : dict_get k items = None <-> k ∉ keys items.
Proof.
  induction items as [|[k' v'] rest IH]; simpl.
  - split; [intros _; apply not_elem_of_nil | done].
  - rewrite not_elem_of_cons. destruct (String.eqb_spec k k') as [->|Hne].
    + split; [done | intros [? _]; done].
    + rewrite IH. tauto.
Qed.

Lemma elem_dict_get k v items :
  NoDup (keys items) -> (k, v) ∈ items -> dict_get k items = Some v.
Proof.
  induction items as [|[k' v'] rest IH]; simpl.
  - intros _ H. by apply elem_of_nil in H.
  - intros Hnd Hin. apply NoDup_cons in Hnd as [Hk Hnd].
    apply elem_of_cons in Hin as [[= -> ->]|Hin].
    + by rewrite String.eqb_refl.
    + destruct (String.eqb_spec k k') as [->|Hne]; [|auto].
      exfalso. apply Hk. apply list_elem_of_fmap. by exists (k', v).
Qed.

Lemma dict_has_true k items : dict_has k items = true <-> k ∈ keys items.
Proof.
  unfold dict_has. destruct (dict_get k items) eqn:E.
  - split; [intros _|done]. apply dict_get_elem in E.
    apply list_elem_of_fmap. by exists (k, v).
  - apply dict_get_None in E. split; [done | intros; done].
Qed.

Lemma dict_has_false k items : dict_has k items = false <-> k ∉ keys items.
Proof.
  rewrite <- dict_has_true. destruct (dict_has k items); split; auto; congruence.
Qed.

Lemma dict_set_fresh k v items :
  dict_has k items = false -> dict_set k v items = items ++ [(k, v)].
Proof.
  unfold dict_has. induction items as [|[k' v'] rest IH]; simpl; [done|].
  destruct (String.eqb_spec k k') as [->|Hne]; [done|].
  intros H. by rewrite IH.
Qed.

Lemma dict_del_absent k items :
  dict_has k items = false -> dict_del k items = items.
Proof.
  unfold dict_has. induction items as [|[k' v'] rest IH]; simpl; [done|].
  destruct (String.eqb_spec k k') as [->|Hne]; [done|].
  intros H. by rewrite IH.
Qed.

Lemma dict_del_has k items : dict_has k (dict_del k items) = false.
Proof. unfold dict_has. by rewrite dict_get_del_eq. Qed.

Lemma dict_del_idem k items : dict_del k (dict_del k items) = dict_del k items.
Proof. apply dict_del_absent, dict_del_has. Qed.

Lemma dict_del_subset k items : dict_del k items ⊆ items.
Proof.
  induction items as [|[k' v'] rest IH]; simpl; [done|].
  destruct (String.eqb k k').
  - intros x Hx. right. auto.
  - intros x Hx. apply elem_of_cons in Hx as [->|Hx]; [left | right; auto].
Qed.

Lemma dict_set_elem k v items x :
  x ∈ dict_set k v items -> x = (k, v) ∨ x ∈ items.
Proof.
  induction items as [|[k' v'] rest IH]; simpl.
  - intros H. apply list_elem_of_singleton in H. by left.
  - destruct (String.eqb_spec k k') as [->|Hne]; intros H.
    + apply elem_of_cons in H as [->|H]; [by left | right; by right].
    + apply elem_of_cons in H as [->|H]; [right; left|].
      destruct (IH H); [by left | right; by right].
Qed.

Lemma keys_dict_set k v items :
  keys (dict_set k v items)
  = if dict_has k items then keys items else keys items ++ [k].
Proof.
  unfold dict_has. induction items as [|[k' v'] rest IH]; simpl; [done|].
  destruct (String.eqb_spec k k') as [->|Hne]; simpl; [done|].
  rewrite IH. by destruct (dict_get k rest).
Qed.

Lemma NoDup_dict_set k v items :
  NoDup (keys items) -> NoDup (keys (dict_set k v items)).
Proof.
  intros H. rewrite keys_dict_set. destruct (dict_has k items) eqn:E; [done|].
  apply NoDup_app. split_and!; [done | | apply NoDup_singleton].
  intros x Hx Hx'. apply list_elem_of_singleton in Hx' as ->.
  by apply dict_has_false in E.
Qed.

Lemma keys_dict_del k items : keys (dict_del k items) ⊆ keys items.
Proof.
  intros x Hx. apply list_elem_of_fmap in Hx as [y [-> Hy]].
  apply list_elem_of_fmap. exists y. split; [done|]. by apply dict_del_subset in Hy.
Qed.

Lemma NoDup_dict_del k items :
  NoDup (keys items) -> NoDup (keys (dict_del k items)).
Proof.
  induction items as [|[k' v'] rest IH]; simpl; [done|].
  intros Hnd. apply NoDup_cons in Hnd as [Hk Hnd].
  destruct (String.eqb k k'); [auto|]. simpl. apply NoDup_cons. split; [|auto].
  intros Hin. apply Hk. by apply keys_dict_del in Hin.
Qed.

(** ** Well-formed stores *)

Lemma closed_val_mono n m v : n ≤ m -> closed_val n v -> closed_val m v.
Proof. destruct v; simpl; auto; lia. Qed.

Lemma obj_ok_mono n m o : n ≤ m -> obj_ok n o -> obj_ok m o.
Proof.
  intros Hle [Hc Hnd]. split; [|done].
  eapply Forall_impl; [exact Hc|]. intros x. by apply closed_val_mono.
Qed.

Lemma heap_ok_lookup h a o : heap_ok h -> h !! a = Some o -> obj_ok (length h) o.
Proof. intros Hok Ha. eapply Forall_lookup_1 in Hok; eauto. Qed.

Lemma heap_ok_alloc h o :
  heap_ok h -> obj_ok (S (length h)) o -> heap_ok (h ++ [o]).
Proof.
  intros Hok Ho. unfold heap_ok. rewrite length_app. simpl.
  replace (length h + 1) with (S (length h)) by lia.
  apply Forall_app. split; [|by apply Forall_singleton].
  eapply Forall_impl; [exact Hok|]. intros x. apply obj_ok_mono. lia.
Qed.

Lemma heap_ok_insert h a o :
  heap_ok h -> obj_ok (length h) o -> heap_ok (<[a := o]> h).
Proof.
  intros Hok Ho. unfold heap_ok. rewrite length_insert.
  by apply Forall_insert.
Qed.

Lemma held_lookup h a o v : h !! a = Some o -> v ∈ obj_values o -> held h v.
Proof.
  intros Ha Hv. apply Exists_exists. exists o. split; [|done].
  eapply list_elem_of_lookup_2; eauto.
Qed.

Lemma held_inv h v : held h v -> ∃ a o, h !! a = Some o ∧ v ∈ obj_values o.
Proof.
  intros H. apply Exists_exists in H as [o [Ho Hv]].
  apply list_elem_of_lookup_1 in Ho as [a Ha]. eauto.
Qed.

Lemma held_alloc h o v : held (h ++ [o]) v -> held h v ∨ v ∈ obj_values o.
Proof.
  intros H. apply Exists_app in H as [H|H]; [by left|].
  apply Exists_cons in H as [H|H]; [by right|]. by apply Exists_nil in H.
Qed.

Lemma held_insert h a o v : held (<[a := o]> h) v -> held h v ∨ v ∈ obj_values o.
Proof.
  intros H. apply held_inv in H as [b [o' [Hb Hv]]].
  destruct (decide (a = b)) as [->|Hne].
  - destruct (decide (b < length h)).
    + rewrite list_lookup_insert_eq in Hb by done. injection Hb as <-. by right.
    + rewrite list_insert_ge in Hb by lia. left. eapply held_lookup; eauto.
  - rewrite list_lookup_insert_ne in Hb by done. left. eapply held_lookup; eauto.
Qed.

Lemma held_closed h a : heap_ok h -> held h (VRef a) -> a < length h.
Proof.
  intros Hok H. apply held_inv in H as [b [o [Hb Hv]]].
  eapply heap_ok_lookup in Hb as [Hc _]; [|done].
  eapply Forall_forall in Hc; [|exact Hv]. exact Hc.
Qed.

Lemma obj_values_strip o : obj_values (strip o) ⊆ obj_values o.
Proof.
  destruct o; simpl; [|done]. intros x Hx.
  apply list_elem_of_fmap in Hx as [y [-> Hy]].
  apply list_elem_of_fmap. exists y. split; [done|]. by apply dict_del_subset in Hy.
Qed.

Lemma obj_ok_strip n o : obj_ok n o -> obj_ok n (strip o).
Proof.
  intros [Hc Hnd]. split.
  - apply Forall_forall. intros x Hx. apply obj_values_strip in Hx.
    eapply Forall_forall in Hc; eauto.
  - destruct o; simpl; [|done]. by apply NoDup_dict_del.
Qed.

Lemma strip_idem o : strip (strip o) = strip o.
Proof. destruct o; simpl; [|done]. by rewrite dict_del_idem. Qed.

Lemma reach_held h v a : reach h v a -> v = VRef a ∨ held h (VRef a).
Proof.
  induction 1 as [a|b kind items k x a Hb Hin _ IH]; [by left|]. right.
  destruct IH as [->|IH]; [|done].
  eapply held_lookup; [exact Hb|]. simpl.
  apply list_elem_of_fmap. by exists (k, VRef a).
Qed.

Lemma below_held h d a : below h d a -> held h (VRef a).
Proof.
  intros (b & kind & items & k & x & -> & Hb & Hin & Hr).
  apply reach_held in Hr as [->|Hr]; [|done].
  eapply held_lookup; [exact Hb|]. simpl.
  apply list_elem_of_fmap. by exists (k, VRef a).
Qed.

Lemma below_reach h d a : below h d a -> reach h d a.
Proof.
  intros (b & kind & items & k & x & -> & Hb & Hin & Hr).
  eapply reach_item; eauto.
Qed.

(** ** What a merge does to the store *)

Lemma phase_refl t v h : heap_ok h -> private t h -> phase t v h h.
Proof. intros. split_and!; auto. Qed.

Lemma phase_alloc t v h o :
  heap_ok h -> private t h -> t < length h ->
  (∀ x, x ∈ obj_values o -> held h x) ->
  match o with ODict _ items => NoDup (keys items) | OList _ => True end ->
  phase t v h (h ++ [o]).
Proof.
  intros Hok Hp Ht Hv Hnd. split_and!.
  - apply heap_ok_alloc; [done|]. split; [|done].
    apply Forall_forall. intros x Hx. apply Hv in Hx.
    destruct x; simpl; auto. apply held_closed in Hx; [lia|done].
  - rewrite length_app. lia.
  - by rewrite lookup_app_l.
  - intros Hh. apply held_alloc in Hh as [Hh|Hh]; [done|]. by apply Hv in Hh.
  - intros a o' _ Ha. left. rewrite lookup_app_l; [done|]. by eapply lookup_lt_Some.
  - intros y Hh. apply held_alloc in Hh as [Hh|Hh]; [by left|]. left. by apply Hv.
Qed.

Lemma raise_post t k v kd its h e h1 :
  h !! t = Some (ODict kd its) -> phase t v h h1 ->
  entry_post t k v kd its h (Raised e) h1.
Proof.
  intros Ht (Hok & Hlen & Heq & Hp & Hfr & Hg). split_and!; auto.
  - intros y Hy. destruct (Hg y Hy); auto.
  - exists its. split_and!; [congruence | by left | done].
Qed.

Lemma set_post t k v kd its h h1 x :
  h !! t = Some (ODict kd its) -> phase t v h h1 ->
  closed_val (length h1) x -> x ≠ VRef t ->
  (∀ y, x = VRef y -> held h (VRef y) ∨ v = VRef y ∨ length h ≤ y) ->
  entry_post t k v kd its h (Returned tt) (<[t := ODict kd (dict_set k x its)]> h1).
Proof.
  intros Ht (Hok & Hlen & Heq & Hp & Hfr & Hg) Hcx Hxt Hx.
  assert (Ht1 : h1 !! t = Some (ODict kd its)) by congruence.
  assert (Hin : ∀ y, y ∈ values (dict_set k x its) -> y = x ∨ y ∈ values its).
  { intros y Hy. apply list_elem_of_fmap in Hy as [[k' y'] [-> Hy]].
    apply dict_set_elem in Hy as [[= -> ->]|Hy]; [by left|]. right.
    apply list_elem_of_fmap. by exists (k', y'). }
  split_and!.
  - apply heap_ok_insert; [done|]. eapply heap_ok_lookup in Ht1 as [Hc Hnd]; [|done].
    split; [|by apply NoDup_dict_set]. apply Forall_forall. intros y Hy.
    apply Hin in Hy as [->|Hy]; [done|]. eapply Forall_forall in Hc; eauto.
  - by rewrite length_insert.
  - intros a o Ha Hao. rewrite list_lookup_insert_ne by done. auto.
  - intros y Hy. apply held_insert in Hy as [Hy|Hy].
    + destruct (Hg y Hy); auto.
    + apply Hin in Hy as [<-|Hy]; [auto|]. left. eapply held_lookup; eauto.
  - intros Hy. apply held_insert in Hy as [Hy|Hy]; [done|].
    apply Hin in Hy as [<-|Hy]; [done|]. apply Hp. eapply held_lookup; eauto.
  - exists (dict_set k x its). split_and!; [|right; eauto|eauto].
    apply list_lookup_insert_eq. by eapply lookup_lt_Some.
Qed.

Lemma strip_post t k v kd its h h2 b ob :
  entry_post t k v kd its h (Returned tt) h2 ->
  h2 !! b = Some ob -> b ≠ t ->
  (length h ≤ b ∨ reach h v b) ->
  entry_post t k v kd its h (Returned tt) (<[b := strip ob]> h2).
Proof.
  intros (Hok & Hlen & Hfr & Hg & Hp & Hit) Hb Hbt Hcase.
  assert (Hsub : ∀ y, held (<[b := strip ob]> h2) y -> held h2 y).
  { intros y Hy. apply held_insert in Hy as [Hy|Hy]; [done|].
    apply obj_values_strip in Hy. eapply held_lookup; eauto. }
  split_and!.
  - apply heap_ok_insert; [done|]. apply obj_ok_strip. by eapply heap_ok_lookup.
  - by rewrite length_insert.
  - intros a o Ha Hao. destruct (decide (a = b)) as [->|Hab].
    + rewrite list_lookup_insert_eq by (by eapply lookup_lt_Some).
      destruct Hcase as [Hge|Hr]; [apply lookup_lt_Some in Hao; lia|].
      destruct (Hfr b o Ha Hao) as [Ho|[Ho _]]; rewrite Ho in Hb; injection Hb as <-.
      * right. auto.
      * right. by rewrite strip_idem.
    + rewrite list_lookup_insert_ne by done. auto.
  - intros y Hy. auto.
  - intros Hy. auto.
  - destruct Hit as (its' & Ht' & Hits). exists its'. split; [|done].
    by rewrite list_lookup_insert_ne.
Qed.

Lemma phase_merge merge t old v h out h1 :
  merge_spec merge -> heap_ok h -> private t h -> t < length h ->
  closed_val (length h) old -> closed_val (length h) v ->
  merge [old; v] h = (out, h1) ->
  phase t v h h1 ∧
  (∀ r, out = Returned r ->
     r = VRef (length h) ∧ length h < length h1 ∧
     ∃ items, h1 !! length h = Some (ODict OrderedDict items)).
Proof.
  intros Hm Hok Hp Ht Hco Hcv H.
  apply Hm in H as (Hok1 & Hlen & Hfr & Hg & Hres); [|done|by repeat constructor].
  assert (Hp1 : private t h1).
  { intros Hh. apply Hg in Hh as [Hh|Hh]; [done|lia]. }
  split; [split_and!; auto|].
  - destruct (h !! t) as [o|] eqn:Hto; [|by apply lookup_ge_None in Hto; lia].
    destruct (Hfr t o Hto) as [?|[_ Hb]]; [done|]. simpl in Hb.
    apply Exists_cons in Hb as [Hb|Hb]; [|by apply Exists_nil in Hb].
    by apply below_held in Hb.
  - intros a o _ Ha. destruct (Hfr a o Ha) as [?|[? Hb]]; [by left|right].
    split; [done|]. simpl in Hb.
    apply Exists_cons in Hb as [Hb|Hb]; [|by apply Exists_nil in Hb].
    by apply below_reach.
  - intros r Hr. destruct (Hres r Hr) as (-> & [items Hit] & _).
    split_and!; [done| by eapply lookup_lt_Some | eauto].
Qed.

Ltac go H :=
  repeat (progress (simpl in H;
    rewrite ?list_lookup_insert_eq, ?dict_get_set_eq in H by (done || lia))).

(** Case analysis on a term of hypothesis [H], rewriting it there. *)
Tactic Notation "case_in" hyp(H) constr(t) "as" simple_intropattern(p) "by" ident(E) :=
  destruct t as p eqn:E; rewrite ?E in H; simpl in H.

Lemma add_entry_spec merge t k v h out h' kd its :
  merge_spec merge -> heap_ok h -> h !! t = Some (ODict kd its) ->
  private t h -> closed_val (length h) v -> v ≠ VRef t ->
  add_entry merge (VRef t) k v h = (out, h') ->
  entry_post t k v kd its h out h'.
Proof.
  intros Hm Hok Ht Hpriv Hcv Hne H.
  assert (Htlt : t < length h) by (by eapply lookup_lt_Some).
  assert (Hph : phase t v h h) by (by apply phase_refl).
  assert (Hsetv : entry_post t k v kd its h (Returned tt)
                    (<[t := ODict kd (dict_set k v its)]> h)).
  { eapply set_post; eauto. }
  unfold add_entry, bind, py_contains, py_getitem, py_setitem, py_delitem,
    py_first, py_rest, py_add, alloc, isinstance_OrderedDict, isinstance_list,
    ret in H.
  rewrite Ht in H.
  case_in H (dict_has k its) as [] by Hk.
  2:{ case_in H (deref h v) as [[[]?|?]|] by Hv;
      rewrite ?Ht in H; injection H as <- <-; exact Hsetv. }
  destruct v as [| | | | |b];
    try (simpl in H; rewrite ?Ht in H; injection H as <- <-; exact Hsetv).
  simpl in H. assert (Hbt : b ≠ t) by congruence.
  case_in H (h !! b) as [[[] its_v|elems]|] by Hv;
    try (rewrite ?Ht in H; injection H as <- <-; exact Hsetv).
  - (* an OrderedDict under a key already there *)
    case_in H (dict_has RESET its_v) as [] by Hr.
    + rewrite Ht in H. go H.
      rewrite list_lookup_insert_ne in H by done. rewrite Hv, Hr in H.
      rewrite list_lookup_insert_ne in H by done. rewrite Hv, Hr in H.
      injection H as <- <-.
      change (ODict OrderedDict (dict_del RESET its_v)) with (strip (ODict OrderedDict its_v)).
      eapply strip_post; eauto.
      * by rewrite list_lookup_insert_ne.
      * right. constructor.
    + rewrite Ht in H.
      unfold dict_has in Hk. case_in H (dict_get k its) as [old|] by Hold; [|done].
      assert (Hcold : closed_val (length h) old).
      { apply dict_get_elem in Hold. eapply heap_ok_lookup in Ht as [Hc _]; [|done].
        eapply Forall_forall in Hc; [exact Hc|].
        apply list_elem_of_fmap. by exists (k, old). }
      case_in H (merge [old; VRef b] h) as [[r|e] h1] by Hmr.
      * eapply phase_merge in Hmr as [Hph1 Hres]; eauto.
        destruct (Hres r eq_refl) as (-> & Hlt & [items Hit]).
        pose proof Hph1 as (Hok1 & Hlen1 & Heq1 & Hp1 & Hfr1 & Hg1).
        rewrite Heq1, Ht in H. go H.
        assert (Htn : t ≠ length h) by lia.
        rewrite list_lookup_insert_ne in H by done. rewrite Hit in H.
        assert (Hset : entry_post t k (VRef b) kd its h (Returned tt)
                  (<[t := ODict kd (dict_set k (VRef (length h)) its)]> h1)).
        { apply set_post; [done | done | simpl; lia | intros [=]; lia |].
          intros y [= <-]. auto. }
        case_in H (dict_has RESET items) as [] by Hri.
        -- rewrite list_lookup_insert_ne in H by done. rewrite Hit, Hri in H.
           injection H as <- <-.
           change (ODict OrderedDict (dict_del RESET items)) with (strip (ODict OrderedDict items)).
           eapply strip_post; [exact Hset | by rewrite list_lookup_insert_ne by done | lia | left; lia].
        -- injection H as <- <-. exact Hset.
      * injection H as <- <-. eapply phase_merge in Hmr as [Hph1 _]; eauto.
        by apply raise_post.
  - (* a list under a key already there *)
    destruct elems as [|first rest]; simpl in H.
    { injection H as <- <-. by apply raise_post. }
    case_in H (eq_str first RESET) as [] by Hfirst.
    + rewrite Hv in H. simpl in H. rewrite lookup_app_l in H by done. rewrite Ht in H.
      injection H as <- <-. eapply set_post; eauto.
      * eapply phase_alloc; eauto. simpl. intros x Hx.
        eapply held_lookup; [exact Hv|]. simpl. by right.
      * simpl. rewrite length_app. simpl. lia.
      * intros [=]. lia.
      * intros y [= <-]. auto.
    + rewrite Ht in H. unfold dict_has in Hk.
      case_in H (dict_get k its) as [old|] by Hold; [|done].
      case_in H (deref h old) as [[? ?|xs]|] by Hdo;
        try (injection H as <- <-; by apply raise_post).
      rewrite Hv in H. rewrite lookup_app_l in H by done. rewrite Ht in H.
      injection H as <- <-. eapply set_post; eauto.
      * eapply phase_alloc; eauto. simpl. intros x Hx.
        apply elem_of_app in Hx as [Hx|Hx].
        -- destruct old; try done. eapply held_lookup; [exact Hdo|done].
        -- eapply held_lookup; [exact Hv|done].
      * simpl. rewrite length_app. simpl. lia.
      * intros [=]. lia.
      * intros y [= <-]. auto.
Qed.

Lemma reach_mono t h h1 v a :
  heap_ok h -> private t h ->
  (∀ b o, b ≠ t -> h !! b = Some o -> h1 !! b = Some o ∨ h1 !! b = Some (strip o)) ->
  closed_val (length h) v -> v ≠ VRef t ->
  reach h1 v a -> reach h v a.
Proof.
  intros Hok Hp Hfr Hc Hne Hr. induction Hr as [a|b kind items k x a Hb Hin _ IH].
  - constructor.
  - simpl in Hc. assert (Hbt : b ≠ t) by congruence.
    destruct (h !! b) as [o|] eqn:Ho; [|apply lookup_ge_None in Ho; lia].
    assert (Hin0 : ∃ items0, o = ODict kind items0 ∧ (k, x) ∈ items0).
    { destruct (Hfr b o Hbt Ho) as [E|E]; rewrite E in Hb; injection Hb as Hb.
      - eauto.
      - destruct o as [kind0 items0|]; [|done]. simpl in Hb. injection Hb as -> <-.
        exists items0. split; [done|]. by apply dict_del_subset in Hin. }
    destruct Hin0 as (items0 & -> & Hin0).
    assert (Hx : x ∈ obj_values (ODict kind items0)).
    { simpl. apply list_elem_of_fmap. by exists (k, x). }
    eapply reach_item; [exact Ho | exact Hin0 |]. apply IH.
    + eapply heap_ok_lookup in Ho as [Hcl _]; [|done].
      eapply Forall_forall in Hcl; eauto.
    + intros ->. apply Hp. eapply held_lookup; eauto.
Qed.

Lemma entries_spec merge t kd :
  merge_spec merge ->
  ∀ items h its out h',
    heap_ok h -> h !! t = Some (ODict kd its) -> private t h ->
    Forall (fun kv => closed_val (length h) kv.2 ∧ kv.2 ≠ VRef t) items ->
    for_each items (fun kv => add_entry merge (VRef t) kv.1 kv.2) h = (out, h') ->
    entries_post t kd its items h h'.
Proof.
  intros Hm. induction items as [|[k v] rest IH]; intros h its out h' Hok Ht Hp Hit H.
  - injection H as <- <-. split_and!; auto. exists its. auto.
  - simpl in H. unfold bind in H.
    apply Forall_cons in Hit as [[Hcv Hvt] Hrest]. simpl in Hcv, Hvt.
    destruct (add_entry merge (VRef t) k v h) as [[[]|e] h1] eqn:Hae.
    + apply add_entry_spec with (kd := kd) (its := its) in Hae; auto.
      destruct Hae as (Hok1 & Hlen1 & Hfr1 & Hg1 & Hp1 & its1 & Ht1 & _ & Hset).
      destruct (Hset eq_refl) as [x ->].
      apply IH with (its := dict_set k x its) in H; auto.
      2:{ eapply Forall_impl; [exact Hrest|]. intros kv [? ?]. split; [|done].
          by eapply closed_val_mono. }
      destruct H as (Hok' & Hlen' & Hfr' & Hg' & Hp' & its' & Ht' & Hget).
      split_and!; auto; [lia | | |].
      * intros a o Ha Hao. destruct (Hfr1 a o Ha Hao) as [E|[E Hr]].
        -- destruct (Hfr' a o Ha E) as [E'|[E' Hr']]; [by left|right].
           split; [done|]. apply Exists_cons_tl.
           apply Exists_exists in Hr' as (kv & Hkv & Hr').
           apply Exists_exists. exists kv. split; [done|].
           eapply Forall_forall in Hrest as [? ?]; [|exact Hkv].
           apply (reach_mono t h h1); [done | done | | done | done | done].
           intros b ob Hb Hbo. destruct (Hfr1 b ob Hb Hbo) as [?|[? _]]; auto.
        -- right. split; [|by apply Exists_cons_hd].
           destruct (Hfr' a _ Ha E) as [E'|[E' _]]; [done|]. by rewrite strip_idem in E'.
      * intros y Hy. destruct (Hg' y Hy) as [Hy1|[Hy1|Hy1]].
        -- destruct (Hg1 y Hy1) as [?|[->|?]]; auto. right; left. simpl. left.
        -- right; left. simpl. by right.
        -- right; right. lia.
      * exists its'. split; [done|]. intros j Hj. simpl in Hj.
        apply not_elem_of_cons in Hj as [Hjk Hj].
        rewrite Hget by done. by apply dict_get_set_ne.
    + injection H as <- <-.
      apply add_entry_spec with (kd := kd) (its := its) in Hae; auto.
      destruct Hae as (Hok1 & Hlen1 & Hfr1 & Hg1 & Hp1 & its1 & Ht1 & Hits & _).
      split_and!; auto.
      * intros a o Ha Hao. destruct (Hfr1 a o Ha Hao) as [E|[E Hr]]; [by left|right].
        split; [done|]. by apply Exists_cons_hd.
      * intros y Hy. destruct (Hg1 y Hy) as [?|[->|?]]; auto. right; left. simpl. left.
      * exists its1. split; [done|]. intros j Hj. simpl in Hj.
        apply not_elem_of_cons in Hj as [Hjk Hj].
        destruct Hits as [->|[x ->]]; [done|]. by apply dict_get_set_ne.
Qed.

Lemma add_entry_absent merge t k v h kd its :
  h !! t = Some (ODict kd its) -> dict_has k its = false ->
  add_entry merge (VRef t) k v h
  = (Returned tt, <[t := ODict kd (dict_set k v its)]> h).
Proof.
  intros Ht Hk.
  unfold add_entry, bind, py_contains, py_setitem, isinstance_OrderedDict,
    isinstance_list.
  simpl. rewrite Ht, Hk. simpl.
  destruct (deref h v) as [[[]?|?]|] eqn:E; simpl; rewrite ?E; simpl; by rewrite Ht.
Qed.

Lemma entries_copy merge t kd :
  ∀ items h its,
    h !! t = Some (ODict kd its) -> NoDup (keys items) ->
    (∀ j, j ∈ keys items -> j ∉ keys its) ->
    for_each items (fun kv => add_entry merge (VRef t) kv.1 kv.2) h
    = (Returned tt, <[t := ODict kd (its ++ items)]> h).
Proof.
  induction items as [|[k v] rest IH]; intros h its Ht Hnd Hdisj; simpl.
  - rewrite app_nil_r. by rewrite list_insert_id.
  - apply NoDup_cons in Hnd as [Hk Hnd]. unfold bind.
    assert (Hfresh : dict_has k its = false).
    { apply dict_has_false. apply Hdisj. simpl. left. }
    rewrite (add_entry_absent _ _ _ _ _ _ _ Ht Hfresh).
    rewrite dict_set_fresh by done.
    rewrite (IH _ (its ++ [(k, v)])); [| |done|].
    + rewrite list_insert_insert_eq. by rewrite <- app_assoc.
    + apply list_lookup_insert_eq. by eapply lookup_lt_Some.
    + intros j Hj Hin. unfold keys in Hin. rewrite fmap_app in Hin.
      apply elem_of_app in Hin as [Hin|Hin].
      * eapply Hdisj; [|exact Hin]. simpl. by right.
      * simpl in Hin. apply list_elem_of_singleton in Hin as ->. done.
Qed.

Lemma below_mono t h h1 d a :
  heap_ok h -> private t h ->
  (∀ b o, b ≠ t -> h !! b = Some o -> h1 !! b = Some o ∨ h1 !! b = Some (strip o)) ->
  closed_val (length h) d -> d ≠ VRef t ->
  below h1 d a -> below h d a.
Proof.
  intros Hok Hp Hfr Hc Hne (b & kind & items & k & x & -> & Hb & Hin & Hr).
  assert (Hr' : reach h1 (VRef b) a) by (eapply reach_item; eauto).
  apply (reach_mono t h h1) in Hr'; [|done..].
  simpl in Hc. assert (Hbt : b ≠ t) by congruence.
  destruct (h !! b) as [o|] eqn:Ho; [|apply lookup_ge_None in Ho; lia].
  assert (Hin0 : ∃ items0, o = ODict kind items0 ∧ (k, x) ∈ items0).
  { destruct (Hfr b o Hbt Ho) as [E|E]; rewrite E in Hb; injection Hb as Hb.
    - eauto.
    - destruct o as [kind0 items0|]; [|done]. simpl in Hb. injection Hb as -> <-.
      exists items0. split; [done|]. by apply dict_del_subset in Hin. }
  destruct Hin0 as (items0 & -> & Hin0).
  exists b, kind, items0, k, x. split_and!; [done..|].
  apply (reach_mono t h h1); [done..| | |done].
  - eapply heap_ok_lookup in Ho as [Hcl _]; [|done].
    eapply Forall_forall in Hcl; [exact Hcl|]. simpl.
    apply list_elem_of_fmap. by exists (k, x).
  - intros ->. apply Hp. eapply held_lookup; [exact Ho|]. simpl.
    apply list_elem_of_fmap. by exists (k, VRef t).
Qed.

Lemma merge_into_spec merge t kd its d h out h' :
  merge_spec merge -> heap_ok h -> h !! t = Some (ODict kd its) ->
  private t h -> closed_val (length h) d -> d ≠ VRef t ->
  merge_into merge (VRef t) d h = (out, h') ->
  dicts_post t kd (below h d) h h'.
Proof.
  intros Hm Hok Ht Hp Hcd Hdt H. unfold merge_into, bind, py_items in H.
  destruct (deref h d) as [[kind items|?]|] eqn:Hd;
    try (injection H as <- <-; split_and!; eauto).
  destruct d as [| | | | |b]; try done. simpl in Hd.
  assert (Hvals : ∀ kv, kv ∈ items -> held h kv.2).
  { intros kv Hkv. eapply held_lookup; [exact Hd|]. simpl.
    apply list_elem_of_fmap. by exists kv. }
  apply entries_spec with (kd := kd) (its := its) in H; auto.
  - destruct H as (Hok' & Hlen' & Hfr' & Hg' & Hp' & its' & Ht' & _).
    split_and!; eauto.
    + intros a o Ha Hao. destruct (Hfr' a o Ha Hao) as [?|[? Hr]]; [by left|right].
      split; [done|]. apply Exists_exists in Hr as ([k x] & Hkx & Hr).
      exists b, kind, items, k, x. auto.
    + intros y Hy. destruct (Hg' y Hy) as [?|[Hv|?]]; auto. left.
      apply list_elem_of_fmap in Hv as (kv & -> & Hkv). auto.
  - apply Forall_forall. intros kv Hkv. apply Hvals in Hkv. split.
    + destruct (kv.2); simpl; auto. by apply held_closed in Hkv.
    + intros E. rewrite E in Hkv. done.
Qed.

Lemma dicts_spec merge t kd :
  merge_spec merge ->
  ∀ ds h its out h',
    heap_ok h -> h !! t = Some (ODict kd its) -> private t h ->
    Forall (fun d => closed_val (length h) d ∧ d ≠ VRef t) ds ->
    for_each ds (merge_into merge (VRef t)) h = (out, h') ->
    dicts_post t kd (fun a => Exists (fun d => below h d a) ds) h h'.
Proof.
  intros Hm. induction ds as [|d rest IH]; intros h its out h' Hok Ht Hp Hds H.
  - injection H as <- <-. split_and!; eauto.
  - simpl in H. unfold bind in H.
    apply Forall_cons in Hds as [[Hcd Hdt] Hrest].
    destruct (merge_into merge (VRef t) d h) as [[[]|e] h1] eqn:Hmi.
    + apply merge_into_spec with (kd := kd) (its := its) in Hmi; auto.
      destruct Hmi as (Hok1 & Hlen1 & Hfr1 & Hg1 & Hp1 & its1 & Ht1).
      apply IH with (its := its1) in H; auto.
      2:{ eapply Forall_impl; [exact Hrest|]. intros x [? ?]. split; [|done].
          by eapply closed_val_mono. }
      destruct H as (Hok' & Hlen' & Hfr' & Hg' & Hp' & its' & Ht').
      assert (Hfr01 : ∀ b o, b ≠ t -> h !! b = Some o ->
                h1 !! b = Some o ∨ h1 !! b = Some (strip o)).
      { intros b ob Hb Hbo. destruct (Hfr1 b ob Hb Hbo) as [?|[? _]]; auto. }
      split_and!; eauto; [lia | |].
      * intros a o Ha Hao. destruct (Hfr1 a o Ha Hao) as [E|[E Hr]].
        -- destruct (Hfr' a o Ha E) as [E'|[E' Hr']]; [by left|right].
           split; [done|]. apply Exists_cons_tl.
           apply Exists_exists in Hr' as (d' & Hd' & Hr').
           apply Exists_exists. exists d'. split; [done|].
           eapply Forall_forall in Hrest as [? ?]; [|exact Hd'].
           by apply (below_mono t h h1).
        -- right. split; [|by apply Exists_cons_hd].
           destruct (Hfr' a _ Ha E) as [E'|[E' _]]; [done|]. by rewrite strip_idem in E'.
      * intros y Hy. destruct (Hg' y Hy) as [Hy1|Hy1].
        -- destruct (Hg1 y Hy1); auto.
        -- right. lia.
    + injection H as <- <-.
      apply merge_into_spec with (kd := kd) (its := its) in Hmi; auto.
      destruct Hmi as (Hok1 & Hlen1 & Hfr1 & Hg1 & Hp1 & its1 & Ht1).
      split_and!; eauto.
      intros a o Ha Hao. destruct (Hfr1 a o Ha Hao) as [E|[E Hr]]; [by left|right].
      split; [done|]. by apply Exists_cons_hd.
Qed.

Lemma closed_private h : heap_ok h -> private (length h) h.
Proof. intros Hok Hh. apply held_closed in Hh; [lia|done]. Qed.

Theorem merge_spec_holds limit : merge_spec (_merge_ordered_dicts limit).
Proof.
  induction limit as [|n IH]; intros ds h out h' Hok Hds H.
  - injection H as <- <-. split_and!; auto. intros r [=].
  - simpl in H. unfold bind, alloc, ret in H. set (t := length h) in *.
    set (h0 := h ++ [ODict OrderedDict []]) in *.
    assert (Hok0 : heap_ok h0).
    { apply heap_ok_alloc; [done|]. split; simpl; constructor. }
    assert (Ht0 : h0 !! t = Some (ODict OrderedDict [])).
    { unfold h0, t. by rewrite list_lookup_middle. }
    assert (Hp0 : private t h0).
    { intros Hh. apply held_alloc in Hh as [Hh|Hh].
      - by apply closed_private in Hh.
      - by apply elem_of_nil in Hh. }
    assert (Hlen0 : length h0 = S t).
    { unfold h0. rewrite length_app. simpl. lia. }
    assert (Hold : ∀ a o, h !! a = Some o -> a ≠ t ∧ h0 !! a = Some o).
    { intros a o Ha. pose proof (lookup_lt_Some _ _ _ Ha). split; [unfold t; lia|].
      unfold h0. by rewrite lookup_app_l. }
    assert (Hheld0 : ∀ y, held h0 y -> held h y).
    { intros y Hy. apply held_alloc in Hy as [?|Hy]; [done|]. by apply elem_of_nil in Hy. }
    assert (Hds0 : Forall (fun d => closed_val (length h0) d ∧ d ≠ VRef t) ds).
    { eapply Forall_impl; [exact Hds|]. intros d Hd. split.
      - eapply closed_val_mono; [|exact Hd]. lia.
      - intros ->. simpl in Hd. unfold t in Hd. lia. }
    assert (Hfin : ∀ S h1,
      dicts_post t OrderedDict S h0 h1 ->
      (∀ a, a < t -> S a -> Exists (fun d => below h d a) (tail ds)) ->
      heap_ok h1 ∧ length h ≤ length h1 ∧
      (∀ a o, h !! a = Some o ->
         h1 !! a = Some o ∨
         (h1 !! a = Some (strip o) ∧ Exists (fun d => below h d a) (tail ds))) ∧
      (∀ y, held h1 (VRef y) -> held h (VRef y) ∨ length h ≤ y) ∧
      (∀ r, Returned (VRef t) = Returned r ->
         r = VRef (length h) ∧
         (∃ items, h1 !! length h = Some (ODict OrderedDict items)) ∧
         private (length h) h1)).
    { intros S h1 (Hok1 & Hlen1 & Hfr1 & Hg1 & Hp1 & its1 & Ht1) HS.
      split_and!; auto; [lia | | |].
      - intros a o Ha. destruct (Hold a o Ha) as [Hat Ha0].
        destruct (Hfr1 a o Hat Ha0) as [?|[? Hs]]; [by left|right]. split; [done|].
        apply HS; [|done]. apply lookup_lt_Some in Ha. done.
      - intros y Hy. destruct (Hg1 y Hy) as [?|?]; [left; auto | right; lia].
      - intros r [= <-]. split_and!; eauto. }
    destruct ds as [|d rest].
    + simpl in H. injection H as <- <-.
      apply (Hfin (fun _ => False)); [|done].
      split_and!; eauto.
    + simpl in H. unfold bind in H. fold (bind (A:=unit) (B:=unit)) in H.
      apply Forall_cons in Hds0 as [[Hcd Hdt] Hrest].
      unfold merge_into at 1 in H. unfold bind, py_items in H.
      destruct (deref h0 d) as [[kind items|?]|] eqn:Hd.
      2,3: injection H as <- <-;
        destruct (Hfin (fun _ => False) h0) as (? & ? & ? & ? & ?);
        [split_and!; eauto | done | split_and!; auto; intros r [=]].
      destruct d as [| | | | |b]; try done. simpl in Hd.
      assert (Hb : b ≠ t) by congruence.
      assert (Hobj : obj_ok (length h0) (ODict kind items)) by (by eapply heap_ok_lookup).
      destruct Hobj as [Hcl Hnd]. simpl in Hcl.
      rewrite (entries_copy _ _ _ _ _ _ Ht0 Hnd) in H by (intros; apply not_elem_of_nil).
      simpl in H. set (h1 := <[t := ODict OrderedDict items]> h0) in *.
      assert (Hbh : h !! b = Some (ODict kind items)).
      { unfold h0 in Hd. rewrite lookup_app_l in Hd; [done|].
        simpl in Hcd. unfold t in Hb. lia. }
      assert (Hvals : ∀ x, x ∈ values items -> held h x).
      { intros x Hx. eapply held_lookup; eauto. }
      assert (Hok1 : heap_ok h1).
      { apply heap_ok_insert; [done|]. split; [|done]. done. }
      assert (Ht1 : h1 !! t = Some (ODict OrderedDict items)).
      { unfold h1. apply list_lookup_insert_eq. lia. }
      assert (Hp1 : private t h1).
      { intros Hh. apply held_insert in Hh as [Hh|Hh]; [done|].
        apply Hvals in Hh. by apply closed_private in Hh. }
      assert (Hlen1 : length h1 = S t) by (unfold h1; by rewrite length_insert).
      destruct (for_each rest (merge_into (_merge_ordered_dicts n) (VRef t)) h1)
        as [o2 h2] eqn:Hloop.
      apply dicts_spec with (kd := OrderedDict) (its := items) in Hloop;
        auto; [|by rewrite Hlen1, <- Hlen0].
      destruct Hloop as (Hok2 & Hlen2 & Hfr2 & Hg2 & Hp2 & its2 & Ht2).
      assert (Hpost : dicts_post t OrderedDict
             (fun a => Exists (fun d => below h1 d a) rest) h0 h2).
      { split_and!; eauto; [lia | |].
        - intros a o Ha Hao. apply Hfr2; [done|]. unfold h1.
          by rewrite list_lookup_insert_ne.
        - intros y Hy. destruct (Hg2 y Hy) as [Hy1|?]; [|right; lia].
          apply held_insert in Hy1 as [?|Hy1]; [by left|].
          left. apply Hvals in Hy1. apply Exists_app. by left. }
      destruct (Hfin _ _ Hpost) as (? & ? & ? & ? & Hres).
      { intros a Ha Hex. simpl.
        apply Exists_exists in Hex as (d' & Hd' & Hbl).
        apply Exists_exists. exists d'. split; [done|].
        eapply Forall_forall in Hrest as [Hc' Hn']; [|exact Hd'].
        apply (below_mono t h h1); auto.
        - by apply closed_private.
        - intros b' o' Hb' Hbo'. left. unfold h1.
          rewrite list_lookup_insert_ne by done. by apply Hold.
        - apply Forall_cons in Hds as [_ Hds']. eapply Forall_forall in Hds'; eauto. }
      destruct o2 as [[]|e]; injection H as <- <-; split_and!; auto.
      intros r [=].
Qed.

(** ** The merge of two trees, key by key *)

Lemma for_each_app {A} (l1 l2 : list A) (body : A -> M unit) h :
  for_each (l1 ++ l2) body h
  = match for_each l1 body h with
    | (Returned _, h1) => for_each l2 body h1
    | (Raised e, h1) => (Raised e, h1)
    end.
Proof.
  revert h. induction l1 as [|x l1 IH]; intros h; simpl; [done|].
  unfold bind. destruct (body x h) as [[[]|e] h1]; [apply IH | done].
Qed.

Lemma for_each_cons {A} (x : A) rest (body : A -> M unit) h :
  for_each (x :: rest) body h
  = match body x h with
    | (Returned _, h') => for_each rest body h'
    | (Raised e, h') => (Raised e, h')
    end.
Proof. reflexivity. Qed.

Lemma insert_last (h : heap) (o o' : obj) :
  <[length h := o']> (h ++ [o]) = h ++ [o'].
Proof. rewrite insert_app_r_alt by lia. by rewrite Nat.sub_diag. Qed.

(** Merging a single dict copies its items into a new [OrderedDict]. *)
Lemma merge_one limit h b kind items :
  NoDup (keys items) -> h !! b = Some (ODict kind items) ->
  _merge_ordered_dicts (S limit) [VRef b] h
  = (Returned (VRef (length h)), h ++ [ODict OrderedDict items]).
Proof.
  intros Hnd Hb. simpl. unfold bind, alloc, merge_into, bind, py_items. simpl.
  rewrite lookup_app_l by (by eapply lookup_lt_Some). rewrite Hb.
  rewrite (entries_copy _ _ OrderedDict _ _ []); [| |done|].
  - simpl. by rewrite insert_last.
  - by rewrite list_lookup_middle.
  - intros. apply not_elem_of_nil.
Qed.

(** Merging two dicts: copy the first, then enter the items of the second. *)
Lemma merge_two limit h a b ka ia kb ib :
  NoDup (keys ia) ->
  h !! a = Some (ODict ka ia) -> h !! b = Some (ODict kb ib) ->
  _merge_ordered_dicts (S limit) [VRef a; VRef b] h
  = match for_each ib (fun kv => add_entry (_merge_ordered_dicts limit)
                                   (VRef (length h)) kv.1 kv.2)
            (h ++ [ODict OrderedDict ia]) with
    | (Returned _, h') => (Returned (VRef (length h)), h')
    | (Raised e, h') => (Raised e, h')
    end.
Proof.
  intros Hnd Ha Hb. simpl. unfold bind, alloc, merge_into, bind, py_items. simpl.
  rewrite lookup_app_l by (by eapply lookup_lt_Some). rewrite Ha.
  rewrite (entries_copy _ _ OrderedDict _ _ []); [| |done|].
  - simpl. rewrite insert_last.
    rewrite lookup_app_l by (by eapply lookup_lt_Some). rewrite Hb.
    by destruct (for_each ib _ _) as [[[]|e] hx].
  - by rewrite list_lookup_middle.
  - intros. apply not_elem_of_nil.
Qed.

Lemma dict_get_split k v items :
  NoDup (keys items) -> dict_get k items = Some v ->
  ∃ pre post, items = pre ++ ((k, v) :: post) ∧ (k ∉ keys pre) ∧ (k ∉ keys post).
Proof.
  intros Hnd Hget. apply dict_get_elem in Hget.
  apply list_elem_of_split in Hget as (pre & post & ->).
  exists pre, post. split; [done|]. unfold keys in *.
  rewrite fmap_app in Hnd. simpl in Hnd.
  apply NoDup_app in Hnd as (_ & Hdisj & Hnd').
  apply NoDup_cons in Hnd' as [Hpost _]. split; [|done].
  intros Hin. eapply Hdisj; [exact Hin|]. left.
Qed.

Lemma eq_str_true x s : eq_str x s = true <-> x = VStr s.
Proof.
  destruct x; simpl; try (split; [done|intros [=]]).
  rewrite String.eqb_eq. split; [by intros -> | by intros [= ->]].
Qed.

(** The store of a successful loop when it reaches key [k]. *)
Lemma entries_at_key merge t kd :
  merge_spec merge ->
  ∀ items h its h' k v,
    heap_ok h -> h !! t = Some (ODict kd its) -> private t h ->
    Forall (fun kv => closed_val (length h) kv.2 ∧ kv.2 ≠ VRef t) items ->
    NoDup (keys items) -> dict_get k items = Some v ->
    for_each items (fun kv => add_entry merge (VRef t) kv.1 kv.2) h
      = (Returned tt, h') ->
    ∃ pre post h1 h2 its1 its2 its',
      items = pre ++ ((k, v) :: post) ∧
      entries_post t kd its pre h h1 ∧
      h1 !! t = Some (ODict kd its1) ∧ dict_get k its1 = dict_get k its ∧
      add_entry merge (VRef t) k v h1 = (Returned tt, h2) ∧
      entry_post t k v kd its1 h1 (Returned tt) h2 ∧
      h2 !! t = Some (ODict kd its2) ∧
      entries_post t kd its2 post h2 h' ∧
      h' !! t = Some (ODict kd its') ∧ dict_get k its' = dict_get k its2.
Proof.
  intros Hm items h its h' k v Hok Ht Hp Hit Hnd Hget H.
  destruct (dict_get_split k v items Hnd Hget) as (pre & post & -> & Hpre & Hpost).
  rewrite for_each_app in H.
  apply Forall_app in Hit as [Hit1 Hit2].
  destruct (for_each pre _ h) as [[[]|e] h1] eqn:H1; [|done].
  pose proof (entries_spec merge t kd Hm pre h its _ _ Hok Ht Hp Hit1 H1) as Hpost1.
  pose proof Hpost1 as (Hok1 & Hlen1 & Hfr1 & Hg1 & Hp1 & its1 & Ht1 & Hget1).
  simpl in H. unfold bind in H.
  apply Forall_cons in Hit2 as [[Hcv Hvt] Hit2]. simpl in Hcv, Hvt.
  destruct (add_entry merge (VRef t) k v h1) as [[[]|e] h2] eqn:H2; [|done].
  pose proof (add_entry_spec merge t k v h1 _ _ kd its1 Hm Hok1 Ht1 Hp1
                (closed_val_mono _ _ _ Hlen1 Hcv) Hvt H2) as Hpost2.
  pose proof Hpost2 as (Hok2 & Hlen2 & Hfr2 & Hg2 & Hp2 & its2 & Ht2 & _).
  assert (Hit2' : Forall (fun kv => closed_val (length h2) kv.2 ∧ kv.2 ≠ VRef t) post).
  { eapply Forall_impl; [exact Hit2|]. intros kv [? ?]. split; [|done].
    eapply closed_val_mono; [|done]. lia. }
  pose proof (entries_spec merge t kd Hm post h2 its2 _ _ Hok2 Ht2 Hp2 Hit2' H) as Hpost3.
  pose proof Hpost3 as (_ & _ & _ & _ & _ & its' & Ht' & Hget').
  exists pre, post, h1, h2, its1, its2, its'. split_and!; auto.
Qed.

Lemma add_entry_list merge t k lb h kd its la ea eb :
  h !! t = Some (ODict kd its) -> dict_get k its = Some (VRef la) ->
  h !! la = Some (OList ea) -> h !! lb = Some (OList eb) ->
  add_entry merge (VRef t) k (VRef lb) h
  = match eb with
    | [] => (Raised IndexError, h)
    | x :: rest =>
        (Returned tt,
         <[t := ODict kd (dict_set k (VRef (length h)) its)]>
           (h ++ [OList (if eq_str x RESET then rest else ea ++ eb)]))
    end.
Proof.
  intros Ht Hk Hla Hlb.
  unfold add_entry, bind, py_contains, py_getitem, py_setitem, py_first,
    py_rest, py_add, alloc, isinstance_OrderedDict, isinstance_list.
  unfold dict_has.
  assert (Hlen : t < length h) by (by eapply lookup_lt_Some).
  repeat (progress (simpl; rewrite ?Ht, ?Hk, ?Hlb, ?Hla)).
  destruct eb as [|x rest]; [done|]. simpl.
  destruct (eq_str x RESET);
    repeat (progress (simpl; rewrite ?lookup_app_l, ?Ht, ?Hk, ?Hlb, ?Hla by done));
    done.
Qed.

(** The store in which the items of the second dict are entered. *)
Lemma merge_start h a ka ia b kb ib :
  heap_ok h -> h !! a = Some (ODict ka ia) -> h !! b = Some (ODict kb ib) ->
  let t := length h in
  let hs := h ++ [ODict OrderedDict ia] in
  heap_ok hs ∧ hs !! t = Some (ODict OrderedDict ia) ∧ private t hs ∧
  Forall (fun kv => closed_val (length hs) kv.2 ∧ kv.2 ≠ VRef t) ib ∧
  NoDup (keys ia) ∧ NoDup (keys ib) ∧
  (∀ x o, h !! x = Some o -> x ≠ t ∧ hs !! x = Some o).
Proof.
  intros Hok Ha Hb t hs.
  destruct (heap_ok_lookup _ _ _ Hok Ha) as [Hca Hnda].
  destruct (heap_ok_lookup _ _ _ Hok Hb) as [Hcb Hndb]. simpl in *.
  assert (Hpriv : private t h) by (by apply closed_private).
  split_and!; auto.
  - apply heap_ok_alloc; [done|]. split; [|done]. simpl.
    eapply Forall_impl; [exact Hca|]. intros x. apply closed_val_mono. lia.
  - unfold hs, t. by rewrite list_lookup_middle.
  - intros Hh. apply held_alloc in Hh as [Hh|Hh]; [by apply Hpriv|].
    apply Hpriv. eapply held_lookup; [exact Ha | exact Hh].
  - apply Forall_forall. intros kv Hkv.
    assert (Hx : kv.2 ∈ values ib) by (apply list_elem_of_fmap; eauto).
    split.
    + eapply Forall_forall in Hcb; [|exact Hx]. unfold hs. rewrite length_app. simpl.
      eapply closed_val_mono; [|exact Hcb]. lia.
    + intros E. rewrite E in Hx. apply Hpriv. eapply held_lookup; [exact Hb | exact Hx].
  - intros x o Hx. pose proof (lookup_lt_Some _ _ _ Hx). split; [unfold t; lia|].
    unfold hs. by rewrite lookup_app_l.
Qed.

Lemma frame_list (h h' : heap) (a : addr) e (S : Prop) :
  h !! a = Some (OList e) ->
  (h' !! a = Some (OList e) ∨ (h' !! a = Some (strip (OList e)) ∧ S)) ->
  h' !! a = Some (OList e).
Proof. intros _ [?|[? _]]; done. Qed.

(** Two dicts that both hold a list at key [k]: a merge that returns has
    found the incoming list non-empty and has built a new list for [k]. *)
Lemma merge_two_sequences limit h a ka ia b kb ib k la ea lb eb r h' :
  heap_ok h ->
  h !! a = Some (ODict ka ia) -> h !! b = Some (ODict kb ib) ->
  dict_get k ia = Some (VRef la) -> h !! la = Some (OList ea) ->
  dict_get k ib = Some (VRef lb) -> h !! lb = Some (OList eb) ->
  _merge_ordered_dicts limit [VRef a; VRef b] h = (Returned r, h') ->
  eb ≠ [] ∧
  ∃ items l elems,
    deref h' r = Some (ODict OrderedDict items) ∧
    dict_get k items = Some (VRef l) ∧
    h' !! l = Some (OList elems) ∧
    (head eb = Some (VStr "!reset!") -> elems = tail eb) ∧
    (head eb ≠ Some (VStr "!reset!") -> elems = ea ++ eb).
Proof.
  intros Hok Ha Hb Hka Hla Hkb Hlb H.
  destruct limit as [|n]; [done|].
  destruct (merge_start h a ka ia b kb ib Hok Ha Hb)
    as (Hoks & Hts & Hps & Hits & Hnda & Hndb & Hold).
  rewrite (merge_two _ _ _ _ _ _ _ _ Hnda Ha Hb) in H.
  destruct (for_each ib _ _) as [[[]|e] h2] eqn:Hloop; [|done].
  injection H as <- <-.
  destruct (entries_at_key _ _ _ (merge_spec_holds n) _ _ _ _ _ _
              Hoks Hts Hps Hits Hndb Hkb Hloop)
    as (pre & post & h1 & h3 & its1 & its2 & its' & -> & Hpre & Ht1 & Hk1 & Hstep
        & _ & Ht2 & Hpost & Ht' & Hk').
  destruct Hpre as (Hok1 & Hlen1 & Hfr1 & _).
  destruct (Hold _ _ Hla) as [Hlat Hlas]. destruct (Hold _ _ Hlb) as [Hlbt Hlbs].
  pose proof (frame_list _ _ _ _ _ Hlas (Hfr1 _ _ Hlat Hlas)) as Hla1.
  pose proof (frame_list _ _ _ _ _ Hlbs (Hfr1 _ _ Hlbt Hlbs)) as Hlb1.
  rewrite Hka in Hk1.
  rewrite (add_entry_list _ _ _ _ _ _ _ _ _ _ Ht1 Hk1 Hla1 Hlb1) in Hstep.
  destruct eb as [|x rest]; [done|]. injection Hstep as <-.
  assert (Htlt : length h < length h1) by (by eapply lookup_lt_Some).
  rewrite list_lookup_insert_eq in Ht2 by (rewrite length_app; lia).
  injection Ht2 as <-. rewrite dict_get_set_eq in Hk'.
  destruct Hpost as (_ & _ & Hfr3 & _).
  set (elems := if eq_str x RESET then rest else ea ++ x :: rest) in *.
  assert (Hl3 : <[length h := ODict OrderedDict (dict_set k (VRef (length h1)) its1)]>
                  (h1 ++ [OList elems]) !! length h1 = Some (OList elems)).
  { rewrite list_lookup_insert_ne by lia. by rewrite list_lookup_middle. }
  split; [done|].
  exists its', (length h1), elems. split_and!; auto.
  - eapply frame_list; [exact Hl3|]. apply Hfr3; [lia|done].
  - simpl. intros [= ->]. done.
  - simpl. intros Hx. unfold elems. destruct (eq_str x RESET) eqn:E; [|done].
    apply eq_str_true in E. by subst.
Qed.

Lemma sframe_trans t h1 h2 h3 : sframe t h1 h2 -> sframe t h2 h3 -> sframe t h1 h3.
Proof.
  intros H12 H23 b o Hb Ho. destruct (H12 b o Hb Ho) as [E|E].
  - by apply H23.
  - destruct (H23 b _ Hb E) as [?|E']; [by right|]. right. by rewrite strip_idem in E'.
Qed.

Lemma entries_sframe t kd its items h h' :
  entries_post t kd its items h h' -> sframe t h h'.
Proof.
  intros (_ & _ & Hfr & _) b o Hb Ho. destruct (Hfr b o Hb Ho) as [?|[? _]]; auto.
Qed.

Lemma entry_sframe t k v kd its h out h' :
  entry_post t k v kd its h out h' -> sframe t h h'.
Proof.
  intros (_ & _ & Hfr & _) b o Hb Ho. destruct (Hfr b o Hb Ho) as [?|[? _]]; auto.
Qed.

Lemma alloc_sframe t (h : heap) o : t = length h -> sframe t h (h ++ [o]).
Proof.
  intros -> b ob Hb Ho. left. rewrite lookup_app_l; [done|]. by eapply lookup_lt_Some.
Qed.

(** An object that none of the entered values contains is left alone. *)
Lemma entries_untouched t kd its items h0 h h' x o :
  heap_ok h0 -> private t h0 -> sframe t h0 h ->
  Forall (fun kv => closed_val (length h0) kv.2 ∧ kv.2 ≠ VRef t) items ->
  entries_post t kd its items h h' ->
  x ≠ t -> h !! x = Some o ->
  (∀ kv, kv ∈ items -> ¬ reach h0 kv.2 x) ->
  h' !! x = Some o.
Proof.
  intros Hok0 Hp0 Hsf Hit (_ & _ & Hfr & _) Hx Ho Hun.
  destruct (Hfr x o Hx Ho) as [?|[_ Hex]]; [done|].
  apply Exists_exists in Hex as (kv & Hkv & Hr).
  exfalso. apply (Hun kv Hkv).
  eapply Forall_forall in Hit as [Hc Hne]; [|exact Hkv].
  by apply (reach_mono t h0 h).
Qed.

(** The merge returned: a key that the existing tree lacks holds the incoming
    object itself, and that object is as it was. *)
Lemma new_key_returned limit h a ka ia b kb ib k sb ks items_s r h' :
  heap_ok h ->
  h !! a = Some (ODict ka ia) -> h !! b = Some (ODict kb ib) ->
  dict_get k ia = None ->
  dict_get k ib = Some (VRef sb) ->
  h !! sb = Some (ODict ks items_s) -> dict_has "!reset!" items_s = true ->
  (∀ k' v', (k', v') ∈ ib -> k' ≠ k -> ¬ reach h v' sb) ->
  _merge_ordered_dicts limit [VRef a; VRef b] h = (Returned r, h') ->
  ∃ items,
    deref h' r = Some (ODict OrderedDict items) ∧
    dict_get k items = Some (VRef sb) ∧
    h' !! sb = Some (ODict ks items_s).
Proof.
  intros Hok Ha Hb Hka Hkb Hsb Hreset Hun H.
  destruct limit as [|n]; [done|].
  destruct (merge_start h a ka ia b kb ib Hok Ha Hb)
    as (Hoks & Hts & Hps & Hits & Hnda & Hndb & Hold).
  rewrite (merge_two _ _ _ _ _ _ _ _ Hnda Ha Hb) in H.
  destruct (for_each ib _ _) as [[[]|e] h2] eqn:Hloop; [|done].
  injection H as <- <-.
  destruct (entries_at_key _ _ _ (merge_spec_holds n) _ _ _ _ _ _
              Hoks Hts Hps Hits Hndb Hkb Hloop)
    as (pre & post & h1 & h3 & its1 & its2 & its' & Eib & Hpre & Ht1 & Hk1 & Hstep
        & Hentry & Ht2 & Hpost & Ht' & Hk').
  set (t := length h) in *.
  assert (Hp : private t h) by (by apply closed_private).
  assert (Hcl : Forall (fun kv => closed_val (length h) kv.2 ∧ kv.2 ≠ VRef t) ib).
  { destruct (heap_ok_lookup _ _ _ Hok Hb) as [Hcb _]. simpl in Hcb.
    apply Forall_forall. intros kv Hkv.
    assert (Hx : kv.2 ∈ values ib) by (apply list_elem_of_fmap; eauto).
    eapply Forall_forall in Hcb; [|exact Hx]. split; [done|].
    intros E. rewrite E in Hcb. simpl in Hcb. unfold t in Hcb. lia. }
  rewrite Eib in Hcl, Hndb, Hun. apply Forall_app in Hcl as [Hcl1 Hcl2].
  apply Forall_cons in Hcl2 as [_ Hcl2].
  assert (Hkpre : ∀ kv, kv ∈ pre -> kv.1 ≠ k).
  { intros kv Hkv E. unfold keys in Hndb. rewrite fmap_app in Hndb.
    apply NoDup_app in Hndb as (_ & Hd & _). eapply (Hd k).
    - apply list_elem_of_fmap. eauto.
    - simpl. left. }
  assert (Hkpost : ∀ kv, kv ∈ post -> kv.1 ≠ k).
  { intros kv Hkv E. unfold keys in Hndb. rewrite fmap_app in Hndb.
    apply NoDup_app in Hndb as (_ & _ & Hd). simpl in Hd.
    apply NoDup_cons in Hd as [Hd _]. apply Hd. apply list_elem_of_fmap. eauto. }
  destruct (Hold _ _ Hsb) as [Hsbt Hsbs].
  assert (Hs0 : sframe t h (h ++ [ODict OrderedDict ia])) by (by apply alloc_sframe).
  (* up to key [k] *)
  assert (Hsb1 : h1 !! sb = Some (ODict ks items_s)).
  { apply (entries_untouched t _ _ pre h _ _ sb _ Hok Hp Hs0 Hcl1 Hpre Hsbt Hsbs).
    intros [k' v'] Hkv. simpl. apply (Hun k' v'); [|by apply (Hkpre (k', v'))].
    apply elem_of_app. by left. }
  (* at key [k] *)
  rewrite Hka in Hk1.
  assert (Habs : dict_has k its1 = false) by (unfold dict_has; by rewrite Hk1).
  rewrite (add_entry_absent _ _ _ _ _ _ _ Ht1 Habs) in Hstep.
  injection Hstep as <-.
  assert (Htlt : t < length h1) by (by eapply lookup_lt_Some).
  rewrite list_lookup_insert_eq in Ht2 by done. injection Ht2 as <-.
  rewrite dict_get_set_eq in Hk'.
  (* after key [k] *)
  exists its'. split_and!; auto.
  apply (entries_untouched t _ _ post h _ _ sb _ Hok Hp) with (2 := Hcl2) (3 := Hpost);
    [|done| |].
  - eapply sframe_trans; [exact Hs0|]. eapply sframe_trans.
    + exact (entries_sframe _ _ _ _ _ _ Hpre).
    + exact (entry_sframe _ _ _ _ _ _ _ _ Hentry).
  - by rewrite list_lookup_insert_ne.
  - intros [k' v'] Hkv. simpl. apply (Hun k' v'); [|by apply (Hkpost (k', v'))].
    apply elem_of_app. right. by right.
Qed.

Lemma add_entry_dict_reset merge t k sb h kd its isb :
  h !! t = Some (ODict kd its) -> dict_has k its = true -> sb ≠ t ->
  h !! sb = Some (ODict OrderedDict isb) -> dict_has RESET isb = true ->
  add_entry merge (VRef t) k (VRef sb) h
  = (Returned tt,
     <[sb := ODict OrderedDict (dict_del RESET isb)]>
       (<[t := ODict kd (dict_set k (VRef sb) its)]> h)).
Proof.
  intros Ht Hk Hne Hsb Hr.
  assert (Hlen : t < length h) by (by eapply lookup_lt_Some).
  unfold add_entry, bind, py_contains, py_getitem, py_setitem, py_delitem,
    isinstance_OrderedDict, isinstance_list.
  repeat (progress (simpl;
    rewrite ?Ht, ?Hk, ?Hsb, ?Hr, ?list_lookup_insert_eq, ?dict_get_set_eq by done;
    rewrite ?list_lookup_insert_ne by done)).
  done.
Qed.

Lemma add_entry_dict_inv merge t k sb h h3 kd its old isb :
  merge_spec merge -> heap_ok h -> h !! t = Some (ODict kd its) ->
  private t h -> sb ≠ t ->
  dict_get k its = Some old ->
  h !! sb = Some (ODict OrderedDict isb) -> dict_has RESET isb = false ->
  add_entry merge (VRef t) k (VRef sb) h = (Returned tt, h3) ->
  ∃ h2 im,
    merge [old; VRef sb] h = (Returned (VRef (length h)), h2) ∧
    h2 !! length h = Some (ODict OrderedDict im) ∧
    h2 !! t = Some (ODict kd its) ∧
    h3 = <[length h := ODict OrderedDict (dict_del RESET im)]>
           (<[t := ODict kd (dict_set k (VRef (length h)) its)]> h2).
Proof.
  intros Hm Hok Ht Hp Hne Hold Hsb Hr H.
  assert (Hlen : t < length h) by (by eapply lookup_lt_Some).
  assert (Hk : dict_has k its = true) by (unfold dict_has; by rewrite Hold).
  assert (Hcold : closed_val (length h) old).
  { apply dict_get_elem in Hold. eapply heap_ok_lookup in Ht as [Hc _]; [|done].
    eapply Forall_forall in Hc; [exact Hc|].
    apply list_elem_of_fmap. by exists (k, old). }
  assert (Hcsb : closed_val (length h) (VRef sb)) by (by eapply lookup_lt_Some).
  unfold add_entry, bind, py_contains, py_getitem, py_setitem, py_delitem,
    isinstance_OrderedDict, isinstance_list, ret in H.
  repeat (progress (simpl in H; rewrite ?Ht, ?Hk, ?Hsb, ?Hr, ?Hold in H)).
  destruct (merge [old; VRef sb] h) as [[r|e] h2] eqn:Hmr; [|done].
  eapply phase_merge in Hmr as [Hph Hres]; eauto.
  destruct (Hres r eq_refl) as (-> & Hlt & [im Him]).
  destruct Hph as (_ & _ & Heq & _).
  assert (Htn : t ≠ length h) by lia.
  rewrite Heq, Ht in H.
  repeat (progress (simpl in H;
    rewrite ?list_lookup_insert_eq, ?dict_get_set_eq in H by lia;
    rewrite ?list_lookup_insert_ne in H by done; rewrite ?Him in H)).
  exists h2, im. split_and!; [done | done | congruence |].
  destruct (dict_has RESET im) eqn:Hri.
  - repeat (progress (simpl in H;
      rewrite ?list_lookup_insert_ne in H by done; rewrite ?Him, ?Hri in H)).
    by injection H as <-.
  - injection H as <-. rewrite dict_del_absent by done.
    symmetry. apply list_insert_id. by rewrite list_lookup_insert_ne.
Qed.

(** Keys of the first dict that the second lacks keep their value. *)
Lemma merge_keeps_absent limit h a ka ia b kb ib r h' items :
  heap_ok h -> h !! a = Some (ODict ka ia) -> h !! b = Some (ODict kb ib) ->
  _merge_ordered_dicts limit [VRef a; VRef b] h = (Returned r, h') ->
  deref h' r = Some (ODict OrderedDict items) ->
  ∀ j, dict_get j ib = None -> dict_get j items = dict_get j ia.
Proof.
  intros Hok Ha Hb H Hr j Hj.
  destruct limit as [|n]; [done|].
  destruct (merge_start h a ka ia b kb ib Hok Ha Hb)
    as (Hoks & Hts & Hps & Hits & Hnda & Hndb & Hold).
  rewrite (merge_two _ _ _ _ _ _ _ _ Hnda Ha Hb) in H.
  destruct (for_each ib _ _) as [[[]|e] h2] eqn:Hloop; [|done].
  injection H as <- <-.
  apply entries_spec with (kd := OrderedDict) (its := ia) in Hloop;
    auto using merge_spec_holds.
  destruct Hloop as (_ & _ & _ & _ & _ & its' & Ht' & Hget).
  simpl in Hr. rewrite Ht' in Hr. injection Hr as <-.
  apply Hget. by apply dict_get_None.
Qed.

(** Where the loop stands when it comes to the entry of [k]. *)
Lemma entries_outcome merge t kd :
  merge_spec merge ->
  ∀ items h its out h' k v,
    heap_ok h -> h !! t = Some (ODict kd its) -> private t h ->
    Forall (fun kv => closed_val (length h) kv.2 ∧ kv.2 ≠ VRef t) items ->
    NoDup (keys items) -> dict_get k items = Some v ->
    entered merge t items h = (out, h') ->
    ∃ pre post,
      items = pre ++ (k, v) :: post ∧
      match entered merge t pre h with
      | (Raised e, h1) => out = Raised e ∧ h' = h1
      | (Returned _, h1) =>
          entries_post t kd its pre h h1 ∧
          (∃ its1, h1 !! t = Some (ODict kd its1) ∧
                   dict_get k its1 = dict_get k its) ∧
          match add_entry merge (VRef t) k v h1 with
          | (Raised e, h2) => out = Raised e ∧ h' = h2
          | (Returned _, h2) => entered merge t post h2 = (out, h')
          end
      end.
Proof.
  intros Hm items h its out h' k v Hok Ht Hp Hit Hnd Hget H.
  destruct (dict_get_split k v items Hnd Hget) as (pre & post & -> & Hpre & Hpost).
  exists pre, post. split; [done|].
  unfold entered in *. rewrite for_each_app in H.
  apply Forall_app in Hit as [Hit1 Hit2].
  destruct (for_each pre _ h) as [[[]|e] h1] eqn:H1; [|by injection H as <- <-].
  pose proof (entries_spec merge t kd Hm pre h its _ _ Hok Ht Hp Hit1 H1) as Hpost1.
  pose proof Hpost1 as (Hok1 & Hlen1 & Hfr1 & Hg1 & Hp1 & its1 & Ht1 & Hget1).
  split; [done|]. split; [exists its1; split; [done|]; by apply Hget1|].
  rewrite for_each_cons in H. simpl in H.
  destruct (add_entry merge (VRef t) k v h1) as [[[]|e] h2] eqn:H2; [done|].
  by injection H as <- <-.
Qed.

Lemma merge_two_entered limit h a b ka ia kb ib :
  NoDup (keys ia) ->
  h !! a = Some (ODict ka ia) -> h !! b = Some (ODict kb ib) ->
  _merge_ordered_dicts (S limit) [VRef a; VRef b] h
  = match entered (_merge_ordered_dicts limit) (length h) ib
            (h ++ [ODict OrderedDict ia]) with
    | (Returned _, h') => (Returned (VRef (length h)), h')
    | (Raised e, h') => (Raised e, h')
    end.
Proof. apply merge_two. Qed.

(** The merge of two dicts returned: where the loop over the incoming items
    stood at the entry of [k]. *)
Lemma merge_two_returned n h a ka ia b kb ib k v r h' :
  heap_ok h ->
  h !! a = Some (ODict ka ia) -> h !! b = Some (ODict kb ib) ->
  dict_get k ib = Some v ->
  _merge_ordered_dicts (S n) [VRef a; VRef b] h = (Returned r, h') ->
  r = VRef (length h) ∧
  ∃ pre post h1 h2 its1 its2 its',
    ib = pre ++ (k, v) :: post ∧
    entries_post (length h) OrderedDict ia pre (h ++ [ODict OrderedDict ia]) h1 ∧
    h1 !! length h = Some (ODict OrderedDict its1) ∧
    dict_get k its1 = dict_get k ia ∧
    add_entry (_merge_ordered_dicts n) (VRef (length h)) k v h1 = (Returned tt, h2) ∧
    h2 !! length h = Some (ODict OrderedDict its2) ∧
    entries_post (length h) OrderedDict its2 post h2 h' ∧
    h' !! length h = Some (ODict OrderedDict its') ∧
    dict_get k its' = dict_get k its2.
Proof.
  intros Hok Ha Hb Hkb H.
  destruct (merge_start h a ka ia b kb ib Hok Ha Hb)
    as (Hoks & Hts & Hps & Hits & Hnda & Hndb & Hold).
  rewrite (merge_two _ _ _ _ _ _ _ _ Hnda Ha Hb) in H.
  destruct (for_each ib _ _) as [[[]|e] h2] eqn:Hloop; [|done].
  injection H as <- <-. split; [done|].
  destruct (entries_at_key _ _ _ (merge_spec_holds n) _ _ _ _ _ _
              Hoks Hts Hps Hits Hndb Hkb Hloop)
    as (pre & post & h1 & h3 & its1 & its2 & its' & Eib & Hpre & Ht1 & Hk1 & Hstep
        & Hentry & Ht2 & Hpost & Ht' & Hk').
  exists pre, post, h1, h3, its1, its2, its'. split_and!; done.
Qed.

(** The merge of two dicts raised: where the loop over the incoming items
    stood at the entry of [k]. *)
Lemma merge_two_raised n h a ka ia b kb ib k v e h' :
  heap_ok h ->
  h !! a = Some (ODict ka ia) -> h !! b = Some (ODict kb ib) ->
  dict_get k ib = Some v ->
  _merge_ordered_dicts (S n) [VRef a; VRef b] h = (Raised e, h') ->
  ∃ pre post,
    ib = pre ++ (k, v) :: post ∧
    match entered (_merge_ordered_dicts n) (length h) pre
            (h ++ [ODict OrderedDict ia]) with
    | (Raised e1, h1) => e = e1 ∧ h' = h1
    | (Returned _, h1) =>
        entries_post (length h) OrderedDict ia pre (h ++ [ODict OrderedDict ia]) h1 ∧
        (∃ its1, h1 !! length h = Some (ODict OrderedDict its1) ∧
                 dict_get k its1 = dict_get k ia) ∧
        match add_entry (_merge_ordered_dicts n) (VRef (length h)) k v h1 with
        | (Raised e2, h2) => e = e2 ∧ h' = h2
        | (Returned _, h2) =>
            entered (_merge_ordered_dicts n) (length h) post h2 = (Raised e, h')
        end
    end.
Proof.
  intros Hok Ha Hb Hkb H.
  destruct (merge_start h a ka ia b kb ib Hok Ha Hb)
    as (Hoks & Hts & Hps & Hits & Hnda & Hndb & Hold).
  rewrite (merge_two_entered _ _ _ _ _ _ _ _ Hnda Ha Hb) in H.
  destruct (entered _ _ ib _) as [[[]|e'] h2] eqn:Hloop; [done|].
  injection H as -> ->.
  destruct (entries_outcome _ _ _ (merge_spec_holds n) _ _ _ _ _ _ _
              Hoks Hts Hps Hits Hndb Hkb Hloop) as (pre & post & Eib & Hcase).
  exists pre, post. split; [done|].
  destruct (entered _ _ pre _) as [[[]|e1] h1].
  - destruct Hcase as (Hpost & Hits1 & Hstep). split_and!; [done..|].
    destruct (add_entry _ _ k v h1) as [[[]|e2] h3]; [done|].
    by destruct Hstep as [[= ->] ->].
  - by destruct Hcase as [[= ->] ->].
Qed.

(** A value that is neither an [OrderedDict] nor a list is stored as it is. *)
Lemma add_entry_scalar merge t k v h kd its :
  h !! t = Some (ODict kd its) -> is_scalar v ->
  add_entry merge (VRef t) k v h
  = (Returned tt, <[t := ODict kd (dict_set k v its)]> h).
Proof.
  intros Ht Hv.
  unfold add_entry, bind, py_contains, py_setitem, isinstance_OrderedDict,
    isinstance_list.
  simpl. rewrite Ht. simpl.
  destruct v; try done; simpl; rewrite ?andb_false_r; simpl; by rewrite Ht.
Qed.

Lemma filter_ext_in {A} (P Q : A -> Prop) `{∀ x, Decision (P x)}
    `{∀ x, Decision (Q x)} (l : list A) :
  (∀ x, x ∈ l -> P x <-> Q x) -> filter P l = filter Q l.
Proof.
  induction l as [|x l IH]; intros HPQ; [done|].
  assert (Hx : P x <-> Q x) by (apply HPQ; left).
  assert (Hl : filter P l = filter Q l) by (apply IH; intros; apply HPQ; by right).
  destruct (decide (P x)) as [HP|HP].
  - rewrite !filter_cons_True by tauto. by rewrite Hl.
  - rewrite !filter_cons_False by tauto. done.
Qed.

(** The keys of the target after the loop: those it had, then the new ones in
    the order of the items. *)
Lemma entries_keys merge t kd :
  merge_spec merge ->
  ∀ items h its h',
    heap_ok h -> h !! t = Some (ODict kd its) -> private t h ->
    Forall (fun kv => closed_val (length h) kv.2 ∧ kv.2 ≠ VRef t) items ->
    NoDup (keys items) ->
    for_each items (fun kv => add_entry merge (VRef t) kv.1 kv.2) h
      = (Returned tt, h') ->
    ∃ its', h' !! t = Some (ODict kd its') ∧
            keys its' = keys its ++ filter (fun j => j ∉ keys its) (keys items).
Proof.
  intros Hm. induction items as [|[k v] rest IH];
    intros h its h' Hok Ht Hp Hit Hnd H.
  - injection H as <-. exists its. split; [done|]. simpl. by rewrite app_nil_r.
  - rewrite for_each_cons in H. simpl in H.
    apply Forall_cons in Hit as [[Hcv Hvt] Hit]. simpl in Hcv, Hvt.
    simpl in Hnd. apply NoDup_cons in Hnd as [Hk Hnd].
    destruct (add_entry merge (VRef t) k v h) as [[[]|e] h1] eqn:H1; [|done].
    pose proof (add_entry_spec merge t k v h _ _ kd its Hm Hok Ht Hp Hcv Hvt H1)
      as (Hok1 & Hlen1 & _ & _ & Hp1 & its1 & Ht1 & _ & Hset).
    destruct (Hset eq_refl) as [x ->].
    destruct (IH h1 _ h' Hok1 Ht1 Hp1) as (its' & Ht' & Hkeys); [|done|done|].
    { eapply Forall_impl; [exact Hit|]. intros kv [? ?]. split; [|done].
      eapply closed_val_mono; [|done]. lia. }
    exists its'. split; [done|]. rewrite Hkeys, keys_dict_set.
    simpl. destruct (dict_has k its) eqn:E.
    + apply dict_has_true in E. rewrite filter_cons_False by (by intros ?). done.
    + apply dict_has_false in E. rewrite filter_cons_True by done.
      rewrite <- app_assoc. simpl. do 2 f_equal.
      apply filter_ext_in. intros j Hj. split.
      * intros Hn Hin. apply Hn. apply elem_of_app. by left.
      * intros Hn Hin. apply elem_of_app in Hin as [?|Hin]; [done|].
        apply list_elem_of_singleton in Hin as ->. done.
Qed.

(** What the result of a merge of two dicts holds at a key whose incoming
    value is plain, or which the first dict lacks: the incoming value. *)
Lemma merge_two_stored limit h a ka ia b kb ib r h' items j w :
  heap_ok h -> h !! a = Some (ODict ka ia) -> h !! b = Some (ODict kb ib) ->
  _merge_ordered_dicts limit [VRef a; VRef b] h = (Returned r, h') ->
  deref h' r = Some (ODict OrderedDict items) ->
  dict_get j ib = Some w -> is_scalar w ∨ dict_get j ia = None ->
  dict_get j items = Some w.
Proof.
  intros Hok Ha Hb H Hr Hj Hcase.
  destruct limit as [|n]; [done|].
  destruct (merge_two_returned _ _ _ _ _ _ _ _ _ _ _ _ Hok Ha Hb Hj H)
    as (-> & pre & post & h1 & h2 & its1 & its2 & its' & Eib & Hpre & Ht1 & Hk1
        & Hstep & Ht2 & Hpost & Ht' & Hk').
  simpl in Hr. rewrite Ht' in Hr. injection Hr as <-.
  assert (Hset : h2 = <[length h := ODict OrderedDict (dict_set j w its1)]> h1).
  { destruct Hcase as [Hs|Hn].
    - rewrite (add_entry_scalar _ _ _ _ _ _ _ Ht1 Hs) in Hstep. by injection Hstep as <-.
    - rewrite Hn in Hk1.
      assert (Habs : dict_has j its1 = false) by (unfold dict_has; by rewrite Hk1).
      rewrite (add_entry_absent _ _ _ _ _ _ _ Ht1 Habs) in Hstep.
      by injection Hstep as <-. }
  subst h2.
  rewrite list_lookup_insert_eq in Ht2 by (by eapply lookup_lt_Some).
  injection Ht2 as <-. by rewrite dict_get_set_eq in Hk'.
Qed.

(** The keys of the result of a merge of two dicts. *)
Lemma merge_two_keys limit h a ka ia b kb ib r h' items :
  heap_ok h -> h !! a = Some (ODict ka ia) -> h !! b = Some (ODict kb ib) ->
  _merge_ordered_dicts limit [VRef a; VRef b] h = (Returned r, h') ->
  deref h' r = Some (ODict OrderedDict items) ->
  keys items = keys ia ++ filter (fun j => j ∉ keys ia) (keys ib).
Proof.
  intros Hok Ha Hb H Hr. destruct limit as [|n]; [done|].
  destruct (merge_start h a ka ia b kb ib Hok Ha Hb)
    as (Hoks & Hts & Hps & Hits & Hnda & Hndb & Hold).
  rewrite (merge_two _ _ _ _ _ _ _ _ Hnda Ha Hb) in H.
  destruct (for_each ib _ _) as [[[]|e] h2] eqn:Hloop; [|done].
  injection H as <- <-.
  destruct (entries_keys _ _ _ (merge_spec_holds n) ib _ ia h2 Hoks Hts Hps Hits Hndb Hloop)
    as (its' & Ht' & Hkeys).
  simpl in Hr. rewrite Ht' in Hr. by injection Hr as <-.
Qed.

(** C1.  Two trees that both hold a sequence at key [k] are merged.  When the
    merge returns, the incoming sequence has an element, and the result holds
    at [k] a new sequence: the incoming one without its first element when
    that element is the token ["!reset!"], and otherwise the existing sequence
    followed by the incoming one, whatever stands at its later positions.
    With an empty incoming sequence the merge does not return: [v[0]] raises
    [IndexError] where the existing sequence should have been kept.  When the
    merge raises otherwise, the recursion limit was used up or the entry of
    another key raised: the entry of [k] itself returned. *)
Theorem C1_sequence_merge limit h a ka ia b kb ib k la ea lb eb out h' :
  heap_ok h ->
  h !! a = Some (ODict ka ia) -> h !! b = Some (ODict kb ib) ->
  dict_get k ia = Some (VRef la) -> h !! la = Some (OList ea) ->
  dict_get k ib = Some (VRef lb) -> h !! lb = Some (OList eb) ->
  _merge_ordered_dicts limit [VRef a; VRef b] h = (out, h') ->
  match out with
  | Returned r =>
      eb ≠ [] ∧
      ∃ items l elems,
        deref h' r = Some (ODict OrderedDict items) ∧
        dict_get k items = Some (VRef l) ∧
        h' !! l = Some (OList elems) ∧
        (head eb = Some (VStr "!reset!") -> elems = tail eb) ∧
        (head eb ≠ Some (VStr "!reset!") -> elems = ea ++ eb)
  | Raised e =>
      (limit = 0 ∧ e = RecursionError) ∨
      (eb = [] ∧ e = IndexError) ∨
      ∃ n, limit = S n ∧
           raised_elsewhere (_merge_ordered_dicts n) (length h) k (VRef lb) ib
             (h ++ [ODict OrderedDict ia]) e h'
  end.
Proof.
  intros Hok Ha Hb Hka Hla Hkb Hlb H.
  destruct out as [r|e].
  { exact (merge_two_sequences _ _ _ _ _ _ _ _ _ _ _ _ _ _ _
             Hok Ha Hb Hka Hla Hkb Hlb H). }
  destruct limit as [|n]; [left; by injection H as <- _|].
  right.
  destruct (merge_start h a ka ia b kb ib Hok Ha Hb)
    as (Hoks & Hts & Hps & Hits & Hnda & Hndb & Hold).
  rewrite (merge_two_entered _ _ _ _ _ _ _ _ Hnda Ha Hb) in H.
  destruct (entered _ _ ib _) as [[[]|e'] h2] eqn:Hloop; [done|].
  injection H as -> ->.
  destruct (entries_outcome _ _ _ (merge_spec_holds n) _ _ _ _ _ _ _
              Hoks Hts Hps Hits Hndb Hkb Hloop) as (pre & post & Eib & Hcase).
  destruct (entered _ _ pre _) as [[[]|e1] h1] eqn:Hpre.
  - destruct Hcase as (Hpost & (its1 & Ht1 & Hk1) & Hstep).
    destruct Hpost as (Hok1 & Hlen1 & Hfr1 & _).
    destruct (Hold _ _ Hla) as [Hlat Hlas]. destruct (Hold _ _ Hlb) as [Hlbt Hlbs].
    pose proof (frame_list _ _ _ _ _ Hlas (Hfr1 _ _ Hlat Hlas)) as Hla1.
    pose proof (frame_list _ _ _ _ _ Hlbs (Hfr1 _ _ Hlbt Hlbs)) as Hlb1.
    rewrite Hka in Hk1.
    rewrite (add_entry_list _ _ _ _ _ _ _ _ _ _ Ht1 Hk1 Hla1 Hlb1) in Hstep.
    destruct eb as [|x rest].
    + left. by destruct Hstep as [[= ->] _].
    + right. exists n. split; [done|]. exists pre, post. split; [done|]. right.
      eexists _, _. split_and!; [done| |exact Hstep].
      by rewrite (add_entry_list _ _ _ _ _ _ _ _ _ _ Ht1 Hk1 Hla1 Hlb1).
  - destruct Hcase as [[= ->] ->].
    right. exists n. split; [done|]. exists pre, post. split; [done|]. by left.
Qed.

(** An object that no entry before that of [k] can reach is, when the loop
    comes to [k], as it was. *)
Lemma before_key_untouched h b kb ib ia k v pre post h1 x o :
  heap_ok h -> h !! b = Some (ODict kb ib) -> ib = pre ++ (k, v) :: post ->
  entries_post (length h) OrderedDict ia pre (h ++ [ODict OrderedDict ia]) h1 ->
  h !! x = Some o ->
  (∀ k' v', (k', v') ∈ ib -> k' ≠ k -> ¬ reach h v' x) ->
  h1 !! x = Some o.
Proof.
  intros Hok Hb Eib Hpre Hx Hun.
  set (t := length h) in *.
  assert (Hp : private t h) by (by apply closed_private).
  assert (Hndb : NoDup (keys ib)) by (by destruct (heap_ok_lookup _ _ _ Hok Hb)).
  assert (Hcl : Forall (fun kv => closed_val (length h) kv.2 ∧ kv.2 ≠ VRef t) ib).
  { destruct (heap_ok_lookup _ _ _ Hok Hb) as [Hcb _]. simpl in Hcb.
    apply Forall_forall. intros kv Hkv.
    assert (Hv : kv.2 ∈ values ib) by (apply list_elem_of_fmap; eauto).
    eapply Forall_forall in Hcb; [|exact Hv]. split; [done|].
    intros E. rewrite E in Hcb. simpl in Hcb. unfold t in Hcb. lia. }
  rewrite Eib in Hcl, Hndb, Hun. apply Forall_app in Hcl as [Hcl1 _].
  assert (Hkpre : ∀ kv, kv ∈ pre -> kv.1 ≠ k).
  { intros kv Hkv E. unfold keys in Hndb. rewrite fmap_app in Hndb.
    apply NoDup_app in Hndb as (_ & Hd & _). eapply (Hd k).
    - apply list_elem_of_fmap. eauto.
    - simpl. left. }
  assert (Hxt : x ≠ t).
  { apply lookup_lt_Some in Hx. unfold t. lia. }
  assert (Hxs : (h ++ [ODict OrderedDict ia]) !! x = Some o).
  { by apply lookup_app_l_Some. }
  assert (Hs0 : sframe t h (h ++ [ODict OrderedDict ia])) by (by apply alloc_sframe).
  apply (entries_untouched t _ _ pre h _ _ x _ Hok Hp Hs0 Hcl1 Hpre Hxt Hxs).
  intros [k' v'] Hkv. simpl. apply (Hun k' v'); [|by apply (Hkpre (k', v'))].
  apply elem_of_app. by left.
Qed.

(** The store when the loop comes to the entry of [k]: an object of the
    store the merge started in is as it was, or it has lost its ["!reset!"]
    key and is nested in the value of another key of the incoming dict. *)
Lemma before_key_frame h b kb ib ia k v pre post h1 :
  heap_ok h -> h !! b = Some (ODict kb ib) -> ib = pre ++ (k, v) :: post ->
  entries_post (length h) OrderedDict ia pre (h ++ [ODict OrderedDict ia]) h1 ->
  ∀ x o, h !! x = Some o ->
    h1 !! x = Some o ∨
    (h1 !! x = Some (strip o) ∧
     ∃ k' v', (k', v') ∈ ib ∧ k' ≠ k ∧ reach h v' x).
Proof.
  intros Hok Hb Eib Hpre x o Hx.
  set (t := length h) in *.
  assert (Hp : private t h) by (by apply closed_private).
  assert (Hndb : NoDup (keys ib)) by (by destruct (heap_ok_lookup _ _ _ Hok Hb)).
  assert (Hcl : Forall (fun kv => closed_val (length h) kv.2 ∧ kv.2 ≠ VRef t) ib).
  { destruct (heap_ok_lookup _ _ _ Hok Hb) as [Hcb _]. simpl in Hcb.
    apply Forall_forall. intros kv Hkv.
    assert (Hv : kv.2 ∈ values ib) by (apply list_elem_of_fmap; eauto).
    eapply Forall_forall in Hcb; [|exact Hv]. split; [done|].
    intros E. rewrite E in Hcb. simpl in Hcb. unfold t in Hcb. lia. }
  rewrite Eib in Hndb.
  assert (Hkpre : ∀ kv, kv ∈ pre -> kv.1 ≠ k).
  { intros kv Hkv E. unfold keys in Hndb. rewrite fmap_app in Hndb.
    apply NoDup_app in Hndb as (_ & Hd & _). eapply (Hd k).
    - apply list_elem_of_fmap. eauto.
    - simpl. left. }
  assert (Hxt : x ≠ t).
  { apply lookup_lt_Some in Hx. unfold t. lia. }
  assert (Hxs : (h ++ [ODict OrderedDict ia]) !! x = Some o).
  { by apply lookup_app_l_Some. }
  destruct Hpre as (_ & _ & Hfr & _).
  destruct (Hfr x o Hxt Hxs) as [?|[E Hex]]; [by left|right].
  split; [done|].
  apply Exists_exists in Hex as ([k' v'] & Hkv & Hr). simpl in Hr.
  assert (Hin : (k', v') ∈ ib).
  { rewrite Eib. apply elem_of_app. by left. }
  exists k', v'. split_and!; [done|by apply (Hkpre (k', v'))|].
  eapply Forall_forall in Hcl as [Hc Hne]; [|exact Hin]. simpl in Hc, Hne.
  apply (reach_mono t h (h ++ [ODict OrderedDict ia])); [done|done| |done|done|done].
  by apply alloc_sframe.
Qed.

(** Without the sentinel in the incoming sub-tree, the entry can only fail in
    the recursive call. *)
Lemma add_entry_dict_raised merge t k sb h h3 kd its old isb e :
  merge_spec merge -> heap_ok h -> h !! t = Some (ODict kd its) ->
  private t h -> sb ≠ t ->
  dict_get k its = Some old ->
  h !! sb = Some (ODict OrderedDict isb) -> dict_has RESET isb = false ->
  add_entry merge (VRef t) k (VRef sb) h = (Raised e, h3) ->
  merge [old; VRef sb] h = (Raised e, h3).
Proof.
  intros Hm Hok Ht Hp Hne Hold Hsb Hr H.
  assert (Hlen : t < length h) by (by eapply lookup_lt_Some).
  assert (Hk : dict_has k its = true) by (unfold dict_has; by rewrite Hold).
  assert (Hcold : closed_val (length h) old).
  { apply dict_get_elem in Hold. eapply heap_ok_lookup in Ht as [Hc _]; [|done].
    eapply Forall_forall in Hc; [exact Hc|].
    apply list_elem_of_fmap. by exists (k, old). }
  assert (Hcsb : closed_val (length h) (VRef sb)) by (by eapply lookup_lt_Some).
  unfold add_entry, bind, py_contains, py_getitem, py_setitem, py_delitem,
    isinstance_OrderedDict, isinstance_list, ret in H.
  repeat (progress (simpl in H; rewrite ?Ht, ?Hk, ?Hsb, ?Hr, ?Hold in H)).
  destruct (merge [old; VRef sb] h) as [[r|e'] h2] eqn:Hmr; [|by injection H as -> ->].
  eapply phase_merge in Hmr as [Hph Hres]; eauto.
  destruct (Hres r eq_refl) as (-> & Hlt & [im Him]).
  destruct Hph as (_ & _ & Heq & _).
  assert (Htn : t ≠ length h) by lia.
  rewrite Heq, Ht in H.
  repeat (progress (simpl in H;
    rewrite ?list_lookup_insert_eq, ?dict_get_set_eq in H by lia;
    rewrite ?list_lookup_insert_ne in H by done; rewrite ?Him in H)).
  destruct (dict_has RESET im) eqn:Hri.
  - repeat (progress (simpl in H;
      rewrite ?list_lookup_insert_ne in H by done; rewrite ?Him, ?Hri in H)).
    done.
  - done.
Qed.

(** C10.  A key of the incoming tree that the existing tree lacks, holding a
    nested tree [sb] with the key ["!reset!"]; [sb] is taken not to be nested
    under another key of the incoming tree as well.  When the merge returns,
    the result holds at that key the incoming object [sb] itself, and [sb]
    still has all its items, the sentinel among them.  When the merge raises,
    the recursion limit was used up or the entry of another key raised. *)
Theorem C10_new_key_keeps_sentinel limit h a ka ia b kb ib k sb ks items_s out h' :
  heap_ok h ->
  h !! a = Some (ODict ka ia) -> h !! b = Some (ODict kb ib) ->
  dict_get k ia = None ->
  dict_get k ib = Some (VRef sb) ->
  h !! sb = Some (ODict ks items_s) -> dict_has "!reset!" items_s = true ->
  (∀ k' v', (k', v') ∈ ib -> k' ≠ k -> ¬ reach h v' sb) ->
  _merge_ordered_dicts limit [VRef a; VRef b] h = (out, h') ->
  match out with
  | Returned r =>
      ∃ items,
        deref h' r = Some (ODict OrderedDict items) ∧
        dict_get k items = Some (VRef sb) ∧
        h' !! sb = Some (ODict ks items_s)
  | Raised e =>
      (limit = 0 ∧ e = RecursionError) ∨
      ∃ n, limit = S n ∧
           raised_elsewhere (_merge_ordered_dicts n) (length h) k (VRef sb) ib
             (h ++ [ODict OrderedDict ia]) e h'
  end.
Proof.
  intros Hok Ha Hb Hka Hkb Hsb Hreset Hun H.
  destruct out as [r|e].
  { by apply (new_key_returned limit h a ka ia b kb ib k sb ks items_s r h'). }
  destruct limit as [|n]; [left; by injection H as <- _|].
  right. exists n. split; [done|].
  destruct (merge_start h a ka ia b kb ib Hok Ha Hb)
    as (Hoks & Hts & Hps & Hits & Hnda & Hndb & Hold).
  rewrite (merge_two_entered _ _ _ _ _ _ _ _ Hnda Ha Hb) in H.
  destruct (entered _ _ ib _) as [[[]|e'] h2] eqn:Hloop; [done|].
  injection H as -> ->.
  destruct (entries_outcome _ _ _ (merge_spec_holds n) _ _ _ _ _ _ _
              Hoks Hts Hps Hits Hndb Hkb Hloop) as (pre & post & Eib & Hcase).
  exists pre, post. split; [done|].
  destruct (entered _ _ pre _) as [[[]|e1] h1] eqn:Hpre.
  - destruct Hcase as (Hpost & (its1 & Ht1 & Hk1) & Hstep).
    rewrite Hka in Hk1.
    assert (Habs : dict_has k its1 = false) by (unfold dict_has; by rewrite Hk1).
    rewrite (add_entry_absent _ _ _ _ _ _ _ Ht1 Habs) in Hstep.
    right. eexists _, _. split_and!; [done| |exact Hstep].
    by rewrite (add_entry_absent _ _ _ _ _ _ _ Ht1 Habs).
  - destruct Hcase as [[= ->] ->]. by left.
Qed.

(** The merge returned: what the result holds at a key under which both
    trees have a nested tree. *)
Lemma nested_merge_returned limit h a ka ia b kb ib k sa ksa isa sb isb r h' :
  heap_ok h ->
  h !! a = Some (ODict ka ia) -> h !! b = Some (ODict kb ib) ->
  dict_get k ia = Some (VRef sa) -> h !! sa = Some (ODict ksa isa) ->
  dict_get k ib = Some (VRef sb) -> h !! sb = Some (ODict OrderedDict isb) ->
  (∀ k' v', (k', v') ∈ ib -> k' ≠ k -> ¬ reach h v' sa ∧ ¬ reach h v' sb) ->
  _merge_ordered_dicts limit [VRef a; VRef b] h = (Returned r, h') ->
  ∃ items,
    deref h' r = Some (ODict OrderedDict items) ∧
    (dict_has "!reset!" isb = true ->
       dict_get k items = Some (VRef sb) ∧
       h' !! sb = Some (ODict OrderedDict (dict_del "!reset!" isb))) ∧
    (dict_has "!reset!" isb = false ->
       ∃ n h1 h2 m im,
         limit = S n ∧
         heap_ok h1 ∧
         (∀ x o, h !! x = Some o ->
            h1 !! x = Some o ∨
            (h1 !! x = Some (strip o) ∧
             ∃ k' v', (k', v') ∈ ib ∧ k' ≠ k ∧ reach h v' x)) ∧
         h1 !! sa = Some (ODict ksa isa) ∧
         h1 !! sb = Some (ODict OrderedDict isb) ∧
         _merge_ordered_dicts n [VRef sa; VRef sb] h1 = (Returned (VRef m), h2) ∧
         h2 !! m = Some (ODict OrderedDict im) ∧
         h !! m = None ∧
         dict_get k items = Some (VRef m) ∧
         h' !! m = Some (ODict OrderedDict (dict_del "!reset!" im)) ∧
         keys im = keys isa ++ filter (fun j => j ∉ keys isa) (keys isb) ∧
         (∀ j, dict_get j isb = None -> dict_get j im = dict_get j isa) ∧
         (∀ j w, dict_get j isb = Some w ->
                 is_scalar w ∨ dict_get j isa = None ->
                 dict_get j im = Some w) ∧
         (∀ j la ea lb eb,
            dict_get j isa = Some (VRef la) -> h !! la = Some (OList ea) ->
            dict_get j isb = Some (VRef lb) -> h !! lb = Some (OList eb) ->
            ∃ l elems,
              dict_get j im = Some (VRef l) ∧
              h' !! l = Some (OList elems) ∧
              (head eb = Some (VStr "!reset!") -> elems = tail eb) ∧
              (head eb ≠ Some (VStr "!reset!") -> elems = ea ++ eb))).
Proof.
  intros Hok Ha Hb Hka Hsa Hkb Hsb Hun H.
  destruct limit as [|n]; [done|].
  destruct (merge_start h a ka ia b kb ib Hok Ha Hb)
    as (Hoks & Hts & Hps & Hits & Hnda & Hndb & Hold).
  rewrite (merge_two _ _ _ _ _ _ _ _ Hnda Ha Hb) in H.
  destruct (for_each ib _ _) as [[[]|e] h2] eqn:Hloop; [|done].
  injection H as <- <-.
  destruct (entries_at_key _ _ _ (merge_spec_holds n) _ _ _ _ _ _
              Hoks Hts Hps Hits Hndb Hkb Hloop)
    as (pre & post & h1 & h3 & its1 & its2 & its' & Eib & Hpre & Ht1 & Hk1 & Hstep
        & Hentry & Ht2 & Hpost & Ht' & Hk').
  set (t := length h) in *.
  pose proof (before_key_frame h b kb ib ia k (VRef sb) pre post h1 Hok Hb Eib Hpre)
    as Hframe.
  pose proof Hpre as (Hok1 & Hlen1 & _ & _ & Hp1 & _).
  destruct (Hold _ _ Hsa) as [Hsat Hsas]. destruct (Hold _ _ Hsb) as [Hsbt Hsbs].
  assert (Hsa1 : h1 !! sa = Some (ODict ksa isa)).
  { destruct (Hframe _ _ Hsa) as [?|[_ (k' & v' & Hin & Hne & Hr)]]; [done|].
    by destruct (Hun k' v' Hin Hne). }
  assert (Hsb1 : h1 !! sb = Some (ODict OrderedDict isb)).
  { destruct (Hframe _ _ Hsb) as [?|[_ (k' & v' & Hin & Hne & Hr)]]; [done|].
    by destruct (Hun k' v' Hin Hne). }
  rewrite Hka in Hk1.
  assert (Hk1' : dict_has k its1 = true) by (unfold dict_has; by rewrite Hk1).
  assert (Htlt : t < length h1) by (by eapply lookup_lt_Some).
  pose proof (entries_sframe _ _ _ _ _ _ Hpost) as Hsf3.
  destruct Hpost as (_ & _ & Hfr3 & _).
  exists its'. split_and!; [done | |].
  - intros Hr. change "!reset!" with RESET in *.
    rewrite (add_entry_dict_reset _ _ _ _ _ _ _ _ Ht1 Hk1' Hsbt Hsb1 Hr) in Hstep.
    injection Hstep as <-.
    rewrite list_lookup_insert_ne in Ht2 by done.
    rewrite list_lookup_insert_eq in Ht2 by done. injection Ht2 as <-.
    rewrite dict_get_set_eq in Hk'. split; [done|].
    assert (Hsb3 : <[sb := ODict OrderedDict (dict_del RESET isb)]>
        (<[t := ODict OrderedDict (dict_set k (VRef sb) its1)]> h1) !! sb
        = Some (ODict OrderedDict (dict_del RESET isb))).
    { apply list_lookup_insert_eq. rewrite length_insert. by eapply lookup_lt_Some. }
    destruct (Hfr3 _ _ Hsbt Hsb3) as [?|[E _]]; [done|].
    simpl in E. by rewrite dict_del_idem in E.
  - intros Hr. change "!reset!" with RESET in *.
    destruct (add_entry_dict_inv _ _ _ _ _ _ _ _ _ _ (merge_spec_holds n)
                Hok1 Ht1 Hp1 Hsbt Hk1 Hsb1 Hr Hstep) as (h2' & im & Hmr & Him & Ht2' & ->).
    assert (Htn : t ≠ length h1) by lia.
    assert (Hlt2 : length h1 < length h2') by (by eapply lookup_lt_Some).
    rewrite list_lookup_insert_ne in Ht2 by done.
    rewrite list_lookup_insert_eq in Ht2 by lia. injection Ht2 as <-.
    rewrite dict_get_set_eq in Hk'.
    assert (Hder : deref h2' (VRef (length h1)) = Some (ODict OrderedDict im)) by done.
    exists n, h1, h2', (length h1), im. split_and!; auto.
    + apply lookup_ge_None. unfold t in Htlt. lia.
    + assert (Hm3 : <[length h1 := ODict OrderedDict (dict_del RESET im)]>
          (<[t := ODict OrderedDict (dict_set k (VRef (length h1)) its1)]> h2') !! length h1
          = Some (ODict OrderedDict (dict_del RESET im))).
      { apply list_lookup_insert_eq. by rewrite length_insert. }
      assert (Hmt : length h1 ≠ t) by lia.
      destruct (Hfr3 _ _ Hmt Hm3) as [?|[E _]]; [done|].
      simpl in E. by rewrite dict_del_idem in E.
    + eapply (merge_two_keys n h1 sa ksa isa sb OrderedDict isb); eauto.
    + eapply (merge_keeps_absent n h1 sa ksa isa sb OrderedDict isb); eauto.
    + intros j w Hj Hcase.
      eapply (merge_two_stored n h1 sa ksa isa sb OrderedDict isb); eauto.
    + intros j la ea lb eb Hja Hla Hjb Hlb.
      assert (Hla1 : h1 !! la = Some (OList ea)).
      { by destruct (Hframe _ _ Hla) as [?|[? _]]. }
      assert (Hlb1 : h1 !! lb = Some (OList eb)).
      { by destruct (Hframe _ _ Hlb) as [?|[? _]]. }
      destruct (merge_two_sequences n h1 sa ksa isa sb OrderedDict isb j la ea lb eb
                  _ h2' Hok1 Hsa1 Hsb1 Hja Hla1 Hjb Hlb1 Hmr)
        as (_ & items2 & l & elems & Hd2 & Hjl & Hl2 & Hreset & Happ).
      rewrite Hder in Hd2. injection Hd2 as <-.
      exists l, elems. split_and!; [done| |done|done].
      assert (Hlt : l ≠ t).
      { intros ->. rewrite Ht2' in Hl2. done. }
      assert (Hlm : l ≠ length h1).
      { intros ->. rewrite Him in Hl2. done. }
      assert (Hl3 : <[length h1 := ODict OrderedDict (dict_del RESET im)]>
          (<[t := ODict OrderedDict (dict_set k (VRef (length h1)) its1)]> h2') !! l
          = Some (OList elems)).
      { by rewrite !list_lookup_insert_ne by done. }
      by destruct (Hsf3 _ _ Hlt Hl3) as [?|?].
Qed.

(** C2.  Two trees that both hold a nested tree at key [k], [sa] in the
    existing and [sb] in the incoming one, neither nested under another key of
    the incoming tree as well.
    When the merge returns and [sb] has the key ["!reset!"], the result holds
    [sb] itself at [k], with that key deleted from it.
    When the merge returns and [sb] has no such key, the result holds at [k]
    a new dict [m], the one that the recursive call
    [_merge_ordered_dicts([sa, sb])] returned, with the key ["!reset!"]
    deleted from it when it had one.  The call ran in a well-formed store
    [h1] in which every object is as it was when the merge started, unless
    it is nested under another key of the incoming tree and has lost its
    sentinel.  Key by key, before that deletion: [m] has the keys of [sa] in
    their order, then the keys that only [sb] has, in the order of [sb]; a
    key that [sb] lacks holds what [sa] has; a key of [sb] whose value is
    plain, or that [sa] lacks, holds the value of [sb]; a key under which
    both hold a sequence holds a new sequence, the one of [sb] without its
    first element when that is the token ["!reset!"], and otherwise the
    sequence of [sa] followed by that of [sb].
    When the merge raises, the recursion limit was used up, or the entry of
    another key raised, or [sb] has no sentinel and the recursive call on
    [sa] and [sb] raised, in a store [h1] as above. *)
Theorem C2_nested_merge limit h a ka ia b kb ib k sa ksa isa sb isb out h' :
  heap_ok h ->
  h !! a = Some (ODict ka ia) -> h !! b = Some (ODict kb ib) ->
  dict_get k ia = Some (VRef sa) -> h !! sa = Some (ODict ksa isa) ->
  dict_get k ib = Some (VRef sb) -> h !! sb = Some (ODict OrderedDict isb) ->
  (∀ k' v', (k', v') ∈ ib -> k' ≠ k -> ¬ reach h v' sa ∧ ¬ reach h v' sb) ->
  _merge_ordered_dicts limit [VRef a; VRef b] h = (out, h') ->
  match out with
  | Returned r =>
      ∃ items,
        deref h' r = Some (ODict OrderedDict items) ∧
        (dict_has "!reset!" isb = true ->
           dict_get k items = Some (VRef sb) ∧
           h' !! sb = Some (ODict OrderedDict (dict_del "!reset!" isb))) ∧
        (dict_has "!reset!" isb = false ->
           ∃ n h1 h2 m im,
             limit = S n ∧
             heap_ok h1 ∧
             (∀ x o, h !! x = Some o ->
                h1 !! x = Some o ∨
                (h1 !! x = Some (strip o) ∧
                 ∃ k' v', (k', v') ∈ ib ∧ k' ≠ k ∧ reach h v' x)) ∧
             h1 !! sa = Some (ODict ksa isa) ∧
             h1 !! sb = Some (ODict OrderedDict isb) ∧
             _merge_ordered_dicts n [VRef sa; VRef sb] h1 = (Returned (VRef m), h2) ∧
             h2 !! m = Some (ODict OrderedDict im) ∧
             h !! m = None ∧
             dict_get k items = Some (VRef m) ∧
             h' !! m = Some (ODict OrderedDict (dict_del "!reset!" im)) ∧
             keys im = keys isa ++ filter (fun j => j ∉ keys isa) (keys isb) ∧
             (∀ j, dict_get j isb = None -> dict_get j im = dict_get j isa) ∧
             (∀ j w, dict_get j isb = Some w ->
                     is_scalar w ∨ dict_get j isa = None ->
                     dict_get j im = Some w) ∧
             (∀ j la ea lb eb,
                dict_get j isa = Some (VRef la) -> h !! la = Some (OList ea) ->
                dict_get j isb = Some (VRef lb) -> h !! lb = Some (OList eb) ->
                ∃ l elems,
                  dict_get j im = Some (VRef l) ∧
                  h' !! l = Some (OList elems) ∧
                  (head eb = Some (VStr "!reset!") -> elems = tail eb) ∧
                  (head eb ≠ Some (VStr "!reset!") -> elems = ea ++ eb)))
  | Raised e =>
      (limit = 0 ∧ e = RecursionError) ∨
      ∃ n, limit = S n ∧
        (raised_elsewhere (_merge_ordered_dicts n) (length h) k (VRef sb) ib
           (h ++ [ODict OrderedDict ia]) e h' ∨
         (dict_has "!reset!" isb = false ∧
          ∃ h1, heap_ok h1 ∧
                (∀ x o, h !! x = Some o ->
                   h1 !! x = Some o ∨
                   (h1 !! x = Some (strip o) ∧
                    ∃ k' v', (k', v') ∈ ib ∧ k' ≠ k ∧ reach h v' x)) ∧
                h1 !! sa = Some (ODict ksa isa) ∧
                h1 !! sb = Some (ODict OrderedDict isb) ∧
                _merge_ordered_dicts n [VRef sa; VRef sb] h1 = (Raised e, h')))
  end.
Proof.
  intros Hok Ha Hb Hka Hsa Hkb Hsb Hun H.
  destruct out as [r|e].
  { by apply (nested_merge_returned limit h a ka ia b kb ib k sa ksa isa sb isb r h'). }
  destruct limit as [|n]; [left; by injection H as <- _|].
  right. exists n. split; [done|].
  destruct (merge_start h a ka ia b kb ib Hok Ha Hb)
    as (Hoks & Hts & Hps & Hits & Hnda & Hndb & Hold).
  rewrite (merge_two_entered _ _ _ _ _ _ _ _ Hnda Ha Hb) in H.
  destruct (entered _ _ ib _) as [[[]|e'] h2] eqn:Hloop; [done|].
  injection H as -> ->.
  destruct (entries_outcome _ _ _ (merge_spec_holds n) _ _ _ _ _ _ _
              Hoks Hts Hps Hits Hndb Hkb Hloop) as (pre & post & Eib & Hcase).
  destruct (entered _ _ pre _) as [[[]|e1] h1] eqn:Hpre.
  - destruct Hcase as (Hpost & (its1 & Ht1 & Hk1) & Hstep).
    pose proof Hpost as (Hok1 & Hlen1 & _ & _ & Hp1 & _).
    pose proof (before_key_frame h b kb ib ia k (VRef sb) pre post h1 Hok Hb Eib Hpost)
      as Hframe.
    assert (Hsa1 : h1 !! sa = Some (ODict ksa isa)).
    { destruct (Hframe _ _ Hsa) as [?|[_ (k' & v' & Hin & Hne & Hr)]]; [done|].
      by destruct (Hun k' v' Hin Hne). }
    assert (Hsb1 : h1 !! sb = Some (ODict OrderedDict isb)).
    { destruct (Hframe _ _ Hsb) as [?|[_ (k' & v' & Hin & Hne & Hr)]]; [done|].
      by destruct (Hun k' v' Hin Hne). }
    destruct (Hold _ _ Hsb) as [Hsbt _].
    rewrite Hka in Hk1.
    assert (Hk1' : dict_has k its1 = true) by (unfold dict_has; by rewrite Hk1).
    change "!reset!" with RESET.
    destruct (dict_has RESET isb) eqn:Hr.
    + rewrite (add_entry_dict_reset _ _ _ _ _ _ _ _ Ht1 Hk1' Hsbt Hsb1 Hr) in Hstep.
      left. exists pre, post. split; [done|]. right.
      eexists _, _. split_and!; [done| |exact Hstep].
      by rewrite (add_entry_dict_reset _ _ _ _ _ _ _ _ Ht1 Hk1' Hsbt Hsb1 Hr).
    + destruct (add_entry _ (VRef (length h)) k (VRef sb) h1)
        as [[[]|e2] h3] eqn:Hadd.
      * left. exists pre, post. split; [done|]. right.
        eexists _, _. split_and!; [done|exact Hadd|exact Hstep].
      * destruct Hstep as [[= ->] ->]. right. split; [done|].
        exists h1. split_and!; [done..|].
        by apply (add_entry_dict_raised _ _ _ _ _ _ _ _ _ _ _
                    (merge_spec_holds n) Hok1 Ht1 Hp1 Hsbt Hk1 Hsb1 Hr Hadd).
  - destruct Hcase as [[= ->] ->]. left. exists pre, post. split; [done|]. by left.
Qed.

(** C3.  Two trees that both hold a sequence at key [k], the incoming one
    empty: the merge never returns.  It raises [IndexError], from [v[0]],
    unless the recursion limit was used up or the entry of a key before [k]
    raised first. *)
Theorem C3_empty_sequence_raises limit h a ka ia b kb ib k la ea lb out h' :
  heap_ok h ->
  h !! a = Some (ODict ka ia) -> h !! b = Some (ODict kb ib) ->
  dict_get k ia = Some (VRef la) -> h !! la = Some (OList ea) ->
  dict_get k ib = Some (VRef lb) -> h !! lb = Some (OList []) ->
  _merge_ordered_dicts limit [VRef a; VRef b] h = (out, h') ->
  ∃ e, out = Raised e ∧
    (e = IndexError ∨
     (limit = 0 ∧ e = RecursionError) ∨
     ∃ n pre post,
       limit = S n ∧ ib = pre ++ (k, VRef lb) :: post ∧
       entered (_merge_ordered_dicts n) (length h) pre
         (h ++ [ODict OrderedDict ia]) = (Raised e, h')).
Proof.
  intros Hok Ha Hb Hka Hla Hkb Hlb H.
  destruct limit as [|n].
  { injection H as <- _. exists RecursionError. split; [done|]. right. by left. }
  destruct (merge_start h a ka ia b kb ib Hok Ha Hb)
    as (Hoks & Hts & Hps & Hits & Hnda & Hndb & Hold).
  rewrite (merge_two_entered _ _ _ _ _ _ _ _ Hnda Ha Hb) in H.
  destruct (entered _ _ ib _) as [o h2] eqn:Hloop.
  destruct (entries_outcome _ _ _ (merge_spec_holds n) _ _ _ _ _ _ _
              Hoks Hts Hps Hits Hndb Hkb Hloop) as (pre & post & Eib & Hcase).
  destruct (entered _ _ pre _) as [[[]|e1] h1] eqn:Hpre.
  - destruct Hcase as (Hpost & (its1 & Ht1 & Hk1) & Hstep).
    destruct Hpost as (Hok1 & Hlen1 & Hfr1 & _).
    destruct (Hold _ _ Hla) as [Hlat Hlas]. destruct (Hold _ _ Hlb) as [Hlbt Hlbs].
    pose proof (frame_list _ _ _ _ _ Hlas (Hfr1 _ _ Hlat Hlas)) as Hla1.
    pose proof (frame_list _ _ _ _ _ Hlbs (Hfr1 _ _ Hlbt Hlbs)) as Hlb1.
    rewrite Hka in Hk1.
    rewrite (add_entry_list _ _ _ _ _ _ _ _ _ _ Ht1 Hk1 Hla1 Hlb1) in Hstep.
    destruct Hstep as [-> ->]. injection H as <- <-.
    exists IndexError. split; [done|]. by left.
  - destruct Hcase as [-> ->]. injection H as <- <-.
    exists e1. split; [done|]. right. right. by exists n, pre, post.
Qed.

(** ** The properties on concrete stores *)

(** C1 on [store_lists], [{a: [1,2]}] merged with [{a: ["!reset!",3]}], and on
    [store_empty], [{a: [1]}] merged with [{a: []}], where the merge raises
    [IndexError]. *)
Lemma C1_witness :
  ([VStr "!reset!"; VInt 3] ≠ [] ∧
   ∃ items l elems,
     deref (_merge_ordered_dicts 5 [VRef 1; VRef 3] store_lists).2 (VRef 4)
       = Some (ODict OrderedDict items) ∧
     dict_get "a" items = Some (VRef l) ∧
     (_merge_ordered_dicts 5 [VRef 1; VRef 3] store_lists).2 !! l
       = Some (OList elems) ∧
     (head [VStr "!reset!"; VInt 3] = Some (VStr "!reset!") ->
        elems = tail [VStr "!reset!"; VInt 3]) ∧
     (head [VStr "!reset!"; VInt 3] ≠ Some (VStr "!reset!") ->
        elems = [VInt 1; VInt 2] ++ [VStr "!reset!"; VInt 3])) ∧
  ((_merge_ordered_dicts 5 [VRef 1; VRef 3] store_empty).1 = Raised IndexError ∧
   ((5 = 0 ∧ IndexError = RecursionError) ∨
    (@nil value = [] ∧ IndexError = IndexError) ∨
    ∃ n, 5 = S n ∧
         raised_elsewhere (_merge_ordered_dicts n) (length store_empty) "a" (VRef 2)
           [("a", VRef 2)] (store_empty ++ [ODict OrderedDict [("a", VRef 0)]])
           IndexError (_merge_ordered_dicts 5 [VRef 1; VRef 3] store_empty).2)).
Proof.
  split.
  - apply (C1_sequence_merge 5 store_lists
             1 OrderedDict [("a", VRef 0)] 3 OrderedDict [("a", VRef 2)]
             "a" 0 [VInt 1; VInt 2] 2 [VStr "!reset!"; VInt 3]
             (Returned (VRef 4))).
    + compute_done.
    + reflexivity.
    + reflexivity.
    + reflexivity.
    + reflexivity.
    + reflexivity.
    + reflexivity.
    + vm_compute. reflexivity.
  - split; [vm_compute; reflexivity|].
    apply (C1_sequence_merge 5 store_empty
             1 OrderedDict [("a", VRef 0)] 3 OrderedDict [("a", VRef 2)]
             "a" 0 [VInt 1] 2 [] (Raised IndexError)).
    + compute_done.
    + reflexivity.
    + reflexivity.
    + reflexivity.
    + reflexivity.
    + reflexivity.
    + reflexivity.
    + vm_compute. reflexivity.
Defined.

(** C2 on [store_nested]: [{a: {x:1,y:2}}] merged with [{a: {y:3}}] gives
    [{a: {x:1,y:3}}]. *)
Lemma C2_witness :
  ∃ items m,
    deref (_merge_ordered_dicts 5 [VRef 1; VRef 3] store_nested).2 (VRef 4)
      = Some (ODict OrderedDict items) ∧
    dict_get "a" items = Some (VRef m) ∧
    (_merge_ordered_dicts 5 [VRef 1; VRef 3] store_nested).2 !! m
      = Some (ODict OrderedDict [("x", VInt 1); ("y", VInt 3)]).
Proof.
  destruct (C2_nested_merge 5 store_nested
              1 OrderedDict [("a", VRef 0)] 3 OrderedDict [("a", VRef 2)]
              "a" 0 OrderedDict [("x", VInt 1); ("y", VInt 2)]
              2 [("y", VInt 3)] (Returned (VRef 4))
              (_merge_ordered_dicts 5 [VRef 1; VRef 3] store_nested).2)
    as (items & Hres & _ & Hmerge).
  - compute_done.
  - reflexivity.
  - reflexivity.
  - reflexivity.
  - reflexivity.
  - reflexivity.
  - reflexivity.
  - intros k' v' Hin Hne. apply list_elem_of_singleton in Hin. by injection Hin as -> _.
  - vm_compute. reflexivity.
  - destruct (Hmerge eq_refl)
      as (n & h1 & h2 & m & im & _ & _ & _ & _ & _ & _ & _ & _ & Hk & Hm & Hkeys
          & Hkeep & Hnew & _).
    exists items, m. split_and!; [exact Hres | exact Hk |].
    rewrite Hm. do 2 f_equal.
    pose proof (Hkeep "x" eq_refl) as Hx.
    pose proof (Hnew "y" (VInt 3) eq_refl (or_introl I)) as Hy.
    destruct im as [|[k1 v1] [|[k2 v2] [|? ?]]]; try discriminate Hkeys.
    injection Hkeys as -> ->.
    injection Hx as ->. injection Hy as ->. reflexivity.
Defined.

(** C10 on [store_new_key]: the key [a] is new and its dict keeps the
    sentinel. *)
Lemma C10_witness :
  ∃ items,
    deref (_merge_ordered_dicts 5 [VRef 0; VRef 2] store_new_key).2 (VRef 3)
      = Some (ODict OrderedDict items) ∧
    dict_get "a" items = Some (VRef 1) ∧
    (_merge_ordered_dicts 5 [VRef 0; VRef 2] store_new_key).2 !! 1
      = Some (ODict OrderedDict [("!reset!", VBool true); ("z", VInt 9)]).
Proof.
  apply (C10_new_key_keeps_sentinel 5 store_new_key
           0 OrderedDict [("b", VInt 1)]
           2 OrderedDict [("a", VRef 1); ("c", VInt 2)]
           "a" 1 OrderedDict [("!reset!", VBool true); ("z", VInt 9)]
           (Returned (VRef 3))).
  - compute_done.
  - reflexivity.
  - reflexivity.
  - reflexivity.
  - reflexivity.
  - reflexivity.
  - reflexivity.
  - intros k' v' Hin Hne Hr.
    apply elem_of_cons in Hin as [Hin|Hin]; [by injection Hin as -> _|].
    apply list_elem_of_singleton in Hin. injection Hin as -> ->. inversion Hr.
  - vm_compute. reflexivity.
Defined.

(** The failing input of C3: [{a: [1]}] merged with [{a: []}]. *)
Example merge_empty_sequence :
  merge_trees 10 [od [("a", TList [TInt 1])]; od [("a", TList [])]]
  = Raised IndexError.
Proof. reflexivity. Qed.

(** C3 on [store_empty]. *)
Lemma C3_witness :
  ∃ e, (_merge_ordered_dicts 5 [VRef 1; VRef 3] store_empty).1 = Raised e ∧
    (e = IndexError ∨
     (5 = 0 ∧ e = RecursionError) ∨
     ∃ n pre post,
       5 = S n ∧ [("a", VRef 2)] = pre ++ ("a", VRef 2) :: post ∧
       entered (_merge_ordered_dicts n) 4 pre
         (store_empty ++ [ODict OrderedDict [("a", VRef 0)]])
       = (Raised e, (_merge_ordered_dicts 5 [VRef 1; VRef 3] store_empty).2)).
Proof.
  apply (C3_empty_sequence_raises 5 store_empty
           1 OrderedDict [("a", VRef 0)] 3 OrderedDict [("a", VRef 2)]
           "a" 0 [VInt 1] 2).
  - compute_done.
  - reflexivity.
  - reflexivity.
  - reflexivity.
  - reflexivity.
  - reflexivity.
  - reflexivity.
  - vm_compute. reflexivity.
Defined.

(** C4, as the code has it.  Merging the incoming tree alone, nothing existing
    before it: the result is a new [OrderedDict] with the items of the
    incoming one, the same values under the same keys in the same order, so
    that a nested list or dict of the incoming tree is also the one of the
    result; the store is otherwise as it was. *)
Theorem C4_merge_is_shallow_copy limit h b kind items :
  heap_ok h -> h !! b = Some (ODict kind items) ->
  _merge_ordered_dicts (S limit) [VRef b] h
  = (Returned (VRef (length h)), h ++ [ODict OrderedDict items]).
Proof.
  intros Hok Hb. apply (merge_one limit h b kind items); [|done].
  by destruct (heap_ok_lookup _ _ _ Hok Hb).
Qed.

(** C4 on [store_nested]: the copy of [{a: {y:3}}] holds the same inner
    dict. *)
Lemma C4_witness :
  _merge_ordered_dicts 5 [VRef 3] store_nested
  = (Returned (VRef 4), store_nested ++ [ODict OrderedDict [("a", VRef 2)]]).
Proof.
  apply (C4_merge_is_shallow_copy 4 store_nested 3 OrderedDict [("a", VRef 2)]).
  - compute_done.
  - reflexivity.
Defined.

Example mutate_result_changes_incoming :
  mutate_result_of_merge (od [("a", od [("x", TInt 1)])])
  = Returned (Some (od [("a", od [("x", TInt 2)])])).
Proof. reflexivity. Qed.

(** C4, as the specification words it, fails: after a change made through
    the result the incoming tree no longer reads as it did. *)
Lemma C4_counterexample :
  mutate_result_of_merge (od [("a", od [("x", TInt 1)])])
  ≠ Returned (Some (od [("a", od [("x", TInt 1)])])).
Proof. vm_compute. discriminate. Qed.

(** C5, as the code has it.  Of the objects in the store before a merge of
    two trees, the merge changes only dicts nested in the incoming tree, and
    those only by deleting their ["!reset!"] key: the existing tree, every
    list and the top-level dict of the incoming tree are as they were. *)
Theorem C5_merge_only_deletes_sentinels limit h a b out h' :
  heap_ok h -> closed_val (length h) a -> closed_val (length h) b ->
  _merge_ordered_dicts limit [a; b] h = (out, h') ->
  ∀ x o, h !! x = Some o ->
    h' !! x = Some o ∨ (below h b x ∧ h' !! x = Some (strip o)).
Proof.
  intros Hok Ha Hb H x o Hx.
  destruct (merge_spec_holds limit [a; b] h out h' Hok) as (_ & _ & Hfr & _);
    [by repeat constructor | done |].
  destruct (Hfr x o Hx) as [?|[? Hex]]; [by left|right]. split; [|done].
  simpl in Hex. apply Exists_cons in Hex as [?|Hex]; [done|].
  by apply Exists_nil in Hex.
Qed.

(** C5 on [store_reset]: the inner dict of the incoming tree has lost its
    sentinel, and it is nested in the incoming tree. *)
Lemma C5_witness :
  (_merge_ordered_dicts 5 [VRef 1; VRef 3] store_reset).2 !! 2
    = Some (ODict OrderedDict [("!reset!", VBool true); ("z", VInt 9)]) ∨
  (below store_reset (VRef 3) 2 ∧
   (_merge_ordered_dicts 5 [VRef 1; VRef 3] store_reset).2 !! 2
     = Some (strip (ODict OrderedDict [("!reset!", VBool true); ("z", VInt 9)]))).
Proof.
  apply (C5_merge_only_deletes_sentinels 5 store_reset (VRef 1) (VRef 3)
           (_merge_ordered_dicts 5 [VRef 1; VRef 3] store_reset).1).
  - compute_done.
  - simpl. lia.
  - simpl. lia.
  - vm_compute. reflexivity.
  - reflexivity.
Defined.

Example merge_strips_incoming :
  layers_after 10 [od [("a", od [("x", TInt 1)])];
                   od [("a", od [("!reset!", TBool true); ("z", TInt 9)])]]
  = Returned [Some (od [("a", od [("x", TInt 1)])]);
              Some (od [("a", od [("z", TInt 9)])])].
Proof. reflexivity. Qed.

(** C5, as the specification words it, fails: after the merge the second
    layer no longer reads as it did. *)
Lemma C5_counterexample :
  layers_after 10 [od [("a", od [("x", TInt 1)])];
                   od [("a", od [("!reset!", TBool true); ("z", TInt 9)])]]
  ≠ Returned [Some (od [("a", od [("x", TInt 1)])]);
              Some (od [("a", od [("!reset!", TBool true); ("z", TInt 9)])])].
Proof. vm_compute. discriminate. Qed.

(** ** The section renderers *)

Lemma append_assoc (a b c : string) : (a +:+ b) +:+ c = a +:+ b +:+ c.
Proof.
  induction a as [|x a IH]; [done|].
  change (String x ((a +:+ b) +:+ c) = String x (a +:+ b +:+ c)). by rewrite IH.
Qed.

Lemma append_nil_r (a : string) : a +:+ "" = a.
Proof.
  induction a as [|x a IH]; [done|].
  change (String x (a +:+ "") = String x a). by rewrite IH.
Qed.

Lemma concat_empty_cons x l : String.concat "" (x :: l) = x +:+ String.concat "" l.
Proof. destruct l; simpl; [by rewrite append_nil_r | done]. Qed.

Lemma run_getitem h a kd its k x :
  h !! a = Some (ODict kd its) -> dict_get k its = Some x ->
  py_getitem (VRef a) k h = (Returned x, h).
Proof. intros Ha Hk. unfold py_getitem. simpl. by rewrite Ha, Hk. Qed.

Lemma getitem_inv v k h x h' :
  py_getitem v k h = (Returned x, h') ->
  h' = h ∧ ∃ a kd its, v = VRef a ∧ h !! a = Some (ODict kd its) ∧
                       dict_get k its = Some x.
Proof.
  unfold py_getitem. intros H.
  destruct v as [| | | | |a]; try done. simpl in H.
  destruct (h !! a) as [[kd its|]|] eqn:Ha; try done.
  destruct (dict_get k its) eqn:Hk; [|done]. injection H as <- <-.
  split; [done|]. by exists a, kd, its.
Qed.

Lemma setitem_inv v k x h h' :
  py_setitem v k x h = (Returned tt, h') ->
  ∃ a kd its, v = VRef a ∧ h !! a = Some (ODict kd its) ∧
              h' = <[a := ODict kd (dict_set k x its)]> h.
Proof.
  unfold py_setitem. intros H. destruct v as [| | | | |a]; try done.
  destruct (h !! a) as [[kd its|]|] eqn:Ha; try done. injection H as <-.
  by exists a, kd, its.
Qed.

Lemma dict_set_idem k x its : dict_set k x (dict_set k x its) = dict_set k x its.
Proof.
  induction its as [|[k' v'] rest IH]; simpl.
  - by rewrite String.eqb_refl.
  - destruct (String.eqb k k') eqn:E; simpl; rewrite E; [done|]. by rewrite IH.
Qed.

Lemma insert_by_key_elem x kv l : x ∈ insert_by_key kv l -> x = kv ∨ x ∈ l.
Proof.
  induction l as [|y l IH]; simpl.
  - intros H. apply list_elem_of_singleton in H. by left.
  - destruct (String.leb y.1 kv.1); intros H.
    + apply elem_of_cons in H as [->|H]; [right; left|].
      destruct (IH H); [by left | right; by right].
    + apply elem_of_cons in H as [->|H]; [by left | by right].
Qed.

Lemma sorted_by_key_elem x items : x ∈ sorted_by_key items -> x ∈ items.
Proof.
  unfold sorted_by_key.
  assert (Hgen : ∀ acc, x ∈ foldl (fun acc kv => insert_by_key kv acc) acc items ->
                        x ∈ acc ∨ x ∈ items).
  { induction items as [|kv items IH]; intros acc H; simpl in H; [by left|].
    destruct (IH _ H) as [Hx|Hx]; [|right; by right].
    apply insert_by_key_elem in Hx as [->|Hx]; [right; left | by left]. }
  intros H. destruct (Hgen [] H) as [Hx|Hx]; [|done]. by apply elem_of_nil in Hx.
Qed.

Lemma definition_text_ext fmt fmt' items :
  (∀ kv, kv ∈ items -> fmt kv.2 = fmt' kv.2) ->
  definition_text fmt items = definition_text fmt' items.
Proof.
  intros H. unfold definition_text. do 5 f_equal. f_equal.
  apply map_ext_in. intros kv Hkv. rewrite H; [done|].
  apply sorted_by_key_elem. by apply list_elem_of_In.
Qed.

Lemma map_m_cons {A B} (g : A -> M B) x l :
  map_m g (x :: l)
  = (let* y := g x in let* ys := map_m g l in ret (y :: ys)).
Proof. reflexivity. Qed.

Lemma map_m_pure {A B} (g : A -> M B) (p : A -> B) h :
  (∀ x, g x h = (Returned (p x), h)) ->
  ∀ l, map_m g l h = (Returned (map p l), h).
Proof.
  intros Hg. induction l as [|x l IH]; [done|].
  rewrite map_m_cons. unfold bind at 1. rewrite Hg.
  unfold bind at 1. by rewrite IH.
Qed.

Section RenderingFacts.

Variable repr_obj : heap -> addr -> string.

Lemma fill_default_present f kf bits n h :
  h !! f = Some (ODict kf bits) -> dict_has (str_of_nat n) bits = true ->
  fill_default (VRef f) n h = (Returned tt, h).
Proof.
  intros Hf Hn. unfold fill_default, bind, py_contains. by rewrite Hf, Hn.
Qed.

Lemma fill_default_absent f kf bits n h :
  h !! f = Some (ODict kf bits) -> dict_has (str_of_nat n) bits = false ->
  fill_default (VRef f) n h
  = (Returned tt,
     <[f := ODict kf (dict_set (str_of_nat n) (VRef (length h)) bits)]>
       (h ++ [placeholder])).
Proof.
  intros Hf Hn. unfold fill_default, bind, py_contains, alloc, py_setitem.
  rewrite Hf, Hn. rewrite lookup_app_l by (by eapply lookup_lt_Some).
  by rewrite Hf.
Qed.

(** The default fill: every index gets an entry, an entry that was there
    stays, one that is added is a new placeholder record. *)
Lemma fill_loop f kf :
  ∀ ns h bits,
    h !! f = Some (ODict kf bits) ->
    ∃ hf bits_f,
      for_each ns (fill_default (VRef f)) h = (Returned tt, hf) ∧
      hf !! f = Some (ODict kf bits_f) ∧
      length h ≤ length hf ∧
      (∀ a, a ≠ f -> a < length h -> hf !! a = h !! a) ∧
      (∀ n, n ∈ ns -> dict_has (str_of_nat n) bits_f = true) ∧
      (∀ j, dict_get j bits_f = dict_get j bits ∨
            (dict_get j bits = None ∧ j ∈ map str_of_nat ns ∧
             ∃ a, length h ≤ a ∧ dict_get j bits_f = Some (VRef a) ∧
                  hf !! a = Some placeholder)).
Proof.
  induction ns as [|n ns IH]; intros h bits Hf.
  - exists h, bits. split_and!; auto. intros n Hn. by apply elem_of_nil in Hn.
  - assert (Hlt : f < length h) by (by eapply lookup_lt_Some).
    simpl. unfold bind at 1.
    destruct (dict_has (str_of_nat n) bits) eqn:Hn.
    + rewrite (fill_default_present _ _ _ _ _ Hf Hn).
      destruct (IH h bits Hf) as (hf & bits_f & Hrun & Hff & Hlen & Hfr & Hall & Hq).
      exists hf, bits_f. split_and!; auto.
      * intros m Hm. apply elem_of_cons in Hm as [->|Hm]; [|auto].
        destruct (Hq (str_of_nat n)) as [E|(E & _)].
        -- unfold dict_has in *. by rewrite E.
        -- unfold dict_has in Hn. by rewrite E in Hn.
      * intros j. destruct (Hq j) as [E|(E & Hin & Ha)]; [by left|right].
        split_and!; auto. simpl. by right.
    + rewrite (fill_default_absent _ _ _ _ _ Hf Hn).
      set (h1 := <[f := ODict kf (dict_set (str_of_nat n) (VRef (length h)) bits)]>
                   (h ++ [placeholder])).
      assert (Hf1 : h1 !! f = Some (ODict kf (dict_set (str_of_nat n) (VRef (length h)) bits))).
      { unfold h1. apply list_lookup_insert_eq. rewrite length_app. lia. }
      assert (Hlen1 : length h1 = S (length h)).
      { unfold h1. rewrite length_insert, length_app. simpl. lia. }
      destruct (IH h1 _ Hf1) as (hf & bits_f & Hrun & Hff & Hlen & Hfr & Hall & Hq).
      exists hf, bits_f. split_and!; auto; [lia | | |].
      * intros a Ha Hal. rewrite Hfr by (done || lia). unfold h1.
        rewrite list_lookup_insert_ne by done. by rewrite lookup_app_l.
      * intros m Hm. apply elem_of_cons in Hm as [->|Hm]; [|auto].
        destruct (Hq (str_of_nat n)) as [E|(E & _)].
        -- unfold dict_has. by rewrite E, dict_get_set_eq.
        -- by rewrite dict_get_set_eq in E.
      * intros j. destruct (String.eqb_spec j (str_of_nat n)) as [->|Hj].
        -- right. unfold dict_has in Hn.
           destruct (dict_get (str_of_nat n) bits) eqn:E; [done|].
           split_and!; [done | simpl; by left |].
           exists (length h). split; [done|].
           destruct (Hq (str_of_nat n)) as [E'|(E' & _)];
             [|by rewrite dict_get_set_eq in E'].
           rewrite E', dict_get_set_eq. split; [done|].
           rewrite Hfr by lia. unfold h1.
           rewrite list_lookup_insert_ne by lia. by rewrite list_lookup_middle.
        -- destruct (Hq j) as [E|(E & Hin & a & Hal & Hget & Hpl)].
           ++ left. by rewrite E, dict_get_set_ne.
           ++ right. rewrite dict_get_set_ne in E by done.
              split_and!; [done | simpl; by right |].
              exists a. split_and!; auto. lia.
Qed.

Lemma bit_names_run f kf bits h (nm : nat -> string) (dv : nat -> value) :
  h !! f = Some (ODict kf bits) ->
  ∀ ns, (∀ n, n ∈ ns -> bit_record h bits n (nm n) (dv n)) ->
  map_m (bit_name (VRef f)) ns h
  = (Returned (map (fun n => VStr (nm n)) ns), h).
Proof.
  intros Hf. induction ns as [|n ns IH]; intros Hall; [done|].
  destruct (Hall n) as (b & kb & ib & Hb & Hib & Hname & _); [left|].
  rewrite map_m_cons. unfold bind at 1, bit_name at 1. unfold bind at 1.
  rewrite (run_getitem _ _ _ _ _ _ Hf Hb).
  rewrite (run_getitem _ _ _ _ _ _ Hib Hname).
  unfold bind at 1. rewrite IH; [done|]. intros m Hm. apply Hall. by right.
Qed.

Lemma strings_of_names (nm : nat -> string) ns :
  strings_of (map (fun n => VStr (nm n)) ns) = Some (map nm ns).
Proof. induction ns as [|n ns IH]; simpl; [done|]. by rewrite IH. Qed.

Lemma bit_descriptions_run f kf bits h (nm : nat -> string) (dv : nat -> value) :
  h !! f = Some (ODict kf bits) ->
  ∀ ns acc, (∀ n, n ∈ ns -> bit_record h bits n (nm n) (dv n)) ->
  bit_descriptions repr_obj (VRef f) ns acc h
  = (Returned (acc +:+ String.concat "" (map (bullet repr_obj h nm dv) ns)), h).
Proof.
  intros Hf. induction ns as [|n ns IH]; intros acc Hall.
  - simpl. by rewrite append_nil_r.
  - destruct (Hall n) as (b & kb & ib & Hb & Hib & Hname & Hdesc); [left|].
    assert (Hrest : ∀ m, m ∈ ns -> bit_record h bits m (nm m) (dv m)).
    { intros m Hm. apply Hall. by right. }
    rewrite map_cons, concat_empty_cons.
    simpl. unfold bind at 1. rewrite (run_getitem _ _ _ _ _ _ Hf Hb).
    unfold bind at 1. rewrite (run_getitem _ _ _ _ _ _ Hib Hname).
    unfold bullet at 1. simpl. destruct (String.eqb_spec (nm n) "-") as [E|E]; simpl.
    + by rewrite IH.
    + unfold bind at 1. rewrite (run_getitem _ _ _ _ _ _ Hib (Hdesc E)).
      unfold bind at 1, format. rewrite IH by done.
      by rewrite !append_assoc.
Qed.

(** What the fill leaves of the objects that were there. *)
Lemma fill_keeps f kf bits h :
  h !! f = Some (ODict kf bits) ->
  ∃ hf bits_f,
    fill_defaults (VRef f) h = (Returned tt, hf) ∧
    hf !! f = Some (ODict kf bits_f) ∧
    (∀ a, a ≠ f -> a < length h -> hf !! a = h !! a) ∧
    (∀ n, n ∈ bits_up -> dict_has (str_of_nat n) bits_f = true) ∧
    (∀ j x, dict_get j bits = Some x -> dict_get j bits_f = Some x) ∧
    (∀ j, j ∉ bit_keys -> dict_get j bits_f = dict_get j bits) ∧
    (∀ j, dict_get j bits = None -> j ∈ bit_keys ->
          ∃ a, h !! a = None ∧ dict_get j bits_f = Some (VRef a) ∧
               hf !! a = Some placeholder) ∧
    (∀ a kd its, h !! a = Some (ODict kd its) ->
       ∃ its', hf !! a = Some (ODict kd its') ∧
               ∀ j, j ∉ bit_keys -> dict_get j its' = dict_get j its).
Proof.
  intros Hf.
  destruct (fill_loop f kf bits_up h bits Hf)
    as (hf & bits_f & Hrun & Hff & Hlen & Hfr & Hall & Hq).
  assert (Hother : ∀ j, j ∉ bit_keys -> dict_get j bits_f = dict_get j bits).
  { intros j Hj. destruct (Hq j) as [?|(_ & Hin & _)]; [done|].
    exfalso. apply Hj. by apply list_elem_of_In. }
  exists hf, bits_f. split_and!; auto.
  - intros j x Hj. destruct (Hq j) as [E|(E & _)]; congruence.
  - intros j Hj Hin. destruct (Hq j) as [E|(_ & _ & a & Hal & Hget & Hpl)].
    + apply list_elem_of_fmap in Hin as (n & -> & Hn).
      apply Hall in Hn. unfold dict_has in Hn. by rewrite E, Hj in Hn.
    + exists a. split_and!; auto. apply lookup_ge_None. lia.
  - intros a kd its Ha. destruct (decide (a = f)) as [->|Hne].
    + rewrite Hf in Ha. injection Ha as <- <-. eauto.
    + exists its. split; [|done]. rewrite Hfr; [done..|]. by eapply lookup_lt_Some.
Qed.

Ltac not_bit_key :=
  let H := fresh in
  intros H; unfold bit_keys in H; simpl in H;
  repeat (apply elem_of_cons in H as [H|H]; [discriminate H|]);
  by apply elem_of_nil in H.

Lemma response_flags_run h o ko io rf krf irf f kf bits d kd idoc
    (nm : nat -> string) (dv : nat -> value) :
  h !! o = Some (ODict ko io) ->
  dict_get "response_flags" io = Some (VRef rf) -> h !! rf = Some (ODict krf irf) ->
  dict_get "bits" irf = Some (VRef f) -> h !! f = Some (ODict kf bits) ->
  dict_get "documentation" io = Some (VRef d) -> h !! d = Some (ODict kd idoc) ->
  (∀ n, n ∈ bits_up ->
     match dict_get (str_of_nat n) bits with
     | Some x => bit_record h bits n (nm n) (dv n)
     | None => nm n = "-"
     end) ->
  ∃ hf bits_f idoc_f,
    hf !! f = Some (ODict kf bits_f) ∧
    (∀ j x, dict_get j bits = Some x -> dict_get j bits_f = Some x) ∧
    (∀ n, n ∈ bits_up -> dict_get (str_of_nat n) bits = None ->
       ∃ a, h !! a = None ∧ dict_get (str_of_nat n) bits_f = Some (VRef a) ∧
            hf !! a = Some placeholder) ∧
    hf !! d = Some (ODict kd idoc_f) ∧
    (∀ j, j ∉ bit_keys -> dict_get j idoc_f = dict_get j idoc) ∧
    _update_response_flags repr_obj (VRef o) h
    = (Returned tt,
       <[d := ODict kd (dict_set "!response_flags!"
                          (VStr (flags_table repr_obj hf nm dv)) idoc_f)]> hf).
Proof.
  intros Ho Hrf Hrfo Hbits Hf Hdoc Hd Hrec.
  destruct (fill_keeps f kf bits h Hf)
    as (hf & bits_f & Hfill & Hff & Hfr & Hall & Hkeep & Hother & Hnew & Hobj).
  destruct (Hobj _ _ _ Hd) as (idoc_f & Hdf & Hdocf).
  destruct (Hobj _ _ _ Ho) as (io_f & Hof & Hiof).
  exists hf, bits_f, idoc_f. split_and!; auto.
  { intros n Hn Hnone. apply Hnew; [done|]. by apply list_elem_of_fmap_2. }
  assert (Hview : ∀ n, n ∈ bits_down -> bit_record hf bits_f n (nm n) (dv n)).
  { intros n Hn. assert (Hn' : n ∈ bits_up).
    { unfold bits_down in Hn.
      repeat (apply elem_of_cons in Hn as [->|Hn]; [compute_done|]).
      by apply elem_of_nil in Hn. }
    specialize (Hrec n Hn'). destruct (dict_get (str_of_nat n) bits) as [x|] eqn:E.
    - destruct Hrec as (b & kb & ib & Hb & Hib & Hname & Hdesc).
      destruct (Hobj _ _ _ Hib) as (ib' & Hib' & Hsame).
      exists b, kb, ib'. split_and!; auto.
      + rewrite Hsame; [done|not_bit_key].
      + intros Hne. rewrite Hsame; [auto|not_bit_key].
    - destruct (Hnew (str_of_nat n) E) as (a & _ & Hget & Hpl);
        [by apply list_elem_of_fmap_2|].
      exists a, PlainDict, [("name", VStr "-"); ("description", VStr "-")].
      rewrite Hrec. split_and!; auto. done. }
  unfold _update_response_flags.
  unfold bind at 1. rewrite (run_getitem _ _ _ _ _ _ Ho Hrf).
  unfold bind at 1. rewrite (run_getitem _ _ _ _ _ _ Hrfo Hbits).
  unfold bind at 1. rewrite Hfill.
  unfold bind at 1, bit_names.
  rewrite (bit_names_run f kf bits_f hf nm dv Hff bits_down Hview).
  unfold bind at 1, py_join. rewrite strings_of_names. unfold ret at 1.
  unfold bind at 1.
  rewrite (bit_descriptions_run f kf bits_f hf nm dv Hff bits_down "" Hview).
  unfold bind at 1.
  rewrite (run_getitem hf o ko io_f "documentation" (VRef d) Hof);
    [|rewrite Hiof; [done|not_bit_key]].
  unfold py_setitem. rewrite Hdf. do 4 f_equal.
  unfold flags_table, bits_down. rewrite !append_assoc. reflexivity.
Qed.

(** *** Running a renderer twice *)

(** What Python prints for an object depends on the object and its parts
    only. *)
Hypothesis repr_obj_local :
  ∀ h h' a,
    (∀ x, reachable h (VRef a) x -> h' !! x = h !! x) ->
    repr_obj h' a = repr_obj h a.

Lemma py_str_local h h' v :
  (∀ x, reachable h v x -> h' !! x = h !! x) ->
  py_str repr_obj h' v = py_str repr_obj h v.
Proof. destruct v; simpl; auto. Qed.

Lemma definition_table_run items h :
  definition_table repr_obj items h
  = (Returned (definition_text (py_str repr_obj h) items), h).
Proof.
  unfold definition_table, bind.
  rewrite (map_m_pure _ (fun kv => "| _" +:+ kv.1 +:+ "_ | "
                                   +:+ py_str repr_obj h kv.2 +:+ " |")); [done|].
  intros kv. reflexivity.
Qed.

Lemma keeps_refl K h : keeps K h h.
Proof. intros a kd its Ha. eauto. Qed.

Lemma keeps_trans K h1 h2 h3 : keeps K h1 h2 -> keeps K h2 h3 -> keeps K h1 h3.
Proof.
  intros H12 H23 a kd its Ha. destruct (H12 _ _ _ Ha) as (its2 & Ha2 & E2).
  destruct (H23 _ _ _ Ha2) as (its3 & Ha3 & E3).
  exists its3. split; [done|]. intros j Hj. rewrite E3, E2; auto.
Qed.

Lemma keeps_mono K K' h h' : K ⊆ K' -> keeps K h h' -> keeps K' h h'.
Proof.
  intros Hsub Hk a kd its Ha. destruct (Hk _ _ _ Ha) as (its' & Ha' & E).
  exists its'. split; [done|]. intros j Hj. apply E. intros Hin. apply Hj. auto.
Qed.

Lemma keeps_setitem k x d kd idoc h :
  h !! d = Some (ODict kd idoc) ->
  keeps [k] h (<[d := ODict kd (dict_set k x idoc)]> h).
Proof.
  intros Hd a kd' its Ha. destruct (decide (a = d)) as [->|Hne].
  - rewrite Hd in Ha. injection Ha as <- <-. exists (dict_set k x idoc). split.
    + apply list_lookup_insert_eq. by eapply lookup_lt_Some.
    + intros j Hj. apply dict_get_set_ne. intros ->. apply Hj. left.
  - exists its. split; [|done]. by rewrite list_lookup_insert_ne.
Qed.

Lemma keeps_alloc K (h : heap) o : keeps K h (h ++ [o]).
Proof.
  intros a kd its Ha. exists its. split; [|done].
  rewrite lookup_app_l; [done|]. by eapply lookup_lt_Some.
Qed.

Lemma getitem_transfer K h h' v k x :
  keeps K h h' -> k ∉ K ->
  py_getitem v k h = (Returned x, h) -> py_getitem v k h' = (Returned x, h').
Proof.
  intros Hk Hnot H. apply getitem_inv in H as (_ & a & kd & its & -> & Ha & Hget).
  destruct (Hk _ _ _ Ha) as (its' & Ha' & E).
  eapply run_getitem; [exact Ha'|]. by rewrite E.
Qed.

Lemma update_definitions_twice src dst overall h h1 :
  src ≠ dst -> dst ≠ "documentation" ->
  update_definitions repr_obj src dst overall h = (Returned tt, h1) ->
  apart h1 overall src ->
  update_definitions repr_obj src dst overall h1 = (Returned tt, h1).
Proof.
  intros Hsd Hdd H Hapart. unfold update_definitions in *.
  unfold bind at 1 in H.
  destruct (py_getitem overall src h) as [[defs|?] h0] eqn:H1; [|done].
  pose proof H1 as H1'.
  apply getitem_inv in H1' as (-> & o & ko & io & -> & Ho & Hdefs).
  unfold bind at 1 in H. unfold py_items in H.
  destruct (deref h defs) as [[kdf items|?]|] eqn:Hdf; try done.
  destruct defs as [| | | | |df]; try done. simpl in Hdf.
  unfold bind at 1 in H. rewrite definition_table_run in H.
  unfold bind at 1 in H.
  destruct (py_getitem (VRef o) "documentation" h) as [[doc|?] h0] eqn:H2; [|done].
  pose proof H2 as H2'.
  apply getitem_inv in H2' as (-> & o' & ko' & io' & [= <-] & Ho' & Hdoc).
  rewrite Ho in Ho'. injection Ho' as <- <-.
  apply setitem_inv in H as (d & kd & idoc & -> & Hd & ->).
  set (text := definition_text (py_str repr_obj h) items) in *.
  set (h1 := <[d := ODict kd (dict_set dst (VStr text) idoc)]> h) in *.
  assert (Hk : keeps [dst] h h1) by (by apply keeps_setitem).
  assert (Hnot1 : src ∉ [dst]) by (intros Hin; apply list_elem_of_singleton in Hin; done).
  assert (Hnot2 : "documentation" ∉ [dst]).
  { intros Hin. apply list_elem_of_singleton in Hin. done. }
  pose proof (getitem_transfer _ _ _ _ _ _ Hk Hnot1 H1) as H1a.
  pose proof (getitem_transfer _ _ _ _ _ _ Hk Hnot2 H2) as H2a.
  specialize (Hapart _ _ H1a H2a).
  assert (Hdfd : df ≠ d) by (intros ->; apply Hapart; constructor).
  assert (Hdf1 : h1 !! df = Some (ODict kdf items)).
  { unfold h1. by rewrite list_lookup_insert_ne. }
  assert (Hd1 : h1 !! d = Some (ODict kd (dict_set dst (VStr text) idoc))).
  { unfold h1. apply list_lookup_insert_eq. by eapply lookup_lt_Some. }
  unfold bind at 1. rewrite H1a.
  unfold bind at 1, py_items. simpl. rewrite Hdf1.
  unfold bind at 1. rewrite definition_table_run.
  unfold bind at 1. rewrite H2a.
  unfold py_setitem. rewrite Hd1.
  assert (Etext : definition_text (py_str repr_obj h1) items = text).
  { apply definition_text_ext. intros kv Hkv. symmetry. apply py_str_local.
    intros y Hy. unfold h1. symmetry. apply list_lookup_insert_ne. intros ->.
    apply Hapart. eapply reachable_step; [exact Hdf1| |exact Hy].
    simpl. apply list_elem_of_fmap. by exists kv. }
  rewrite Etext, dict_set_idem. f_equal. unfold h1.
  by rewrite list_insert_insert_eq.
Qed.

Lemma getitem_ro v k h out h' : py_getitem v k h = (out, h') -> h' = h.
Proof.
  unfold py_getitem. destruct (deref h v) as [[? its|?]|]; try by intros [= _ <-].
  destruct (dict_get k its); by intros [= _ <-].
Qed.

Lemma getitem_reachable v k h x a :
  py_getitem v k h = (Returned x, h) -> reachable h x a -> reachable h v a.
Proof.
  intros H Hr. apply getitem_inv in H as (_ & b & kd & its & -> & Hb & Hget).
  eapply reachable_step; [exact Hb| |exact Hr]. simpl.
  apply dict_get_elem in Hget. apply list_elem_of_fmap. by exists (k, x).
Qed.

Lemma contains_ro s v h out h' : py_contains s v h = (out, h') -> h' = h.
Proof.
  unfold py_contains. destruct v as [| | | |?|a]; try by intros [= _ <-].
  destruct (h !! a) as [[]|]; by intros [= _ <-].
Qed.

Lemma fill_default_inv flags n h h' :
  fill_default flags n h = (Returned tt, h') ->
  h' = h ∨
  ∃ f kf bits, flags = VRef f ∧ h !! f = Some (ODict kf bits) ∧
    h' = <[f := ODict kf (dict_set (str_of_nat n) (VRef (length h)) bits)]>
           (h ++ [placeholder]).
Proof.
  unfold fill_default, bind. intros H.
  destruct (py_contains (str_of_nat n) flags h) as [[[|]|?] h0] eqn:Hc; try done.
  - apply contains_ro in Hc as ->. injection H as <-. by left.
  - pose proof (contains_ro _ _ _ _ _ Hc) as ->.
    unfold alloc in H. apply setitem_inv in H as (f & kf & bits & -> & Hf & ->).
    right. destruct (decide (f < length h)) as [Hlt|Hge].
    + rewrite lookup_app_l in Hf by done. by exists f, kf, bits.
    + exfalso. unfold py_contains in Hc.
      rewrite (proj2 (lookup_ge_None h f)) in Hc by lia. done.
Qed.

Lemma fill_frame flags :
  ∀ ns h hf,
    for_each ns (fill_default flags) h = (Returned tt, hf) ->
    keeps (map str_of_nat ns) h hf.
Proof.
  induction ns as [|n ns IH]; intros h hf H.
  - injection H as <-. apply keeps_refl.
  - simpl in H. unfold bind at 1 in H.
    destruct (fill_default flags n h) as [[[]|?] h1] eqn:H1; [|done].
    apply IH in H.
    assert (Hsub : map str_of_nat ns ⊆ str_of_nat n :: map str_of_nat ns).
    { intros x Hx. by right. }
    apply fill_default_inv in H1 as [->|(f & kf & bits & -> & Hf & ->)].
    + eapply keeps_mono; [exact Hsub | exact H].
    + eapply keeps_trans; [|eapply keeps_mono; [exact Hsub | exact H]].
      eapply keeps_trans; [apply keeps_alloc|].
      eapply keeps_mono; [|apply keeps_setitem].
      * intros x Hx. apply list_elem_of_singleton in Hx as ->. left.
      * rewrite lookup_app_l; [done|]. by eapply lookup_lt_Some.
Qed.

Lemma fill_noop f kf bits h :
  h !! f = Some (ODict kf bits) ->
  ∀ ns, (∀ n, n ∈ ns -> dict_has (str_of_nat n) bits = true) ->
  for_each ns (fill_default (VRef f)) h = (Returned tt, h).
Proof.
  intros Hf. induction ns as [|n ns IH]; intros Hall; [done|].
  simpl. unfold bind at 1.
  rewrite (fill_default_present _ _ _ _ _ Hf); [|apply Hall; left].
  apply IH. intros m Hm. apply Hall. by right.
Qed.

Lemma bit_names_transfer K flags h h' :
  keeps K h h' -> "name" ∉ K ->
  ∀ ns names hx,
    (∀ n, n ∈ ns -> str_of_nat n ∉ K) ->
    map_m (bit_name flags) ns h = (Returned names, hx) ->
    hx = h ∧ map_m (bit_name flags) ns h' = (Returned names, h') ∧
    ∀ n, n ∈ ns -> ∃ bit, py_getitem flags (str_of_nat n) h = (Returned bit, h).
Proof.
  intros Hk Hname. induction ns as [|n ns IH]; intros names hx HK H.
  - injection H as <- <-. split_and!; auto. intros n Hn. by apply elem_of_nil in Hn.
  - rewrite map_m_cons in H. unfold bind at 1, bit_name at 1 in H.
    unfold bind at 1 in H.
    destruct (py_getitem flags (str_of_nat n) h) as [[bit|?] h0] eqn:H1; [|done].
    pose proof (getitem_ro _ _ _ _ _ H1) as ->.
    destruct (py_getitem bit "name" h) as [[nm|?] h0] eqn:H2; [|done].
    pose proof (getitem_ro _ _ _ _ _ H2) as ->.
    unfold bind at 1 in H.
    pose proof (IH) as IH'.
    destruct (map_m (bit_name flags) ns h) as [[rest|?] h0] eqn:H3; [|done].
    injection H as <- <-.
    destruct (IH' _ _ (fun m Hm => HK m (list_elem_of_further _ _ _ Hm)) eq_refl)
      as (-> & Hrun & Hbits).
    split_and!; [done| |].
    + rewrite map_m_cons. unfold bind at 1, bit_name at 1. unfold bind at 1.
      rewrite (getitem_transfer _ _ _ _ _ _ Hk (HK n (list_elem_of_here _ _)) H1).
      rewrite (getitem_transfer _ _ _ _ _ _ Hk Hname H2).
      unfold bind at 1. by rewrite Hrun.
    + intros m Hm. apply elem_of_cons in Hm as [->|Hm]; eauto.
Qed.

Lemma bit_descriptions_transfer K flags h h' :
  keeps K h h' -> "name" ∉ K -> "description" ∉ K ->
  ∀ ns acc s hx,
    (∀ n, n ∈ ns -> str_of_nat n ∉ K) ->
    (∀ n bit desc, n ∈ ns ->
       py_getitem flags (str_of_nat n) h = (Returned bit, h) ->
       py_getitem bit "description" h = (Returned desc, h) ->
       py_str repr_obj h' desc = py_str repr_obj h desc) ->
    bit_descriptions repr_obj flags ns acc h = (Returned s, hx) ->
    hx = h ∧ bit_descriptions repr_obj flags ns acc h' = (Returned s, h').
Proof.
  intros Hk Hname Hdesc. induction ns as [|n ns IH]; intros acc s hx HK Hstr H.
  - injection H as <- <-. done.
  - simpl in H. unfold bind at 1 in H.
    destruct (py_getitem flags (str_of_nat n) h) as [[bit|?] h0] eqn:H1; [|done].
    pose proof (getitem_ro _ _ _ _ _ H1) as ->.
    unfold bind at 1 in H.
    destruct (py_getitem bit "name" h) as [[nm|?] h0] eqn:H2; [|done].
    pose proof (getitem_ro _ _ _ _ _ H2) as ->.
    assert (HK' : ∀ m, m ∈ ns -> str_of_nat m ∉ K) by (intros m Hm; apply HK; by right).
    assert (Hstr' : ∀ m bit desc, m ∈ ns ->
       py_getitem flags (str_of_nat m) h = (Returned bit, h) ->
       py_getitem bit "description" h = (Returned desc, h) ->
       py_str repr_obj h' desc = py_str repr_obj h desc).
    { intros m b' d' Hm. apply Hstr. by right. }
    simpl. unfold bind at 1.
    rewrite (getitem_transfer _ _ _ _ _ _ Hk (HK n (list_elem_of_here _ _)) H1).
    unfold bind at 1. rewrite (getitem_transfer _ _ _ _ _ _ Hk Hname H2).
    destruct (negb (eq_str nm "-")).
    + unfold bind at 1 in H.
      destruct (py_getitem bit "description" h) as [[desc|?] h0] eqn:H3; [|done].
      pose proof (getitem_ro _ _ _ _ _ H3) as ->.
      unfold bind at 1, format in H.
      unfold bind at 1. rewrite (getitem_transfer _ _ _ _ _ _ Hk Hdesc H3).
      unfold bind at 1, format.
      rewrite (Hstr n bit desc (list_elem_of_here _ _) H1 H3).
      by apply IH.
    + by apply IH.
Qed.

Lemma not_in_singleton (a b : string) : a ≠ b -> a ∉ [b].
Proof. intros Hne Hin. by apply list_elem_of_singleton in Hin. Qed.

Lemma bit_key_not_section n :
  n ∈ bits_down -> str_of_nat n ∉ ["!response_flags!"].
Proof.
  intros Hn. unfold bits_down in Hn.
  repeat (apply elem_of_cons in Hn as [->|Hn]; [by apply not_in_singleton|]).
  by apply elem_of_nil in Hn.
Qed.

Lemma response_flags_twice overall h h1 :
  _update_response_flags repr_obj overall h = (Returned tt, h1) ->
  apart h1 overall "response_flags" ->
  _update_response_flags repr_obj overall h1 = (Returned tt, h1).
Proof.
  intros H Hapart. unfold _update_response_flags in *.
  unfold bind at 1 in H.
  destruct (py_getitem overall "response_flags" h) as [[rfv|?] h0] eqn:H1; [|done].
  pose proof (getitem_ro _ _ _ _ _ H1) as ->.
  unfold bind at 1 in H.
  destruct (py_getitem rfv "bits" h) as [[flags|?] h0] eqn:H2; [|done].
  pose proof (getitem_ro _ _ _ _ _ H2) as ->.
  unfold bind at 1 in H. unfold fill_defaults in *.
  destruct (for_each bits_up (fill_default flags) h) as [[[]|?] hf] eqn:H3; [|done].
  unfold bind at 1, bit_names in H.
  destruct (map_m (bit_name flags) bits_down hf) as [[names|?] h0] eqn:H4; [|done].
  unfold bind at 1, py_join in H.
  destruct (strings_of names) as [strs|] eqn:H5; [|done]. unfold ret at 1 in H.
  unfold bind at 1 in H.
  destruct (bit_descriptions repr_obj flags bits_down "" h0) as [[descs|?] h2] eqn:H6;
    [|done].
  unfold bind at 1 in H.
  destruct (py_getitem overall "documentation" h2) as [[doc|?] h3] eqn:H7; [|done].
  pose proof (getitem_ro _ _ _ _ _ H7) as ->.
  apply setitem_inv in H as (d & kd & idoc & -> & Hd & ->).
  set (text := VStr _) in *.
  set (h1 := <[d := ODict kd (dict_set "!response_flags!" text idoc)]> h2) in *.
  (* the reads after the fill leave the store alone *)
  assert (Hkf : keeps bit_keys h hf) by (by apply fill_frame in H3).
  assert (Hk1 : keeps ["!response_flags!"] h2 h1) by (by apply keeps_setitem).
  destruct (bit_names_transfer _ flags hf hf (keeps_refl [] hf)
              (not_elem_of_nil _) bits_down names h0
              (fun n _ => not_elem_of_nil _) H4) as (-> & _ & Hbits).
  destruct (bit_descriptions_transfer _ flags hf hf (keeps_refl [] hf)
              (not_elem_of_nil _) (not_elem_of_nil _) bits_down "" descs h2
              (fun n _ => not_elem_of_nil _) (fun _ _ _ _ _ _ => eq_refl) H6)
    as (-> & _).
  assert (Hkall : keeps (bit_keys ++ ["!response_flags!"]) h h1).
  { eapply keeps_trans; (eapply keeps_mono; [|eassumption]);
      intros x Hx; apply elem_of_app; auto. }
  assert (Hkey : ∀ k, k ∉ bit_keys -> k ≠ "!response_flags!" ->
                      k ∉ bit_keys ++ ["!response_flags!"]).
  { intros k Hk1' Hk2 Hin. apply elem_of_app in Hin as [Hin|Hin]; [done|].
    by apply list_elem_of_singleton in Hin. }
  (* the second run *)
  assert (H1' : py_getitem overall "response_flags" h1 = (Returned rfv, h1)).
  { eapply getitem_transfer; [exact Hkall| |exact H1]. apply Hkey; [not_bit_key|done]. }
  assert (H2' : py_getitem rfv "bits" h1 = (Returned flags, h1)).
  { eapply getitem_transfer; [exact Hkall| |exact H2]. apply Hkey; [not_bit_key|done]. }
  assert (H7' : py_getitem overall "documentation" h1 = (Returned (VRef d), h1)).
  { eapply getitem_transfer; [exact Hk1| |exact H7]. by apply not_in_singleton. }
  specialize (Hapart _ _ H1' H7').
  assert (Hn1 : "name" ∉ ["!response_flags!"]) by (by apply not_in_singleton).
  assert (Hn2 : "description" ∉ ["!response_flags!"]) by (by apply not_in_singleton).
  destruct (bit_names_transfer _ flags hf h1 Hk1 Hn1 bits_down names hf
              bit_key_not_section H4) as (_ & H4' & _).
  (* the bits are all there *)
  destruct (Hbits 7) as [bit7 Hb7]; [left|].
  apply getitem_inv in Hb7 as (_ & f & kf & bits_f & -> & Hf & _).
  destruct (Hk1 _ _ _ Hf) as (bits_1 & Hf1 & Hsame).
  assert (Hfill' : for_each bits_up (fill_default (VRef f)) h1 = (Returned tt, h1)).
  { apply (fill_noop f kf bits_1 h1 Hf1). intros n Hn.
    assert (Hn' : n ∈ bits_down).
    { unfold bits_up in Hn.
      repeat (apply elem_of_cons in Hn as [->|Hn]; [compute_done|]).
      by apply elem_of_nil in Hn. }
    destruct (Hbits n Hn') as [bit Hbit].
    apply getitem_inv in Hbit as (_ & f' & kf' & bits' & [= <-] & Hf' & Hget).
    rewrite Hf in Hf'. injection Hf' as <- <-.
    unfold dict_has. rewrite Hsame by (by apply bit_key_not_section). by rewrite Hget. }
  (* the descriptions print the same *)
  assert (Hstr : ∀ n bit desc, n ∈ bits_down ->
     py_getitem (VRef f) (str_of_nat n) hf = (Returned bit, hf) ->
     py_getitem bit "description" hf = (Returned desc, hf) ->
     py_str repr_obj h1 desc = py_str repr_obj hf desc).
  { intros n bit desc Hn Hbit Hdesc. symmetry. apply py_str_local.
    intros x Hx. unfold h1. symmetry. apply list_lookup_insert_ne. intros ->.
    apply Hapart.
    eapply getitem_reachable; [exact H2'|].
    eapply getitem_reachable;
      [exact (getitem_transfer _ _ _ _ _ _ Hk1 (bit_key_not_section n Hn) Hbit)|].
    eapply getitem_reachable;
      [exact (getitem_transfer _ _ _ _ _ _ Hk1 Hn2 Hdesc)|].
    exact Hx. }
  destruct (bit_descriptions_transfer _ (VRef f) hf h1 Hk1 Hn1 Hn2
              bits_down "" descs hf bit_key_not_section Hstr H6) as (_ & H6').
  unfold bind at 1. rewrite H1'. unfold bind at 1. rewrite H2'.
  unfold bind at 1. rewrite Hfill'.
  unfold bind at 1, bit_names. rewrite H4'.
  unfold bind at 1, py_join. rewrite H5. unfold ret at 1.
  unfold bind at 1. rewrite H6'.
  unfold bind at 1. rewrite H7'.
  assert (Hd1 : h1 !! d = Some (ODict kd (dict_set "!response_flags!" text idoc))).
  { unfold h1. apply list_lookup_insert_eq. by eapply lookup_lt_Some. }
  unfold py_setitem. rewrite Hd1. fold text. rewrite dict_set_idem. f_equal.
  unfold h1. by rewrite list_insert_insert_eq.
Qed.

(** C8.  The response-flags renderer on a tree whose [response_flags.bits]
    maps some of the indices ["0"] to ["7"] to records with a string [name]
    and, unless the name is ["-"], a [description].  It returns, having first
    filled in place every missing index with a new record
    [{name: "-", description: "-"}] and left the entries that were there, and
    stores under [documentation["!response_flags!"]] the text [flags_table]:
    the header row [Bit 7] down to [Bit 0], the divider row, the row of the
    eight names in that order, and one bullet line for each bit whose name is
    not ["-"], again from bit 7 down to bit 0. *)
Theorem C8_response_flags_table h o ko io rf krf irf f kf bits d kd idoc
    (nm : nat -> string) (dv : nat -> value) :
  h !! o = Some (ODict ko io) ->
  dict_get "response_flags" io = Some (VRef rf) -> h !! rf = Some (ODict krf irf) ->
  dict_get "bits" irf = Some (VRef f) -> h !! f = Some (ODict kf bits) ->
  dict_get "documentation" io = Some (VRef d) -> h !! d = Some (ODict kd idoc) ->
  (∀ n, n ∈ bits_up ->
     match dict_get (str_of_nat n) bits with
     | Some x => bit_record h bits n (nm n) (dv n)
     | None => nm n = "-"
     end) ->
  ∃ hf bits_f idoc_f,
    hf !! f = Some (ODict kf bits_f) ∧
    (∀ j x, dict_get j bits = Some x -> dict_get j bits_f = Some x) ∧
    (∀ n, n ∈ bits_up -> dict_get (str_of_nat n) bits = None ->
       ∃ a, h !! a = None ∧ dict_get (str_of_nat n) bits_f = Some (VRef a) ∧
            hf !! a = Some placeholder) ∧
    hf !! d = Some (ODict kd idoc_f) ∧
    (∀ j, j ∉ bit_keys -> dict_get j idoc_f = dict_get j idoc) ∧
    _update_response_flags repr_obj (VRef o) h
    = (Returned tt,
       <[d := ODict kd (dict_set "!response_flags!"
                          (VStr (flags_table repr_obj hf nm dv)) idoc_f)]> hf).
Proof. apply response_flags_run. Qed.

(** C7.  Each of the three renderers, run again on the store its first run
    left, returns and leaves that store as it is: the text under the reserved
    key and the filled-in bits are those of the first run.  The tree that the
    renderer reads is taken not to contain the [documentation] dict. *)
Theorem C7_renderers_idempotent overall h h1 :
  (_update_type_docs repr_obj overall h = (Returned tt, h1) ->
   apart h1 overall "type_docs" ->
   _update_type_docs repr_obj overall h1 = (Returned tt, h1)) ∧
  (_update_term_definitions repr_obj overall h = (Returned tt, h1) ->
   apart h1 overall "term_definitions" ->
   _update_term_definitions repr_obj overall h1 = (Returned tt, h1)) ∧
  (_update_response_flags repr_obj overall h = (Returned tt, h1) ->
   apart h1 overall "response_flags" ->
   _update_response_flags repr_obj overall h1 = (Returned tt, h1)).
Proof.
  split_and!.
  - apply (update_definitions_twice "type_docs" "!type_docs!"); done.
  - apply (update_definitions_twice "term_definitions" "!term_definitions!"); done.
  - apply response_flags_twice.
Qed.

End RenderingFacts.

Lemma no_repr_local h h' a :
  (∀ x, reachable h (VRef a) x -> h' !! x = h !! x) ->
  no_repr h' a = no_repr h a.
Proof. reflexivity. Qed.

Example flags_example :
  render_tree (_update_response_flags no_repr) flags_doc
  = Returned (Some (od
      [("response_flags",
        od [("bits", od [("3", od [("name", TStr "ERR");
                                   ("description", TStr "error flag")]);
                         ("0", dflt); ("1", dflt); ("2", dflt); ("4", dflt);
                         ("5", dflt); ("6", dflt); ("7", dflt)])]);
       ("documentation",
        od [("order", TList []);
            ("!response_flags!", TStr (
               "| Bit 7 | Bit 6 | Bit 5 | Bit 4 | Bit 3 | Bit 2 | Bit 1 | Bit 0 |" +:+ nl +:+
               "|--|--|--|--|--|--|--|--|" +:+ nl +:+
               "| - | - | - | - | ERR | - | - | - |" +:+ nl +:+
               nl +:+ "* `Bit 3`: error flag" +:+ nl))])])).
Proof. reflexivity. Qed.

(** C8 on [store_flags], the specification's example with bit 3 only. *)
Lemma C8_witness :
  ∃ hf bits_f idoc_f,
    hf !! 1 = Some (ODict OrderedDict bits_f) ∧
    (∀ j x, dict_get j [("3", VRef 0)] = Some x -> dict_get j bits_f = Some x) ∧
    (∀ n, n ∈ bits_up -> dict_get (str_of_nat n) [("3", VRef 0)] = None ->
       ∃ a, store_flags !! a = None ∧ dict_get (str_of_nat n) bits_f = Some (VRef a) ∧
            hf !! a = Some placeholder) ∧
    hf !! 4 = Some (ODict OrderedDict idoc_f) ∧
    (∀ j, j ∉ bit_keys -> dict_get j idoc_f = dict_get j [("order", VRef 3)]) ∧
    _update_response_flags no_repr (VRef 5) store_flags
    = (Returned tt,
       <[4 := ODict OrderedDict
                (dict_set "!response_flags!"
                   (VStr (flags_table no_repr hf
                            (fun n => if Nat.eqb n 3 then "ERR" else "-")
                            (fun n => if Nat.eqb n 3 then VStr "error flag"
                                      else VStr "-")))
                   idoc_f)]> hf).
Proof.
  apply (C8_response_flags_table no_repr store_flags
           5 OrderedDict [("response_flags", VRef 2); ("documentation", VRef 4)]
           2 OrderedDict [("bits", VRef 1)]
           1 OrderedDict [("3", VRef 0)]
           4 OrderedDict [("order", VRef 3)]).
  - reflexivity.
  - reflexivity.
  - reflexivity.
  - reflexivity.
  - reflexivity.
  - reflexivity.
  - reflexivity.
  - intros n Hn. unfold bits_up in Hn.
    repeat (apply elem_of_cons in Hn as [->|Hn];
            [first [ reflexivity
                   | exists 0, OrderedDict,
                       [("name", VStr "ERR"); ("description", VStr "error flag")];
                     repeat split ] |]).
    by apply elem_of_nil in Hn.
Defined.

(** No path leads to an object in a store that is written out. *)
Ltac no_path :=
  repeat match goal with
  | H : reachable _ (VRef _) _ |- _ => inversion H; clear H; subst
  | H : reachable _ _ _ |- _ => by inversion H
  | H : _ !! _ = Some _ |- _ => vm_compute in H; injection H as <-
  | H : _ ∈ obj_values _ |- _ => simpl in H
  | H : _ ∈ _ :: _ |- _ => apply elem_of_cons in H as [->|H]
  | H : _ ∈ [] |- _ => by apply elem_of_nil in H
  | H : _ !! _ = None |- _ => by vm_compute in H
  end.

Ltac apart_here :=
  let H1 := fresh in let H2 := fresh in let Hr := fresh in
  intros ? ? H1 H2 Hr; vm_compute in H1; vm_compute in H2;
  injection H1 as <-; injection H2 as <-; no_path.

(** C7 on [store_full]: each renderer run a second time returns and leaves
    the store as the first run left it. *)
Lemma C7_witness :
  let once (render : value -> M unit) := (render (VRef 7) store_full).2 in
  _update_type_docs no_repr (VRef 7) (once (_update_type_docs no_repr))
    = (Returned tt, once (_update_type_docs no_repr)) ∧
  _update_term_definitions no_repr (VRef 7) (once (_update_term_definitions no_repr))
    = (Returned tt, once (_update_term_definitions no_repr)) ∧
  _update_response_flags no_repr (VRef 7) (once (_update_response_flags no_repr))
    = (Returned tt, once (_update_response_flags no_repr)).
Proof.
  intros once. split_and!.
  - apply (C7_renderers_idempotent no_repr no_repr_local (VRef 7) store_full).
    + vm_compute. reflexivity.
    + apart_here.
  - apply (C7_renderers_idempotent no_repr no_repr_local (VRef 7) store_full).
    + vm_compute. reflexivity.
    + apart_here.
  - apply (C7_renderers_idempotent no_repr no_repr_local (VRef 7) store_full).
    + vm_compute. reflexivity.
    + apart_here.
Defined.

(** ** The command [xap_generate_docs] *)

Lemma file_get_set path c fs : file_get path (file_set path c fs) = Some c.
Proof.
  induction fs as [|[p c'] fs IH]; simpl.
  - by rewrite String.eqb_refl.
  - destruct (String.eqb p path) eqn:E; simpl; by rewrite E.
Qed.

Lemma file_set_set path c c' fs :
  file_set path c (file_set path c' fs) = file_set path c fs.
Proof.
  induction fs as [|[p c0] fs IH]; simpl.
  - by rewrite String.eqb_refl.
  - destruct (String.eqb p path) eqn:E; simpl; rewrite E; [done|by rewrite IH].
Qed.

Lemma lift_done {A} (m : M A) w a h :
  m (store w) = (Returned a, h) ->
  lift m w = (Done a, World h (stdout w) (files w)).
Proof. intros E. unfold lift. by rewrite E. Qed.

Lemma lift_raised {A} (m : M A) w e h :
  m (store w) = (Raised e, h) ->
  lift m w = (Uncaught e, World h (stdout w) (files w)).
Proof. intros E. unfold lift. by rewrite E. Qed.

Lemma lift_done_at {A} (m : M A) h out fs a h' :
  m h = (Returned a, h') ->
  lift m (World h out fs) = (Done a, World h' out fs).
Proof. intros E. unfold lift. simpl. by rewrite E. Qed.

Lemma lift_raised_at {A} (m : M A) h out fs e h' :
  m h = (Raised e, h') ->
  lift m (World h out fs) = (Uncaught e, World h' out fs).
Proof. intros E. unfold lift. simpl. by rewrite E. Qed.

Lemma process_files_app {ro hd st qf up} before after state w :
  process_files ro hd st qf up (before ++ after) state w =
  match process_files ro hd st qf up before state w with
  | (Done state', w') => process_files ro hd st qf up after state' w'
  | (Uncaught e, w') => (Uncaught e, w')
  | (Exited c, w') => (Exited c, w')
  end.
Proof.
  revert state w. induction before as [|f before IH]; intros state w; [done|].
  simpl. unfold io_bind.
  destruct (process_file ro hd st qf up f state w) as [[state'| |] w']; [|done..].
  apply IH.
Qed.

Lemma silent_ret {A} (a : A) : silent (io_ret a).
Proof. intros w r w' E. by inversion E. Qed.

Lemma silent_bind {A B} (m : IO A) (f : A -> IO B) :
  silent m -> (forall a, silent (f a)) -> silent (io_bind m f).
Proof.
  intros Hm Hf w r w' E. unfold io_bind in E.
  destruct (m w) as [[a|e|c] w1] eqn:Em.
  - rewrite (Hf a _ _ _ E). by apply (Hm _ _ _ Em).
  - inversion E; subst. by apply (Hm _ _ _ Em).
  - inversion E; subst. by apply (Hm _ _ _ Em).
Qed.

Lemma silent_lift {A} (m : M A) : silent (lift m).
Proof.
  intros w r w' E. unfold lift in E.
  destruct (m (store w)) as [[a|e] h]; by inversion E.
Qed.

Lemma silent_open path : silent (open_w path).
Proof. intros w r w' E. by inversion E. Qed.

Lemma silent_write path s : silent (write path s).
Proof. intros w r w' E. by inversion E. Qed.

Lemma silent_for_each {A} (l : list A) body :
  (forall x, silent (body x)) -> silent (io_for_each l body).
Proof.
  intros Hb. induction l as [|x l IH]; simpl.
  - apply silent_ret.
  - apply silent_bind; [apply Hb|]. intros _. apply IH.
Qed.

Section CommandFacts.

Variable repr_obj : heap -> addr -> string.

Variable hjson_dumps : heap -> value -> string.

Variable py_strip : string -> string.

Variable QMK_FIRMWARE : string.

Variable update_xap_definitions : option value -> value -> M value.

(** The sections are written up to the first entry of [order] that the
    documentation dict does not have; there the [KeyError] leaves the loop. *)
Lemma write_sections_missing overall path o ko items d kd idoc pre e post h out fs :
  overall = VRef o ->
  h !! o = Some (ODict ko items) ->
  dict_get "documentation" items = Some (VRef d) ->
  h !! d = Some (ODict kd idoc) ->
  (forall k, k ∈ pre -> exists s, dict_get k idoc = Some (VStr s)) ->
  dict_get e idoc = None ->
  forall acc,
  io_for_each (map VStr pre ++ VStr e :: post) (fun e =>
    let+ doc' := lift (py_getitem overall "documentation") in
    let+ text := lift (py_getitem_at doc' e) in
    match text with
    | VStr s => write path (py_strip s)
    | _ => fun w => (Uncaught AttributeError, w)
    end ;;+
    write path (nl +:+ nl)) (World h out (file_set path acc fs)) =
  (Uncaught KeyError,
   World h out (file_set path (acc +:+ sections py_strip idoc pre) fs)).
Proof.
  intros -> Ho Hdoc Hd Hpre He.
  induction pre as [|k pre IH]; intros acc; simpl.
  - unfold io_bind.
    rewrite (lift_done _ _ (VRef d) h); [|simpl; by apply (run_getitem _ _ ko items)].
    simpl. unfold lift, py_getitem_at, py_getitem. simpl. rewrite Hd, He. simpl.
    by rewrite append_nil_r.
  - destruct (Hpre k) as [s Hs]; [left|].
    unfold io_bind at 1.
    unfold io_bind at 1.
    unfold io_bind at 1.
    rewrite (lift_done _ _ (VRef d) h); [|simpl; by apply (run_getitem _ _ ko items)].
    simpl. unfold io_bind at 1.
    unfold lift at 1, py_getitem_at, py_getitem. simpl. rewrite Hd, Hs. simpl.
    unfold write. simpl. rewrite !file_get_set, !file_set_set. simpl.
    rewrite IH by (intros k' Hk'; apply Hpre; by right).
    by rewrite !append_assoc.
Qed.

Lemma write_document_missing path o ko items d kd idoc ol pre e post w :
  store w !! o = Some (ODict ko items) ->
  dict_get "documentation" items = Some (VRef d) ->
  store w !! d = Some (ODict kd idoc) ->
  dict_get "order" idoc = Some (VRef ol) ->
  store w !! ol = Some (OList (map VStr pre ++ VStr e :: post)) ->
  (forall k, k ∈ pre -> exists s, dict_get k idoc = Some (VStr s)) ->
  dict_get e idoc = None ->
  write_document py_strip (VRef o) path w =
  (Uncaught KeyError,
   World (store w) (stdout w) (file_set path (sections py_strip idoc pre) (files w))).
Proof.
  intros Ho Hdoc Hd Hord Hol Hpre He.
  unfold write_document, io_bind, open_w.
  rewrite (lift_done _ _ (VRef d) (store w));
    [|simpl; by apply (run_getitem _ _ ko items)].
  rewrite (lift_done _ _ (VRef ol) (store w));
    [|simpl; by apply (run_getitem _ _ kd idoc)].
  rewrite (lift_done _ _ (map VStr pre ++ VStr e :: post) (store w));
    [|simpl; unfold py_iter; by rewrite Hol].
  simpl.
  pose proof (write_sections_missing (VRef o) path o ko items d kd idoc pre e post
    (store w) (stdout w) (files w) eq_refl Ho Hdoc Hd Hpre He "") as H.
  unfold io_bind in H. rewrite H. done.
Qed.

Lemma silent_write_document overall path :
  silent (write_document py_strip overall path).
Proof.
  unfold write_document.
  apply silent_bind; [apply silent_open|]. intros _.
  apply silent_bind; [apply silent_lift|]. intros doc.
  apply silent_bind; [apply silent_lift|]. intros order.
  apply silent_bind; [apply silent_lift|]. intros entries.
  apply silent_for_each. intros e.
  apply silent_bind; [apply silent_lift|]. intros doc'.
  apply silent_bind; [apply silent_lift|]. intros text.
  apply silent_bind; [|intros _; apply silent_write].
  destruct text; try apply silent_write; intros w r w' E; by inversion E.
Qed.

(** A turn of the loop that comes to its end has printed nothing. *)
Lemma process_file_quiet file state w state' w' :
  process_file repr_obj hjson_dumps py_strip QMK_FIRMWARE update_xap_definitions
    file state w = (Done state', w') ->
  stdout w' = stdout w.
Proof.
  unfold process_file. intros E.
  unfold io_bind at 1 in E.
  destruct (lift (load file.2) w) as [[new| |] w1] eqn:E1; try done.
  unfold io_bind at 1 in E.
  destruct (lift (update_xap_definitions state.1 new) w1)
    as [[overall| |] w2] eqn:E2; try done.
  unfold io_bind at 1 in E. unfold try_except in E.
  destruct (lift (refresh_sections repr_obj overall) w2)
    as [[[]| |] w3] eqn:E3;
    [|unfold dump_and_exit, io_bind, print, exit in E; simpl in E; done..].
  unfold io_bind at 1 in E.
  destruct (write_document py_strip overall (doc_path QMK_FIRMWARE file.1) w3)
    as [[[]| |] w4] eqn:E4; try done.
  inversion E; subst.
  rewrite (silent_write_document _ _ _ _ _ E4).
  rewrite (silent_lift _ _ _ _ E3), (silent_lift _ _ _ _ E2).
  by apply (silent_lift _ _ _ _ E1).
Qed.

Lemma process_files_quiet fs state w state' w' :
  process_files repr_obj hjson_dumps py_strip QMK_FIRMWARE update_xap_definitions
    fs state w = (Done state', w') ->
  stdout w' = stdout w.
Proof.
  revert state w. induction fs as [|f fs IH]; intros state w E; simpl in E.
  - by inversion E.
  - unfold io_bind in E.
    destruct (process_file _ _ _ _ _ f state w) as [[st1| |] w1] eqn:E1; try done.
    rewrite (IH _ _ E). by apply (process_file_quiet _ _ _ _ _ E1).
Qed.

(** The turn of the loop for a layer whose [order] names a section that the
    documentation dict does not have. *)
Lemma process_file_missing file state w new h1 overall h2 h3
    ko items d kd idoc ol pre e post :
  load file.2 (store w) = (Returned new, h1) ->
  update_xap_definitions state.1 new h1 = (Returned overall, h2) ->
  refresh_sections repr_obj overall h2 = (Returned tt, h3) ->
  deref h3 overall = Some (ODict ko items) ->
  dict_get "documentation" items = Some (VRef d) ->
  h3 !! d = Some (ODict kd idoc) ->
  dict_get "order" idoc = Some (VRef ol) ->
  h3 !! ol = Some (OList (map VStr pre ++ VStr e :: post)) ->
  (forall k, k ∈ pre -> exists s, dict_get k idoc = Some (VStr s)) ->
  dict_get e idoc = None ->
  process_file repr_obj hjson_dumps py_strip QMK_FIRMWARE update_xap_definitions
    file state w =
  (Uncaught KeyError,
   World h3 (stdout w)
     (file_set (doc_path QMK_FIRMWARE file.1) (sections py_strip idoc pre)
        (files w))).
Proof.
  intros Hl Hu Hr Ho Hdoc Hd Hord Hol Hpre He.
  destruct overall as [| | | | |o]; try done. simpl in Ho.
  destruct w as [h0 out fs]. simpl in *.
  unfold process_file.
  unfold io_bind at 1. rewrite (lift_done_at (load file.2) _ _ _ _ _ Hl).
  unfold io_bind at 1. rewrite (lift_done_at (update_xap_definitions state.1 new) _ _ _ _ _ Hu).
  unfold io_bind at 1. unfold try_except. rewrite (lift_done_at (refresh_sections repr_obj (VRef o)) _ _ _ _ _ Hr).
  unfold io_bind at 1.
  by rewrite (write_document_missing _ o ko items d kd idoc ol pre e post
    (World h3 out fs) Ho Hdoc Hd Hord Hol Hpre He).
Qed.

(** The turn of the loop for a layer on which a renderer raises. *)
Lemma process_file_dumps file state w new h1 overall h2 err h3 :
  load file.2 (store w) = (Returned new, h1) ->
  update_xap_definitions state.1 new h1 = (Returned overall, h2) ->
  refresh_sections repr_obj overall h2 = (Raised err, h3) ->
  process_file repr_obj hjson_dumps py_strip QMK_FIRMWARE update_xap_definitions
    file state w =
  (Exited 1, World h3 (stdout w ++ [hjson_dumps h3 overall]) (files w)).
Proof.
  intros Hl Hu Hr.
  destruct w as [h0 out fs]. simpl in *.
  unfold process_file.
  unfold io_bind at 1. rewrite (lift_done_at (load file.2) _ _ _ _ _ Hl).
  unfold io_bind at 1. rewrite (lift_done_at (update_xap_definitions state.1 new) _ _ _ _ _ Hu).
  unfold io_bind at 1. unfold try_except. rewrite (lift_raised_at (refresh_sections repr_obj overall) _ _ _ _ _ Hr).
  done.
Qed.

(** C9.  A layer whose [order] names a section that the documentation dict
    does not have ends the command in a [KeyError] that nothing catches:
    the layers before it have been written, the layer's own document holds
    the sections before the missing one, and nothing has been printed, so the
    cumulative tree is not dumped.  The dump, followed by [exit(1)], is what
    happens when one of the three renderers raises. *)
Theorem C9_missing_section_is_uncaught before file rest state w0 w new h1 overall h2 :
  process_files repr_obj hjson_dumps py_strip QMK_FIRMWARE update_xap_definitions
    before (None, []) w0 = (Done state, w) ->
  load file.2 (store w) = (Returned new, h1) ->
  update_xap_definitions state.1 new h1 = (Returned overall, h2) ->
  (forall h3 ko items d kd idoc ol pre e post,
     refresh_sections repr_obj overall h2 = (Returned tt, h3) ->
     deref h3 overall = Some (ODict ko items) ->
     dict_get "documentation" items = Some (VRef d) ->
     h3 !! d = Some (ODict kd idoc) ->
     dict_get "order" idoc = Some (VRef ol) ->
     h3 !! ol = Some (OList (map VStr pre ++ VStr e :: post)) ->
     (forall k, k ∈ pre -> exists s, dict_get k idoc = Some (VStr s)) ->
     dict_get e idoc = None ->
     xap_generate_docs repr_obj hjson_dumps py_strip QMK_FIRMWARE
       update_xap_definitions (before ++ file :: rest) w0 =
     (Uncaught KeyError,
      World h3 (stdout w0)
        (file_set (doc_path QMK_FIRMWARE file.1) (sections py_strip idoc pre)
           (files w)))) /\
  (forall err h3,
     refresh_sections repr_obj overall h2 = (Raised err, h3) ->
     xap_generate_docs repr_obj hjson_dumps py_strip QMK_FIRMWARE
       update_xap_definitions (before ++ file :: rest) w0 =
     (Exited 1, World h3 (stdout w0 ++ [hjson_dumps h3 overall]) (files w))).
Proof.
  intros Hb Hl Hu.
  pose proof (process_files_quiet _ _ _ _ _ Hb) as Hq.
  split.
  - intros h3 ko items d kd idoc ol pre e post Hr Ho Hdoc Hd Hord Hol Hpre He.
    unfold xap_generate_docs, io_bind.
    rewrite process_files_app, Hb. simpl. unfold io_bind.
    rewrite (process_file_missing file state w new h1 overall h2 h3
      ko items d kd idoc ol pre e post Hl Hu Hr Ho Hdoc Hd Hord Hol Hpre He).
    by rewrite Hq.
  - intros err h3 Hr.
    unfold xap_generate_docs, io_bind.
    rewrite process_files_app, Hb. simpl. unfold io_bind.
    rewrite (process_file_dumps file state w new h1 overall h2 err h3 Hl Hu Hr).
    by rewrite Hq.
Qed.

End CommandFacts.

Example generate_two_layers :
  (generate [layer_1; layer_2]).1 = Done tt /\
  files (generate [layer_1; layer_2]).2 =
    [("qmk_firmware/docs/xap_0.1.0.md", "# One" +:+ nl +:+ nl);
     ("qmk_firmware/docs/xap_0.2.0.md",
      "# One" +:+ nl +:+ nl +:+ "Two" +:+ nl +:+ nl);
     ("qmk_firmware/docs/xap_protocol.md",
      "# XAP Protocol Reference" +:+ nl +:+ nl +:+
      "* [XAP Version 0.2.0](xap_0.2.0.md)" +:+ nl +:+
      "* [XAP Version 0.1.0](xap_0.1.0.md)" +:+ nl)].
Proof. split; vm_compute; reflexivity. Qed.

Example generate_renderer_raises :
  (generate [layer_no_documentation]).1 = Exited 1 /\
  stdout (generate [layer_no_documentation]).2 = ["<overall>"].
Proof. split; vm_compute; reflexivity. Qed.

(** C9 on [layer_missing]: the section [intro] is written, then the
    [KeyError] for [missing] ends the run, and nothing has been printed. *)
Lemma C9_witness :
  generate [layer_missing] =
  (Uncaught KeyError,
   World
     [OList [VStr "intro"; VStr "missing"];
      ODict OrderedDict [("order", VRef 0); ("intro", VStr (" # Intro" +:+ nl))];
      ODict OrderedDict [("documentation", VRef 1)];
      ODict OrderedDict [("documentation", VRef 1)]]
     []
     [("qmk_firmware/docs/xap_0.0.1.md", "# Intro" +:+ nl +:+ nl)]).
Proof.
  refine (proj1 (C9_missing_section_is_uncaught no_repr dumps_tag str_strip
    "qmk_firmware" (fold_layer 10) [] layer_missing [] (None, [])
    (World [] [] []) (World [] [] [])
    (VRef 2)
    [OList [VStr "intro"; VStr "missing"];
     ODict OrderedDict [("order", VRef 0); ("intro", VStr (" # Intro" +:+ nl))];
     ODict OrderedDict [("documentation", VRef 1)]]
    (VRef 3)
    [OList [VStr "intro"; VStr "missing"];
     ODict OrderedDict [("order", VRef 0); ("intro", VStr (" # Intro" +:+ nl))];
     ODict OrderedDict [("documentation", VRef 1)];
     ODict OrderedDict [("documentation", VRef 1)]]
    eq_refl eq_refl eq_refl)
    _ OrderedDict [("documentation", VRef 1)] 1 OrderedDict
    [("order", VRef 0); ("intro", VStr (" # Intro" +:+ nl))] 0
    ["intro"] "missing" [] eq_refl eq_refl eq_refl eq_refl eq_refl eq_refl _ eq_refl).
  intros k Hk. exists (" # Intro" +:+ nl).
  apply list_elem_of_singleton in Hk. rewrite Hk. reflexivity.
Defined.

(** C9, as the specification words it, fails: the run for a layer with a
    missing section ends in an exception and has printed nothing. *)
Lemma C9_counterexample :
  (generate [("xap_0.0.1",
              od [("documentation", od [("order", TList [TStr "intro"])])])]).1
    = Uncaught KeyError /\
  stdout (generate [("xap_0.0.1",
              od [("documentation", od [("order", TList [TStr "intro"])])])]).2
    = [].
Proof. split; vm_compute; reflexivity. Qed.

(** ** One call for all layers, or one call per layer *)

Lemma vrel_mono (ρ ρ' : corr) v w :
  (∀ a b, ρ a b -> ρ' a b) -> vrel ρ v w -> vrel ρ' v w.
Proof. intros Hs [a b H|x H]; [apply vrel_ref; auto | by apply vrel_scalar]. Qed.

Lemma irel_mono (ρ ρ' : corr) x y :
  (∀ a b, ρ a b -> ρ' a b) -> irel ρ x y -> irel ρ' x y.
Proof. intros Hs [? ?]. split; [done|]. by eapply vrel_mono. Qed.

Lemma orel_mono (ρ ρ' : corr) o p :
  (∀ a b, ρ a b -> ρ' a b) -> orel ρ o p -> orel ρ' o p.
Proof.
  intros Hs [kind i j H|e f H]; constructor;
    (eapply Forall2_impl; [exact H|]); intros; simpl;
    eauto using vrel_mono, irel_mono.
Qed.

Lemma sim_lookup ρ h g a b :
  sim ρ h g -> ρ a b -> ∃ o p, h !! a = Some o ∧ g !! b = Some p ∧ orel ρ o p.
Proof. intros (H & _ & _). apply H. Qed.

Lemma sim_deref ρ h g v w :
  sim ρ h g -> vrel ρ v w ->
  (∃ o p, deref h v = Some o ∧ deref g w = Some p ∧ orel ρ o p) ∨
  (deref h v = None ∧ deref g w = None ∧ v = w ∧ is_scalar v).
Proof.
  intros Hs [a b H|x H].
  - left. simpl. by apply (sim_lookup ρ).
  - right. by destruct x.
Qed.

Lemma simulates_ret {A} (R : corr -> A -> A -> Prop) ρ h g x y :
  sim ρ h g -> R ρ x y -> simulates R ρ h g (ret x) (ret y).
Proof. intros Hs Hr. exists ρ. simpl. auto. Qed.

Lemma simulates_raise {A} (R : corr -> A -> A -> Prop) ρ h g e :
  sim ρ h g -> simulates R ρ h g (raise e) (raise e).
Proof. intros Hs. exists ρ. simpl. auto. Qed.

Lemma simulates_bind {A B} (R : corr -> A -> A -> Prop)
    (S : corr -> B -> B -> Prop) ρ h g (m n : M A) (k l : A -> M B) :
  simulates R ρ h g m n ->
  (∀ ρ' h' g' x y,
     (∀ a b, ρ a b -> ρ' a b) -> sim ρ' h' g' -> R ρ' x y ->
     simulates S ρ' h' g' (k x) (l y)) ->
  simulates S ρ h g (bind m k) (bind n l).
Proof.
  intros (ρ1 & Hsub & Hsim & Hout) Hk. unfold simulates, bind.
  destruct (m h) as [[x|e] h1], (n g) as [[y|e'] g1]; simpl in *; try done.
  - destruct (Hk ρ1 h1 g1 x y Hsub Hsim Hout) as (ρ2 & Hsub2 & Hsim2 & Hout2).
    exists ρ2. split_and!; auto.
  - exists ρ1. auto.
Qed.

(** Items that correspond have the same keys in the same order. *)
Lemma irel_keys ρ i j : Forall2 (irel ρ) i j -> keys i = keys j.
Proof.
  induction 1 as [|[k x] [k' y] i j [E _] _ IH]; simpl in *; [done|].
  by rewrite E, IH.
Qed.

Lemma irel_get ρ k i j :
  Forall2 (irel ρ) i j ->
  match dict_get k i, dict_get k j with
  | Some x, Some y => vrel ρ x y
  | None, None => True
  | _, _ => False
  end.
Proof.
  induction 1 as [|[k1 x] [k2 y] i j [E Hv] _ IH]; simpl in *; [done|].
  subst k2. by destruct (String.eqb k k1).
Qed.

Lemma irel_has ρ k i j : Forall2 (irel ρ) i j -> dict_has k i = dict_has k j.
Proof.
  intros H. apply (irel_get ρ k) in H. unfold dict_has.
  by destruct (dict_get k i), (dict_get k j).
Qed.

Lemma irel_set ρ k x y i j :
  Forall2 (irel ρ) i j -> vrel ρ x y ->
  Forall2 (irel ρ) (dict_set k x i) (dict_set k y j).
Proof.
  intros H Hv. induction H as [|[k1 x1] [k2 y1] i j [E Hv1] Hr IH]; simpl in *.
  - by repeat constructor.
  - subst k2. destruct (String.eqb k k1); constructor; auto; by split.
Qed.

Lemma irel_del ρ k i j :
  Forall2 (irel ρ) i j -> Forall2 (irel ρ) (dict_del k i) (dict_del k j).
Proof.
  induction 1 as [|[k1 x1] [k2 y1] i j [E Hv1] Hr IH]; simpl in *; [done|].
  subst k2. destruct (String.eqb k k1); [done|]. constructor; auto. by split.
Qed.

Lemma vrel_eq_str ρ x y s : vrel ρ x y -> eq_str x s = eq_str y s.
Proof. by intros [a b H|v H]. Qed.

(** Corresponding stores stay so when corresponding objects are replaced by
    corresponding objects. *)
Lemma sim_insert ρ h g a b o p :
  sim ρ h g -> ρ a b -> orel ρ o p -> sim ρ (<[a := o]> h) (<[b := p]> g).
Proof.
  intros (Hobj & Hfun & Hinj) Hab Hop. split_and!; [|done..].
  intros a' b' H'. destruct (Hobj _ _ H') as (o' & p' & Ha' & Hb' & Hr').
  destruct (decide (a' = a)) as [->|Hne].
  - assert (b' = b) as -> by eauto.
    exists o, p. split_and!; [| |done].
    + apply list_lookup_insert_eq. by eapply lookup_lt_Some.
    + apply list_lookup_insert_eq. by eapply lookup_lt_Some.
  - assert (b' ≠ b) by (intros ->; eauto).
    exists o', p'. split_and!; [| |done].
    + by rewrite list_lookup_insert_ne.
    + by rewrite list_lookup_insert_ne.
Qed.

Lemma sim_alloc ρ h g o p :
  sim ρ h g -> orel ρ o p ->
  sim (grow ρ (length h) (length g)) (h ++ [o]) (g ++ [p]).
Proof.
  intros (Hobj & Hfun & Hinj) Hop.
  assert (Hdom : ∀ a b, ρ a b -> a < length h ∧ b < length g).
  { intros a b H. destruct (Hobj _ _ H) as (? & ? & ? & ? & _).
    split; by eapply lookup_lt_Some. }
  assert (Hsub : ∀ a b, ρ a b -> grow ρ (length h) (length g) a b) by (by left).
  split_and!.
  - intros a b [H|[-> ->]].
    + destruct (Hobj _ _ H) as (o' & p' & Ha & Hb & Hr).
      exists o', p'. split_and!.
      * by apply lookup_app_l_Some.
      * by apply lookup_app_l_Some.
      * by eapply orel_mono.
    + exists o, p. split_and!.
      * by apply list_lookup_middle.
      * by apply list_lookup_middle.
      * by eapply orel_mono.
  - intros a b b' [H|[-> ->]] [H'|[E ->]]; eauto.
    + apply Hdom in H. lia.
    + apply Hdom in H'. lia.
  - intros a a' b [H|[-> ->]] [H'|[-> E]]; eauto.
    + apply Hdom in H. lia.
    + apply Hdom in H'. lia.
Qed.

Lemma alloc_sim ρ h g o p :
  sim ρ h g -> orel ρ o p -> simulates vrel ρ h g (alloc o) (alloc p).
Proof.
  intros Hs Hop. exists (grow ρ (length h) (length g)). simpl. split_and!.
  - by left.
  - by apply sim_alloc.
  - apply vrel_ref. by right.
Qed.

(** The Python operations of the merge take corresponding arguments to
    corresponding results. *)
Lemma contains_sim ρ h g s v w :
  sim ρ h g -> vrel ρ v w ->
  simulates same ρ h g (py_contains s v) (py_contains s w).
Proof.
  intros Hs Hv. exists ρ. split; [done|].
  destruct Hv as [a b H|x H].
  - destruct (sim_lookup _ _ _ _ _ Hs H) as (o & p & Ha & Hb & Hr).
    unfold py_contains. rewrite Ha, Hb.
    destruct Hr as [kind i j Hr|e f Hr]; simpl; split; auto.
    + unfold same. by eapply irel_has.
    + unfold same. clear Ha Hb. induction Hr as [|x y e f Hxy _ IH]; simpl; [done|].
      by rewrite IH, (vrel_eq_str _ _ _ _ Hxy).
  - unfold py_contains. destruct x; simpl; try done; split; auto; done.
Qed.

Lemma isinstance_OrderedDict_sim ρ h g v w :
  sim ρ h g -> vrel ρ v w ->
  simulates same ρ h g (isinstance_OrderedDict v) (isinstance_OrderedDict w).
Proof.
  intros Hs Hv. exists ρ. split; [done|]. unfold isinstance_OrderedDict.
  destruct (sim_deref _ _ _ _ _ Hs Hv) as [(o & p & -> & -> & Hr)|(-> & -> & _)];
    [|by simpl].
  destruct Hr as [[] i j Hr|e f Hr]; by simpl.
Qed.

Lemma isinstance_list_sim ρ h g v w :
  sim ρ h g -> vrel ρ v w ->
  simulates same ρ h g (isinstance_list v) (isinstance_list w).
Proof.
  intros Hs Hv. exists ρ. split; [done|]. unfold isinstance_list.
  destruct (sim_deref _ _ _ _ _ Hs Hv) as [(o & p & -> & -> & Hr)|(-> & -> & _)];
    [|by simpl].
  destruct Hr as [[] i j Hr|e f Hr]; by simpl.
Qed.

Lemma getitem_sim ρ h g v w k :
  sim ρ h g -> vrel ρ v w ->
  simulates vrel ρ h g (py_getitem v k) (py_getitem w k).
Proof.
  intros Hs Hv. exists ρ. split; [done|]. unfold py_getitem.
  destruct (sim_deref _ _ _ _ _ Hs Hv) as [(o & p & -> & -> & Hr)|(-> & -> & _)];
    [|by simpl].
  destruct Hr as [kind i j Hr|e f Hr]; [|by simpl].
  apply (irel_get ρ k) in Hr.
  by destruct (dict_get k i), (dict_get k j).
Qed.

Lemma setitem_sim ρ h g v w k x y :
  sim ρ h g -> vrel ρ v w -> vrel ρ x y ->
  simulates same ρ h g (py_setitem v k x) (py_setitem w k y).
Proof.
  intros Hs Hv Hx. exists ρ. split; [done|].
  destruct Hv as [a b H|z H]; [|by destruct z].
  destruct (sim_lookup _ _ _ _ _ Hs H) as (o & p & Ha & Hb & Hr).
  unfold py_setitem. rewrite Ha, Hb.
  destruct Hr as [kind i j Hr|e f Hr]; simpl; [|done].
  split; [|done]. apply sim_insert; auto. constructor. by apply irel_set.
Qed.

Lemma delitem_sim ρ h g v w k :
  sim ρ h g -> vrel ρ v w ->
  simulates same ρ h g (py_delitem v k) (py_delitem w k).
Proof.
  intros Hs Hv. exists ρ. split; [done|].
  destruct Hv as [a b H|z H]; [|by destruct z].
  destruct (sim_lookup _ _ _ _ _ Hs H) as (o & p & Ha & Hb & Hr).
  unfold py_delitem. rewrite Ha, Hb.
  destruct Hr as [kind i j Hr|e f Hr]; simpl; [|done].
  rewrite <- (irel_has _ k _ _ Hr). destruct (dict_has k i); simpl; [|done].
  split; [|done]. apply sim_insert; auto. constructor. by apply irel_del.
Qed.

Lemma first_sim ρ h g v w :
  sim ρ h g -> vrel ρ v w -> simulates vrel ρ h g (py_first v) (py_first w).
Proof.
  intros Hs Hv. exists ρ. split; [done|]. unfold py_first.
  destruct (sim_deref _ _ _ _ _ Hs Hv) as [(o & p & -> & -> & Hr)|(-> & -> & _)];
    [|by simpl].
  destruct Hr as [kind i j Hr|e f Hr]; [by simpl|].
  by destruct Hr.
Qed.

Lemma rest_sim ρ h g v w :
  sim ρ h g -> vrel ρ v w -> simulates vrel ρ h g (py_rest v) (py_rest w).
Proof.
  intros Hs Hv. unfold py_rest, simulates.
  destruct (sim_deref _ _ _ _ _ Hs Hv) as [(o & p & -> & -> & Hr)|(-> & -> & _)];
    [|by exists ρ].
  destruct Hr as [kind i j Hr|e f Hr]; [by exists ρ|].
  apply alloc_sim; [done|]. constructor. destruct Hr; simpl; auto.
Qed.

Lemma add_sim ρ h g x y v w :
  sim ρ h g -> vrel ρ x y -> vrel ρ v w ->
  simulates vrel ρ h g (py_add x v) (py_add y w).
Proof.
  intros Hs Hx Hv. unfold py_add, simulates.
  destruct (sim_deref _ _ _ _ _ Hs Hx) as [(o & p & -> & -> & Hr)|(-> & -> & _)];
    [|by exists ρ].
  destruct Hr as [kind i j Hr|e f Hr]; [by exists ρ|].
  destruct (sim_deref _ _ _ _ _ Hs Hv) as [(o' & p' & -> & -> & Hr')|(-> & -> & _)];
    [|by exists ρ].
  destruct Hr' as [kind i j Hr'|e' f' Hr']; [by exists ρ|].
  apply alloc_sim; [done|]. constructor. by apply Forall2_app.
Qed.

Lemma items_sim ρ h g v w :
  sim ρ h g -> vrel ρ v w ->
  simulates (fun ρ => Forall2 (irel ρ)) ρ h g (py_items v) (py_items w).
Proof.
  intros Hs Hv. exists ρ. split; [done|]. unfold py_items.
  destruct (sim_deref _ _ _ _ _ Hs Hv) as [(o & p & -> & -> & Hr)|(-> & -> & _)];
    [|by simpl].
  by destruct Hr as [kind i j Hr|e f Hr].
Qed.

Ltac carry Hsub :=
  repeat match goal with
  | H : vrel _ _ _ |- _ => apply (vrel_mono _ _ _ _ Hsub) in H
  end.

Ltac step lem :=
  eapply simulates_bind; [eapply lem; eauto|];
  let ρ' := fresh "ρ" in
  let h' := fresh "h" in
  let g' := fresh "g" in
  let x := fresh "x" in
  let y := fresh "y" in
  let Hsub := fresh "Hsub" in
  let Hs := fresh "Hs" in
  let Hr := fresh "Hr" in
  intros ρ' h' g' x y Hsub Hs Hr; carry Hsub; clear Hsub;
  try (unfold same in Hr; subst y).

(** [add_entry] on corresponding targets and values. *)
Lemma add_entry_sim (merge merge' : list value -> M value) ρ h g t t' k v v' :
  (∀ ρ h g ds ds',
     sim ρ h g -> Forall2 (vrel ρ) ds ds' ->
     simulates vrel ρ h g (merge ds) (merge' ds')) ->
  sim ρ h g -> vrel ρ t t' -> vrel ρ v v' ->
  simulates same ρ h g (add_entry merge t k v) (add_entry merge' t' k v').
Proof.
  intros Hm Hs Ht Hv. unfold add_entry.
  step contains_sim. rename x into present.
  step isinstance_OrderedDict_sim. rename x into is_dict.
  destruct (present && is_dict).
  - eapply simulates_bind with (R := same).
    + step contains_sim. rename x into reset.
      destruct reset.
      * eapply setitem_sim; eauto.
      * step getitem_sim. rename x into old, y into old'.
        eapply simulates_bind; [eapply Hm; eauto|].
        intros ρb hb gb merged merged' Hsub Hsb Hrb. carry Hsub.
        eapply setitem_sim; eauto.
    + intros ρa ha ga [] [] Hsub Hsa _. carry Hsub. clear Hsub.
      step getitem_sim. rename x into cur, y into cur'.
      step contains_sim. rename x into reset'.
      destruct reset'.
      * eapply delitem_sim; eauto.
      * by apply simulates_ret.
  - step isinstance_list_sim. rename x into is_list.
    destruct (present && is_list).
    + step first_sim. rename x into first, y into first'.
      match goal with
      | H : vrel _ first first' |- _ => rewrite <- (vrel_eq_str _ _ _ RESET H)
      end.
      destruct (eq_str first RESET).
      * step rest_sim. eapply setitem_sim; eauto.
      * step getitem_sim. step add_sim. eapply setitem_sim; eauto.
    + eapply setitem_sim; eauto.
Qed.

Lemma for_each_sim {A} (R : corr -> A -> A -> Prop) (body body' : A -> M unit) :
  (∀ ρ ρ' x y, (∀ a b, ρ a b -> ρ' a b) -> R ρ x y -> R ρ' x y) ->
  ∀ l l' ρ h g,
    Forall2 (R ρ) l l' ->
    (∀ ρ' h' g' x y,
       (∀ a b, ρ a b -> ρ' a b) -> sim ρ' h' g' -> R ρ' x y ->
       simulates same ρ' h' g' (body x) (body' y)) ->
    sim ρ h g ->
    simulates same ρ h g (for_each l body) (for_each l' body').
Proof.
  intros Hmono l. induction l as [|x l IH]; intros l' ρ h g Hl Hb Hs.
  - apply Forall2_nil_inv_l in Hl as ->. by apply simulates_ret.
  - apply Forall2_cons_inv_l in Hl as (y & l1 & Hxy & Hl & ->). simpl.
    eapply simulates_bind; [apply Hb; auto|].
    intros ρ1 h1 g1 [] [] Hsub Hs1 _.
    apply IH; [| |done].
    + eapply Forall2_impl; [exact Hl|]. intros. by eapply Hmono.
    + intros ρ2 h2 g2 x2 y2 Hsub2 Hs2 Hr2. apply Hb; auto.
Qed.

Lemma merge_into_sim (merge merge' : list value -> M value) ρ h g t t' d d' :
  (∀ ρ h g ds ds',
     sim ρ h g -> Forall2 (vrel ρ) ds ds' ->
     simulates vrel ρ h g (merge ds) (merge' ds')) ->
  sim ρ h g -> vrel ρ t t' -> vrel ρ d d' ->
  simulates same ρ h g (merge_into merge t d) (merge_into merge' t' d').
Proof.
  intros Hm Hs Ht Hd. unfold merge_into.
  eapply simulates_bind; [eapply items_sim; eauto|].
  intros ρ1 h1 g1 items items' Hsub Hs1 Hi. carry Hsub.
  eapply (for_each_sim irel); [|exact Hi| |done].
  - intros. by eapply irel_mono.
  - intros ρ2 h2 g2 [k x] [k' y] Hsub2 Hs2 [E Hxy]. simpl in *. subst k'.
    carry Hsub2. by apply add_entry_sim.
Qed.

(** The merge takes corresponding dicts to corresponding results. *)
Lemma merge_sim limit :
  ∀ ρ h g ds ds',
    sim ρ h g -> Forall2 (vrel ρ) ds ds' ->
    simulates vrel ρ h g (_merge_ordered_dicts limit ds)
      (_merge_ordered_dicts limit ds').
Proof.
  induction limit as [|limit IH]; intros ρ h g ds ds' Hs Hds; simpl.
  - by apply simulates_raise.
  - eapply simulates_bind; [apply alloc_sim; [done|]; constructor; constructor|].
    intros ρ1 h1 g1 result result' Hsub Hs1 Hr.
    eapply simulates_bind with (R := same).
    + eapply (for_each_sim vrel); [| | |done].
      * intros. by eapply vrel_mono.
      * eapply Forall2_impl; [exact Hds|]. intros. by eapply vrel_mono.
      * intros ρ2 h2 g2 d d' Hsub2 Hs2 Hd. carry Hsub2.
        by apply merge_into_sim.
    + intros ρ2 h2 g2 [] [] Hsub2 Hs2 _. carry Hsub2.
      by apply simulates_ret.
Qed.

(** Corresponding values read as the same document. *)
Lemma map_sim {A B} (R : A -> A -> Prop) (f f' : A -> B) l l' :
  Forall2 R l l' -> (∀ x y, R x y -> f x = f' y) -> map f l = map f' l'.
Proof.
  intros H Hf. induction H as [|x y l l' Hxy _ IH]; simpl; [done|].
  by rewrite IH, (Hf x y Hxy).
Qed.

Lemma reify_sim ρ h g :
  sim ρ h g -> ∀ depth v w, vrel ρ v w -> reify depth h v = reify depth g w.
Proof.
  intros Hs. induction depth as [|depth IH]; intros v w [a b H|x Hx].
  - done.
  - by destruct x.
  - destruct (sim_lookup _ _ _ _ _ Hs H) as (o & p & Ha & Hb & Hr).
    simpl. rewrite Ha, Hb. destruct Hr as [kind i j Hr|e f Hr].
    + do 2 f_equal. apply (map_sim (irel ρ)); [done|].
      intros [k x] [k' y] [E Hxy]. simpl in *. subst k'.
      by rewrite (IH x y Hxy).
    + do 2 f_equal. by apply (map_sim (vrel ρ)).
  - by destruct x.
Qed.

Lemma vrel_remap ρ r r' x y :
  vrel ρ x y -> x ≠ VRef r -> vrel (remap ρ r r') x y.
Proof.
  intros [a b H|v H] Hne; [|by apply vrel_scalar].
  apply vrel_ref. right. split; [|done]. by intros ->.
Qed.

Lemma orel_remap ρ r r' o p :
  orel ρ o p -> VRef r ∉ obj_values o -> orel (remap ρ r r') o p.
Proof.
  intros [kind i j H|e f H] Hn; simpl in Hn; constructor.
  - induction H as [|[k x] [k' y] i j [E Hxy] _ IH]; [done|].
    unfold values in Hn. simpl in Hn. apply not_elem_of_cons in Hn as [Hx Hn].
    constructor; [|by apply IH].
    split; [done|]. simpl in *. apply vrel_remap; [done|]. by intros ->.
  - induction H as [|x y e f Hxy _ IH]; [done|].
    apply not_elem_of_cons in Hn as [Hx Hn].
    constructor; [|by apply IH].
    apply vrel_remap; [done|]. by intros ->.
Qed.

Lemma sim_remap ρ h g r r0 its :
  sim ρ h g -> ρ r r0 -> private r h ->
  h !! r = Some (ODict OrderedDict its) ->
  ∃ its', g !! r0 = Some (ODict OrderedDict its') ∧ keys its' = keys its ∧
          sim (remap ρ r (length g)) h (g ++ [ODict OrderedDict its']).
Proof.
  intros Hs Hr Hp Hr1.
  assert (Hfree : ∀ a o, h !! a = Some o -> VRef r ∉ obj_values o).
  { intros a o Ha Hin. apply Hp. by eapply held_lookup. }
  destruct (sim_lookup _ _ _ _ _ Hs Hr) as (o & p & Ha & Hb & Hop).
  rewrite Hr1 in Ha. injection Ha as <-.
  inversion Hop as [kind i its' Hi|]; subst.
  exists its'. split_and!; [done|symmetry; by eapply irel_keys|].
  destruct Hs as (Hobj & Hfun & Hinj).
  assert (Hdom : ∀ a b, ρ a b -> b < length g).
  { intros a b H. destruct (Hobj _ _ H) as (? & ? & ? & ? & _).
    by eapply lookup_lt_Some. }
  split_and!.
  - intros a b [[-> ->]|[Hne H]].
    + exists (ODict OrderedDict its), (ODict OrderedDict its').
      split_and!; [done|by apply list_lookup_middle|].
      apply orel_remap; [done|]. by eapply Hfree.
    + destruct (Hobj _ _ H) as (o & p & Ha & Hb' & Hr').
      exists o, p. split_and!; [done|by apply lookup_app_l_Some|].
      apply orel_remap; [done|]. by eapply Hfree.
  - intros a b b' [[-> ->]|[Hne H]] [[E ->]|[Hne' H']]; try done. eauto.
  - intros a a' b [[-> ->]|[Hne H]] [[-> E]|[Hne' H']]; try done.
    + apply Hdom in H'. lia.
    + apply Hdom in H. lia.
    + eauto.
Qed.

(** A call with the result so far and one more layer: the result so far is
    copied, then the layer is entered. *)
Lemma merge_pair limit g a ka ia layer :
  NoDup (keys ia) -> g !! a = Some (ODict ka ia) ->
  _merge_ordered_dicts (S limit) [VRef a; layer] g
  = match merge_into (_merge_ordered_dicts limit) (VRef (length g)) layer
            (g ++ [ODict OrderedDict ia]) with
    | (Returned _, g') => (Returned (VRef (length g)), g')
    | (Raised e, g') => (Raised e, g')
    end.
Proof.
  intros Hnd Ha. simpl. unfold bind at 1 2 3. unfold alloc.
  unfold merge_into at 1. unfold bind at 1. unfold py_items. simpl.
  rewrite lookup_app_l by (by eapply lookup_lt_Some). rewrite Ha.
  rewrite (entries_copy _ _ OrderedDict _ _ []); [| |done|].
  - simpl. rewrite insert_last. unfold bind.
    destruct (merge_into _ _ _ _) as [[[]|e] hx]; done.
  - by rewrite list_lookup_middle.
  - intros. apply not_elem_of_nil.
Qed.

Lemma closed_not_fresh n r v : closed_val n v -> n ≤ r -> v ≠ VRef r.
Proof. intros Hc Hn ->. simpl in Hc. lia. Qed.

Lemma fold_layers_cons limit existing layer rest g :
  fold_layers limit existing (layer :: rest) g
  = match fold_layer limit existing layer g with
    | (Returned merged, g') => fold_layers limit (Some merged) rest g'
    | (Raised e, g') => (Raised e, g')
    end.
Proof. reflexivity. Qed.

(** After the first layer: the call for all layers goes on with its result
    [r], the fold hands its result [r'] to the next call. *)
Lemma fold_rest_sim limit n0 layers :
  Forall (closed_val n0) layers ->
  ∀ ρ h g r r' its o1 h' o2 g',
    heap_ok h -> n0 ≤ r ->
    h !! r = Some (ODict OrderedDict its) -> private r h ->
    sim ρ h g -> (∀ a, a < n0 -> ρ a a) -> ρ r r' ->
    for_each layers (merge_into (_merge_ordered_dicts limit) (VRef r)) h
      = (o1, h') ->
    fold_layers (S limit) (Some (VRef r')) layers g = (o2, g') ->
    ∃ ρ', sim ρ' h' g' ∧ (∀ a, a < n0 -> ρ' a a) ∧
      match o1, o2 with
      | Returned _, Returned (Some w) => vrel ρ' (VRef r) w
      | Raised e, Raised e' => e = e'
      | _, _ => False
      end.
Proof.
  induction 1 as [|layer rest Hc Hrest IH];
    intros ρ h g r r' its o1 h' o2 g' Hok Hn Hr Hp Hs Hid Hrr H1 H2.
  - injection H1 as <- <-. injection H2 as <- <-.
    exists ρ. split_and!; auto. by apply vrel_ref.
  - rewrite for_each_cons in H1. rewrite fold_layers_cons in H2.
    unfold fold_layer in H2.
    destruct (sim_remap _ _ _ _ _ _ Hs Hrr Hp Hr) as (its' & Hg & Hk & Hs1).
    assert (Hnd : NoDup (keys its')).
    { rewrite Hk. by destruct (heap_ok_lookup _ _ _ Hok Hr) as [_ ?]. }
    rewrite (merge_pair limit g r' OrderedDict its' layer Hnd Hg) in H2.
    pose proof (lookup_lt_Some _ _ _ Hr) as Hlt.
    assert (Hl : vrel (remap ρ r (length g)) layer layer).
    { destruct layer as [| | | | |a]; try (by apply vrel_scalar).
      simpl in Hc. apply vrel_ref. right. split; [lia|]. by apply Hid. }
    destruct (merge_into_sim (_merge_ordered_dicts limit)
      (_merge_ordered_dicts limit) (remap ρ r (length g)) h
      (g ++ [ODict OrderedDict its']) (VRef r) (VRef (length g)) layer layer
      (merge_sim limit) Hs1) as (ρ2 & Hsub & Hs2 & Hout); [|done|].
    { apply vrel_ref. by left. }
    destruct (merge_into _ (VRef r) layer h) as [[[]|e] h2] eqn:E1;
      destruct (merge_into _ (VRef (length g)) layer _) as [[[]|e'] g2] eqn:E2;
      simpl in Hout, Hs2; try done.
    + destruct (merge_into_spec (_merge_ordered_dicts limit) r OrderedDict its
        layer h (Returned tt) h2 (merge_spec_holds limit) Hok Hr Hp)
        as (Hok2 & Hlen2 & _ & _ & Hp2 & its2 & Hr2).
      { eapply closed_val_mono; [|exact Hc]. lia. }
      { by eapply closed_not_fresh. }
      { exact E1. }
      apply (IH ρ2 h2 g2 r (length g) its2 o1 h' o2 g'); auto.
      * intros a Ha. apply Hsub. right. split; [lia|]. by apply Hid.
      * apply Hsub. by left.
    + injection H1 as <- <-. injection H2 as <- <-.
      exists ρ2. split_and!; auto.
      intros a Ha. apply Hsub. right. split; [lia|]. by apply Hid.
Qed.

Lemma vrel_refl_all ρ elems :
  Forall (fun v => vrel ρ v v) elems -> Forall2 (vrel ρ) elems elems.
Proof. induction 1; by constructor. Qed.

Lemma irel_refl_all ρ items :
  Forall (fun v => vrel ρ v v) (values items) -> Forall2 (irel ρ) items items.
Proof.
  induction items as [|[k x] items IH]; intros H; [done|].
  unfold values in H. simpl in H. apply Forall_cons in H as [Hx H].
  constructor; [by split|by apply IH].
Qed.

Lemma sim_refl h : heap_ok h -> sim (fun a b => a = b ∧ a < length h) h h.
Proof.
  intros Hok. split_and!.
  - intros a b [<- Ha]. apply lookup_lt_is_Some_2 in Ha as [o Ho].
    exists o, o. split_and!; [done..|].
    destruct (heap_ok_lookup _ _ _ Hok Ho) as [Hcl _].
    assert (Hv : ∀ v, closed_val (length h) v ->
                      vrel (fun a b => a = b ∧ a < length h) v v).
    { intros [| | | | |c] Hc; try (by apply vrel_scalar).
      apply vrel_ref. split; [done|exact Hc]. }
    destruct o as [kind items|elems]; simpl in Hcl; constructor.
    + apply irel_refl_all. eapply Forall_impl; [exact Hcl|]. exact Hv.
    + apply vrel_refl_all. eapply Forall_impl; [exact Hcl|]. exact Hv.
  - by intros a b b' [<- _] [<- _].
  - by intros a a' b [-> _] [-> _].
Qed.

(** C6.  One call of [_merge_ordered_dicts] for all layers and the fold of
    the specification, one call per layer with the result so far as the
    first argument, end the same way: with the same exception, or with
    results that read as the same document to every depth.  Whatever was in
    the store before reads the same after both as well, so both leave the
    layers in the same state. *)
Theorem C6_one_call_is_left_fold limit h layer layers o1 h1 o2 g1 :
  heap_ok h -> Forall (closed_val (length h)) (layer :: layers) ->
  _merge_ordered_dicts limit (layer :: layers) h = (o1, h1) ->
  fold_layers limit None (layer :: layers) h = (o2, g1) ->
  match o1, o2 with
  | Returned r, Returned (Some r') =>
      ∀ depth, reify depth h1 r = reify depth g1 r'
  | Raised e, Raised e' => e = e'
  | _, _ => False
  end ∧
  ∀ depth v, closed_val (length h) v -> reify depth h1 v = reify depth g1 v.
Proof.
  intros Hok Hcl H1 H2. apply Forall_cons in Hcl as [Hc Hcl].
  destruct limit as [|limit].
  - injection H1 as <- <-. injection H2 as <- <-. done.
  - rewrite fold_layers_cons in H2. unfold fold_layer in H2.
    change (_merge_ordered_dicts (S limit) (layer :: layers) h) with
      (let '(o, h') := for_each (layer :: layers)
           (merge_into (_merge_ordered_dicts limit) (VRef (length h)))
           (h ++ [ODict OrderedDict []]) in
       match o with
       | Returned _ => (Returned (VRef (length h)), h')
       | Raised e => (Raised e, h')
       end) in H1.
    change (_merge_ordered_dicts (S limit) [layer] h) with
      (let '(o, h') := for_each [layer]
           (merge_into (_merge_ordered_dicts limit) (VRef (length h)))
           (h ++ [ODict OrderedDict []]) in
       match o with
       | Returned _ => (Returned (VRef (length h)), h')
       | Raised e => (Raised e, h')
       end) in H2.
    rewrite for_each_cons in H1. rewrite for_each_cons in H2.
    set (r := length h) in *. set (h0 := h ++ [ODict OrderedDict []]) in *.
    assert (Hok0 : heap_ok h0).
    { apply heap_ok_alloc; [done|]. split; simpl; constructor. }
    assert (Hr0 : h0 !! r = Some (ODict OrderedDict [])).
    { unfold h0, r. by rewrite list_lookup_middle. }
    assert (Hp0 : private r h0).
    { intros Hh. apply held_alloc in Hh as [Hh|Hh].
      - by apply closed_private in Hh.
      - by apply elem_of_nil in Hh. }
    assert (Hlen0 : length h0 = S r).
    { unfold h0. rewrite length_app. simpl. unfold r. lia. }
    destruct (merge_into _ (VRef r) layer h0) as [[[]|e] h2] eqn:E.
    + destruct (merge_into_spec (_merge_ordered_dicts limit) r OrderedDict []
        layer h0 (Returned tt) h2 (merge_spec_holds limit) Hok0 Hr0 Hp0)
        as (Hok2 & Hlen2 & _ & _ & Hp2 & its2 & Hr2).
      { eapply closed_val_mono; [|exact Hc]. lia. }
      { by eapply closed_not_fresh. }
      { exact E. }
      simpl in H2.
      destruct (for_each layers _ h2) as [x h3] eqn:E1.
      destruct (fold_rest_sim limit r layers Hcl _ h2 h2 r r its2 x h3 o2 g1
        Hok2 (le_n _) Hr2 Hp2 (sim_refl h2 Hok2)) as (ρ & Hs & Hid & Hout);
        [intros; split; [done|lia] | split; [done|lia] | done | exact H2 | ].
      assert (Hold : ∀ depth v, closed_val r v ->
                                reify depth h3 v = reify depth g1 v).
      { intros depth v Hv. apply (reify_sim ρ); [done|].
        destruct v as [| | | | |a]; try (by apply vrel_scalar).
        apply vrel_ref. by apply Hid. }
      destruct x as [[]|e]; injection H1 as <- <-.
      * destruct o2 as [[w|]|e']; try done. split; [|done].
        intros depth. by apply (reify_sim ρ).
      * destruct o2 as [w|e']; try done.
    + simpl in H2. injection H1 as <- <-. injection H2 as <- <-. done.
Qed.

Example one_call_three_layers :
  let '(out, h) := _merge_ordered_dicts 5 [VRef 3; VRef 7; VRef 11] store_three in
  out = Returned (VRef 12) ∧ reify 4 h (VRef 12) = Some merged_three.
Proof. vm_compute. done. Qed.

Example fold_three_layers :
  let '(out, h) := fold_layers 5 None [VRef 3; VRef 7; VRef 11] store_three in
  out = Returned (Some (VRef 17)) ∧ reify 4 h (VRef 17) = Some merged_three.
Proof. vm_compute. done. Qed.

(** C6 on [store_three]: the result of the one call, at address 12, and the
    result of the fold, at address 17, read the same. *)
Lemma C6_witness :
  (∀ depth,
     reify depth (_merge_ordered_dicts 5 [VRef 3; VRef 7; VRef 11] store_three).2
       (VRef 12)
     = reify depth (fold_layers 5 None [VRef 3; VRef 7; VRef 11] store_three).2
         (VRef 17)) ∧
  (∀ depth v, closed_val 12 v ->
     reify depth (_merge_ordered_dicts 5 [VRef 3; VRef 7; VRef 11] store_three).2 v
     = reify depth (fold_layers 5 None [VRef 3; VRef 7; VRef 11] store_three).2 v).
Proof.
  apply (C6_one_call_is_left_fold 5 store_three (VRef 3) [VRef 7; VRef 11]
           (Returned (VRef 12))
           (_merge_ordered_dicts 5 [VRef 3; VRef 7; VRef 11] store_three).2
           (Returned (Some (VRef 17)))
           (fold_layers 5 None [VRef 3; VRef 7; VRef 11] store_three).2).
  - compute_done.
  - repeat constructor; simpl; lia.
  - vm_compute. reflexivity.
  - vm_compute. reflexivity.
Defined.

(** ** More on the merge of two trees *)

(** X1.  A key of the incoming tree that holds a plain value (no list, no
    dict).  When the merge returns, the result holds that value at the key,
    whatever the existing tree had there, if anything.  When the merge
    raises, the recursion limit was used up or the entry of another key
    raised. *)
Theorem plain_value_overrides limit h a ka ia b kb ib k v out h' :
  heap_ok h ->
  h !! a = Some (ODict ka ia) -> h !! b = Some (ODict kb ib) ->
  dict_get k ib = Some v -> is_scalar v ->
  _merge_ordered_dicts limit [VRef a; VRef b] h = (out, h') ->
  match out with
  | Returned r =>
      ∃ items,
        deref h' r = Some (ODict OrderedDict items) ∧ dict_get k items = Some v
  | Raised e =>
      (limit = 0 ∧ e = RecursionError) ∨
      ∃ n, limit = S n ∧
           raised_elsewhere (_merge_ordered_dicts n) (length h) k v ib
             (h ++ [ODict OrderedDict ia]) e h'
  end.
Proof.
  intros Hok Ha Hb Hkb Hv H.
  destruct limit as [|n].
  { injection H as <- _. by left. }
  destruct out as [r|e].
  - destruct (merge_two_returned _ _ _ _ _ _ _ _ _ _ _ _ Hok Ha Hb Hkb H)
      as (-> & pre & post & h1 & h2 & its1 & its2 & its' & Eib & Hpre & Ht1 & Hk1
          & Hstep & Ht2 & Hpost & Ht' & Hk').
    rewrite (add_entry_scalar _ _ _ _ _ _ _ Ht1 Hv) in Hstep. injection Hstep as <-.
    rewrite list_lookup_insert_eq in Ht2 by (by eapply lookup_lt_Some).
    injection Ht2 as <-. rewrite dict_get_set_eq in Hk'.
    exists its'. by split.
  - right. exists n. split; [done|].
    destruct (merge_two_raised _ _ _ _ _ _ _ _ _ _ _ _ Hok Ha Hb Hkb H)
      as (pre & post & Eib & Hcase).
    exists pre, post. split; [done|].
    destruct (entered _ _ pre _) as [[[]|e1] h1] eqn:Hpre.
    + destruct Hcase as (Hpost & (its1 & Ht1 & Hk1) & Hstep).
      rewrite (add_entry_scalar _ _ _ _ _ _ _ Ht1 Hv) in Hstep.
      right. eexists _, _. split_and!; [done| |exact Hstep].
      by rewrite (add_entry_scalar _ _ _ _ _ _ _ Ht1 Hv).
    + destruct Hcase as [-> ->]. by left.
Qed.

(** Deleting sentinels does not turn a list into a dict, or a dict into a
    list. *)
Lemma frame_kinds (P : addr -> Prop) t (hs h1 : heap) v :
  (∀ a o, a ≠ t -> hs !! a = Some o ->
     h1 !! a = Some o ∨ (h1 !! a = Some (strip o) ∧ P a)) ->
  closed_val (length hs) v -> v ≠ VRef t ->
  holds_list h1 v = holds_list hs v ∧ holds_dict h1 v = holds_dict hs v.
Proof.
  intros Hfr Hc Hne. destruct v as [| | | | |x]; try done.
  simpl in Hc. apply lookup_lt_is_Some_2 in Hc as [o Ho].
  assert (Hx : x ≠ t) by (by intros ->).
  unfold holds_list, holds_dict. simpl. rewrite Ho.
  destruct (Hfr x o Hx Ho) as [->|[-> _]]; [done|]. by destruct o.
Qed.

Lemma existing_value_closed h a ka ia k old :
  heap_ok h -> h !! a = Some (ODict ka ia) -> dict_get k ia = Some old ->
  closed_val (length h) old.
Proof.
  intros Hok Ha Hk. destruct (heap_ok_lookup _ _ _ Hok Ha) as [Hc _].
  simpl in Hc. eapply Forall_forall in Hc; [exact Hc|].
  apply list_elem_of_fmap. exists (k, old). split; [done|].
  by apply dict_get_elem.
Qed.

(** What the existing value is when the loop comes to the key: as before the
    merge, a list, a dict or neither. *)
Lemma existing_kind_kept h a ka ia pre h1 k old :
  heap_ok h -> h !! a = Some (ODict ka ia) -> dict_get k ia = Some old ->
  entries_post (length h) OrderedDict ia pre (h ++ [ODict OrderedDict ia]) h1 ->
  holds_list h1 old = holds_list h old ∧ holds_dict h1 old = holds_dict h old.
Proof.
  intros Hok Ha Hk (_ & _ & Hfr & _).
  pose proof (existing_value_closed _ _ _ _ _ _ Hok Ha Hk) as Hc.
  destruct (frame_kinds _ _ _ _ old Hfr) as [E1 E2].
  - rewrite length_app. simpl. eapply closed_val_mono; [|exact Hc]. lia.
  - intros ->. simpl in Hc. lia.
  - rewrite E1, E2. unfold holds_list, holds_dict.
    destruct old as [| | | | |x]; try done. simpl in *.
    by rewrite lookup_app_l.
Qed.

(** [v[0] == '!reset!'] under a key of the target: [target[k] = v[1:]],
    whatever the target had. *)
Lemma add_entry_list_reset merge t k lb h kd its x rest :
  h !! t = Some (ODict kd its) -> dict_has k its = true ->
  h !! lb = Some (OList (x :: rest)) -> eq_str x RESET = true ->
  add_entry merge (VRef t) k (VRef lb) h
  = (Returned tt,
     <[t := ODict kd (dict_set k (VRef (length h)) its)]> (h ++ [OList rest])).
Proof.
  intros Ht Hk Hlb Hx.
  assert (Htl : t < length h) by (by eapply lookup_lt_Some).
  unfold add_entry, bind, py_contains, py_setitem, isinstance_OrderedDict,
    isinstance_list, py_first, py_rest, alloc.
  repeat (progress (simpl; rewrite ?Ht, ?Hk, ?Hlb, ?Hx)).
  by rewrite lookup_app_l, Ht.
Qed.

(** [target[k] + v] with a [target[k]] that is no list. *)
Lemma add_entry_append_mismatch merge t k lb h kd its old x rest :
  h !! t = Some (ODict kd its) -> dict_get k its = Some old ->
  holds_list h old = false ->
  h !! lb = Some (OList (x :: rest)) -> eq_str x RESET = false ->
  add_entry merge (VRef t) k (VRef lb) h = (Raised TypeError, h).
Proof.
  intros Ht Hk Hold Hlb Hx.
  assert (Hk' : dict_has k its = true) by (unfold dict_has; by rewrite Hk).
  unfold add_entry, bind, py_contains, py_setitem, py_getitem,
    isinstance_OrderedDict, isinstance_list, py_first, py_add.
  repeat (progress (simpl; rewrite ?Ht, ?Hk', ?Hlb, ?Hx, ?Hk)).
  unfold holds_list in Hold. by destruct (deref h old) as [[]|].
Qed.

(** A list of the store is a list of the store when the loop comes to the
    key. *)
Lemma list_kept h ia pre h1 l e :
  h !! l = Some (OList e) ->
  entries_post (length h) OrderedDict ia pre (h ++ [ODict OrderedDict ia]) h1 ->
  h1 !! l = Some (OList e).
Proof.
  intros Hl (_ & _ & Hfr & _).
  pose proof (lookup_lt_Some _ _ _ Hl) as Hlt.
  assert (Hls : (h ++ [ODict OrderedDict ia]) !! l = Some (OList e)).
  { by apply lookup_app_l_Some. }
  eapply frame_list; [exact Hls|]. apply Hfr; [lia|done].
Qed.

(** X2.  The incoming tree holds a non-empty sequence at a key where the
    existing tree holds something that is no sequence.  The merge returns only
    when the sequence starts with the token ["!reset!"], and then the result
    holds at the key a new sequence, the incoming one without that token.
    Without the token, [target[k] + v] raises [TypeError], unless the
    recursion limit or the entry of another key ended the merge before. *)
Theorem sequence_onto_other limit h a ka ia b kb ib k old lb x rest out h' :
  heap_ok h ->
  h !! a = Some (ODict ka ia) -> h !! b = Some (ODict kb ib) ->
  dict_get k ia = Some old -> holds_list h old = false ->
  dict_get k ib = Some (VRef lb) -> h !! lb = Some (OList (x :: rest)) ->
  _merge_ordered_dicts limit [VRef a; VRef b] h = (out, h') ->
  match out with
  | Returned r =>
      eq_str x RESET = true ∧
      ∃ items l,
        deref h' r = Some (ODict OrderedDict items) ∧
        dict_get k items = Some (VRef l) ∧
        h' !! l = Some (OList rest)
  | Raised e =>
      (limit = 0 ∧ e = RecursionError) ∨
      (eq_str x RESET = false ∧ e = TypeError) ∨
      ∃ n, limit = S n ∧
           raised_elsewhere (_merge_ordered_dicts n) (length h) k (VRef lb) ib
             (h ++ [ODict OrderedDict ia]) e h'
  end.
Proof.
  intros Hok Ha Hb Hka Hold Hkb Hlb H.
  destruct limit as [|n].
  { injection H as <- _. by left. }
  destruct out as [r|e].
  - destruct (merge_two_returned _ _ _ _ _ _ _ _ _ _ _ _ Hok Ha Hb Hkb H)
      as (-> & pre & post & h1 & h2 & its1 & its2 & its' & Eib & Hpre & Ht1 & Hk1
          & Hstep & Ht2 & Hpost & Ht' & Hk').
    pose proof (list_kept _ _ _ _ _ _ Hlb Hpre) as Hlb1.
    destruct (existing_kind_kept _ _ _ _ _ _ _ _ Hok Ha Hka Hpre) as [Hold1 _].
    rewrite Hold in Hold1. rewrite Hka in Hk1.
    assert (Hk1' : dict_has k its1 = true) by (unfold dict_has; by rewrite Hk1).
    destruct (eq_str x RESET) eqn:Hx.
    + rewrite (add_entry_list_reset _ _ _ _ _ _ _ _ _ Ht1 Hk1' Hlb1 Hx) in Hstep.
      injection Hstep as <-. split; [done|].
      assert (Htlt : length h < length h1) by (by eapply lookup_lt_Some).
      rewrite list_lookup_insert_eq in Ht2 by (rewrite length_app; lia).
      injection Ht2 as <-. rewrite dict_get_set_eq in Hk'.
      exists its', (length h1). split_and!; [done..|].
      destruct Hpost as (_ & _ & Hfr & _).
      assert (Hl : <[length h := ODict OrderedDict (dict_set k (VRef (length h1)) its1)]>
                     (h1 ++ [OList rest]) !! length h1 = Some (OList rest)).
      { rewrite list_lookup_insert_ne by lia. by rewrite list_lookup_middle. }
      eapply frame_list; [exact Hl|]. apply Hfr; [lia|done].
    + by rewrite (add_entry_append_mismatch _ _ _ _ _ _ _ _ _ _ Ht1 Hk1 Hold1 Hlb1 Hx)
        in Hstep.
  - right.
    destruct (merge_two_raised _ _ _ _ _ _ _ _ _ _ _ _ Hok Ha Hb Hkb H)
      as (pre & post & Eib & Hcase).
    destruct (entered _ _ pre _) as [[[]|e1] h1] eqn:Hpre.
    + destruct Hcase as (Hpost & (its1 & Ht1 & Hk1) & Hstep).
      pose proof (list_kept _ _ _ _ _ _ Hlb Hpost) as Hlb1.
      destruct (existing_kind_kept _ _ _ _ _ _ _ _ Hok Ha Hka Hpost) as [Hold1 _].
      rewrite Hold in Hold1. rewrite Hka in Hk1.
      assert (Hk1' : dict_has k its1 = true) by (unfold dict_has; by rewrite Hk1).
      destruct (eq_str x RESET) eqn:Hx.
      * rewrite (add_entry_list_reset _ _ _ _ _ _ _ _ _ Ht1 Hk1' Hlb1 Hx) in Hstep.
        right. exists n. split; [done|]. exists pre, post. split; [done|]. right.
        eexists _, _. split_and!; [done| |exact Hstep].
        by rewrite (add_entry_list_reset _ _ _ _ _ _ _ _ _ Ht1 Hk1' Hlb1 Hx).
      * rewrite (add_entry_append_mismatch _ _ _ _ _ _ _ _ _ _ Ht1 Hk1 Hold1 Hlb1 Hx)
          in Hstep.
        destruct Hstep as [-> _]. by left.
    + destruct Hcase as [-> ->]. right. exists n. split; [done|].
      exists pre, post. split; [done|]. by left.
Qed.

(** The recursive call on a [target[k]] that is no dict: [d.items()] fails
    on it. *)
Lemma add_entry_dict_mismatch m t k sb h kd its old isb :
  heap_ok h ->
  h !! t = Some (ODict kd its) -> dict_get k its = Some old ->
  holds_dict h old = false ->
  h !! sb = Some (ODict OrderedDict isb) -> dict_has RESET isb = false ->
  add_entry (_merge_ordered_dicts m) (VRef t) k (VRef sb) h
  = match m with
    | 0 => (Raised RecursionError, h)
    | S _ => (Raised AttributeError, h ++ [ODict OrderedDict []])
    end.
Proof.
  intros Hok Ht Hk Hold Hsb Hr.
  assert (Hk' : dict_has k its = true) by (unfold dict_has; by rewrite Hk).
  pose proof (existing_value_closed _ _ _ _ _ _ Hok Ht Hk) as Hc.
  unfold add_entry, bind at 1 2 3 4 5, py_contains, py_getitem,
    isinstance_OrderedDict.
  simpl. rewrite Ht, Hk', Hsb. simpl. rewrite Hsb, Hr. simpl. rewrite Ht, Hk.
  destruct m as [|m]; [done|].
  simpl. unfold bind, alloc, merge_into, bind, py_items.
  assert (E : deref (h ++ [ODict OrderedDict []]) old = deref h old).
  { destruct old as [| | | | |o]; try done. simpl in *. by rewrite lookup_app_l. }
  rewrite E. unfold holds_dict in Hold. by destruct (deref h old) as [[]|].
Qed.

(** X3.  The incoming tree holds a nested tree [sb] at a key where the
    existing tree holds something that is no dict; [sb] is taken not to be
    nested under another key of the incoming tree as well.  The merge returns
    only when [sb] has the key ["!reset!"], and then the result holds [sb]
    itself at the key, with that key deleted.  Without the sentinel the
    recursive call fails on the existing value: [AttributeError] from
    [d.items()], or [RecursionError] when no call is left. *)
Theorem tree_onto_other limit h a ka ia b kb ib k old sb isb out h' :
  heap_ok h ->
  h !! a = Some (ODict ka ia) -> h !! b = Some (ODict kb ib) ->
  dict_get k ia = Some old -> holds_dict h old = false ->
  dict_get k ib = Some (VRef sb) -> h !! sb = Some (ODict OrderedDict isb) ->
  (∀ k' v', (k', v') ∈ ib -> k' ≠ k -> ¬ reach h v' sb) ->
  _merge_ordered_dicts limit [VRef a; VRef b] h = (out, h') ->
  match out with
  | Returned r =>
      dict_has RESET isb = true ∧
      ∃ items,
        deref h' r = Some (ODict OrderedDict items) ∧
        dict_get k items = Some (VRef sb) ∧
        h' !! sb = Some (ODict OrderedDict (dict_del RESET isb))
  | Raised e =>
      (limit = 0 ∧ e = RecursionError) ∨
      (dict_has RESET isb = false ∧
       ((limit = 1 ∧ e = RecursionError) ∨ (1 < limit ∧ e = AttributeError))) ∨
      ∃ n, limit = S n ∧
           raised_elsewhere (_merge_ordered_dicts n) (length h) k (VRef sb) ib
             (h ++ [ODict OrderedDict ia]) e h'
  end.
Proof.
  intros Hok Ha Hb Hka Hold Hkb Hsb Hun H.
  destruct limit as [|n].
  { injection H as <- _. by left. }
  assert (Hsbt : sb ≠ length h) by (apply lookup_lt_Some in Hsb; lia).
  destruct out as [r|e].
  - destruct (merge_two_returned _ _ _ _ _ _ _ _ _ _ _ _ Hok Ha Hb Hkb H)
      as (-> & pre & post & h1 & h2 & its1 & its2 & its' & Eib & Hpre & Ht1 & Hk1
          & Hstep & Ht2 & Hpost & Ht' & Hk').
    pose proof (before_key_untouched h b kb ib ia k (VRef sb) pre post h1 sb _
                  Hok Hb Eib Hpre Hsb Hun) as Hsb1.
    destruct (existing_kind_kept _ _ _ _ _ _ _ _ Hok Ha Hka Hpre) as [_ Hold1].
    rewrite Hold in Hold1. rewrite Hka in Hk1.
    assert (Hk1' : dict_has k its1 = true) by (unfold dict_has; by rewrite Hk1).
    pose proof Hpre as (Hok1 & _).
    destruct (dict_has RESET isb) eqn:Hr.
    + split; [done|].
      rewrite (add_entry_dict_reset _ _ _ _ _ _ _ _ Ht1 Hk1' Hsbt Hsb1 Hr) in Hstep.
      injection Hstep as <-.
      assert (Htlt : length h < length h1) by (by eapply lookup_lt_Some).
      rewrite list_lookup_insert_ne in Ht2 by done.
      rewrite list_lookup_insert_eq in Ht2 by done. injection Ht2 as <-.
      rewrite dict_get_set_eq in Hk'.
      exists its'. split_and!; [done..|].
      destruct Hpost as (_ & _ & Hfr & _).
      assert (Hsb3 : <[sb := ODict OrderedDict (dict_del RESET isb)]>
          (<[length h := ODict OrderedDict (dict_set k (VRef sb) its1)]> h1) !! sb
          = Some (ODict OrderedDict (dict_del RESET isb))).
      { apply list_lookup_insert_eq. rewrite length_insert. by eapply lookup_lt_Some. }
      destruct (Hfr _ _ Hsbt Hsb3) as [?|[E _]]; [done|].
      simpl in E. by rewrite dict_del_idem in E.
    + rewrite (add_entry_dict_mismatch _ _ _ _ _ _ _ _ _ Hok1 Ht1 Hk1 Hold1 Hsb1 Hr)
        in Hstep. by destruct n.
  - right.
    destruct (merge_two_raised _ _ _ _ _ _ _ _ _ _ _ _ Hok Ha Hb Hkb H)
      as (pre & post & Eib & Hcase).
    destruct (entered _ _ pre _) as [[[]|e1] h1] eqn:Hpre.
    + destruct Hcase as (Hpost & (its1 & Ht1 & Hk1) & Hstep).
      pose proof (before_key_untouched h b kb ib ia k (VRef sb) pre post h1 sb _
                    Hok Hb Eib Hpost Hsb Hun) as Hsb1.
      destruct (existing_kind_kept _ _ _ _ _ _ _ _ Hok Ha Hka Hpost) as [_ Hold1].
      rewrite Hold in Hold1. rewrite Hka in Hk1.
      assert (Hk1' : dict_has k its1 = true) by (unfold dict_has; by rewrite Hk1).
      pose proof Hpost as (Hok1 & _).
      destruct (dict_has RESET isb) eqn:Hr.
      * rewrite (add_entry_dict_reset _ _ _ _ _ _ _ _ Ht1 Hk1' Hsbt Hsb1 Hr) in Hstep.
        right. exists n. split; [done|]. exists pre, post. split; [done|]. right.
        eexists _, _. split_and!; [done| |exact Hstep].
        by rewrite (add_entry_dict_reset _ _ _ _ _ _ _ _ Ht1 Hk1' Hsbt Hsb1 Hr).
      * rewrite (add_entry_dict_mismatch _ _ _ _ _ _ _ _ _ Hok1 Ht1 Hk1 Hold1 Hsb1 Hr)
          in Hstep.
        left. split; [done|]. destruct n as [|n].
        -- left. by destruct Hstep as [-> _].
        -- right. destruct Hstep as [-> _]. split; [lia|done].
    + destruct Hcase as [-> ->]. right. exists n. split; [done|].
      exists pre, post. split; [done|]. by left.
Qed.

(** X4.  A key of the incoming tree that the existing tree lacks, holding a
    sequence: when the merge returns, the result holds at that key the
    incoming list object itself, unchanged, be it empty or starting with the
    token ["!reset!"].  Neither [v[0]] nor [v[1:]] is evaluated for a new
    key.  When the merge raises, the recursion limit was used up or the entry
    of another key raised. *)
Theorem sequence_under_new_key limit h a ka ia b kb ib k lb e out h' :
  heap_ok h ->
  h !! a = Some (ODict ka ia) -> h !! b = Some (ODict kb ib) ->
  dict_get k ia = None ->
  dict_get k ib = Some (VRef lb) -> h !! lb = Some (OList e) ->
  _merge_ordered_dicts limit [VRef a; VRef b] h = (out, h') ->
  match out with
  | Returned r =>
      ∃ items,
        deref h' r = Some (ODict OrderedDict items) ∧
        dict_get k items = Some (VRef lb) ∧
        h' !! lb = Some (OList e)
  | Raised err =>
      (limit = 0 ∧ err = RecursionError) ∨
      ∃ n, limit = S n ∧
           raised_elsewhere (_merge_ordered_dicts n) (length h) k (VRef lb) ib
             (h ++ [ODict OrderedDict ia]) err h'
  end.
Proof.
  intros Hok Ha Hb Hka Hkb Hlb H.
  destruct limit as [|n].
  { injection H as <- _. by left. }
  destruct out as [r|err].
  - destruct (merge_two_returned _ _ _ _ _ _ _ _ _ _ _ _ Hok Ha Hb Hkb H)
      as (-> & pre & post & h1 & h2 & its1 & its2 & its' & Eib & Hpre & Ht1 & Hk1
          & Hstep & Ht2 & Hpost & Ht' & Hk').
    rewrite Hka in Hk1.
    assert (Habs : dict_has k its1 = false) by (unfold dict_has; by rewrite Hk1).
    rewrite (add_entry_absent _ _ _ _ _ _ _ Ht1 Habs) in Hstep.
    injection Hstep as <-.
    assert (Htlt : length h < length h1) by (by eapply lookup_lt_Some).
    rewrite list_lookup_insert_eq in Ht2 by done. injection Ht2 as <-.
    rewrite dict_get_set_eq in Hk'.
    exists its'. split_and!; [done..|].
    pose proof (list_kept _ _ _ _ _ _ Hlb Hpre) as Hlb1.
    destruct Hpost as (_ & _ & Hfr & _).
    assert (Hlbt : lb ≠ length h) by (apply lookup_lt_Some in Hlb; lia).
    assert (Hl : <[length h := ODict OrderedDict (dict_set k (VRef lb) its1)]> h1 !! lb
                 = Some (OList e)) by (by rewrite list_lookup_insert_ne).
    eapply frame_list; [exact Hl|]. by apply Hfr.
  - right. exists n. split; [done|].
    destruct (merge_two_raised _ _ _ _ _ _ _ _ _ _ _ _ Hok Ha Hb Hkb H)
      as (pre & post & Eib & Hcase).
    exists pre, post. split; [done|].
    destruct (entered _ _ pre _) as [[[]|e1] h1] eqn:Hpre.
    + destruct Hcase as (Hpost & (its1 & Ht1 & Hk1) & Hstep).
      rewrite Hka in Hk1.
      assert (Habs : dict_has k its1 = false) by (unfold dict_has; by rewrite Hk1).
      rewrite (add_entry_absent _ _ _ _ _ _ _ Ht1 Habs) in Hstep.
      right. eexists _, _. split_and!; [done| |exact Hstep].
      by rewrite (add_entry_absent _ _ _ _ _ _ _ Ht1 Habs).
    + destruct Hcase as [-> ->]. by left.
Qed.

(** X5.  The keys of the result of a merge of two trees: the keys of the
    existing tree in their order, then the keys that only the incoming tree
    has, in the order of the incoming tree. *)
Theorem merge_key_order limit h a ka ia b kb ib r h' :
  heap_ok h ->
  h !! a = Some (ODict ka ia) -> h !! b = Some (ODict kb ib) ->
  _merge_ordered_dicts limit [VRef a; VRef b] h = (Returned r, h') ->
  ∃ items,
    deref h' r = Some (ODict OrderedDict items) ∧
    keys items = keys ia ++ filter (fun j => j ∉ keys ia) (keys ib).
Proof.
  intros Hok Ha Hb H. destruct limit as [|n]; [done|].
  destruct (merge_start h a ka ia b kb ib Hok Ha Hb)
    as (Hoks & Hts & Hps & Hits & Hnda & Hndb & Hold).
  rewrite (merge_two _ _ _ _ _ _ _ _ Hnda Ha Hb) in H.
  destruct (for_each ib _ _) as [[[]|e] h2] eqn:Hloop; [|done].
  injection H as <- <-.
  by apply (entries_keys _ _ _ (merge_spec_holds n) ib _ ia h2 Hoks Hts Hps Hits Hndb).
Qed.

(** X7.  No list of the store is changed by a merge of any number of layers,
    however it ends: appending and resetting build new lists. *)
Theorem merge_never_changes_a_list limit ds h out h' l e :
  heap_ok h -> Forall (closed_val (length h)) ds ->
  _merge_ordered_dicts limit ds h = (out, h') ->
  h !! l = Some (OList e) ->
  h' !! l = Some (OList e).
Proof.
  intros Hok Hds H Hl.
  destruct (merge_spec_holds limit ds h out h' Hok Hds H) as (_ & _ & Hfr & _).
  eapply frame_list; [exact Hl|]. by apply Hfr.
Qed.

(** X8.  A merge of any number of layers keeps the store well formed and
    only adds objects to it; every reference held afterwards was held before
    or is to a new object; and the result, when there is one, is a new
    [OrderedDict] that no object of the store refers to. *)
Theorem merge_result_is_new limit ds h out h' :
  heap_ok h -> Forall (closed_val (length h)) ds ->
  _merge_ordered_dicts limit ds h = (out, h') ->
  heap_ok h' ∧ length h ≤ length h' ∧
  (∀ y, held h' (VRef y) -> held h (VRef y) ∨ length h ≤ y) ∧
  match out with
  | Returned r =>
      r = VRef (length h) ∧
      (∃ items, h' !! length h = Some (ODict OrderedDict items)) ∧
      private (length h) h'
  | Raised _ => True
  end.
Proof.
  intros Hok Hds H.
  destruct (merge_spec_holds limit ds h out h' Hok Hds H)
    as (Hok' & Hlen & _ & Hheld & Hres).
  split_and!; [done..|]. destruct out as [r|e]; [|done]. by apply Hres.
Qed.

(** With a layer that is no dict the loop over the layers raises. *)
Lemma layers_with_other merge t kd :
  merge_spec merge ->
  ∀ ds h its d,
    heap_ok h -> h !! t = Some (ODict kd its) -> private t h ->
    Forall (fun d => closed_val (length h) d ∧ d ≠ VRef t) ds ->
    d ∈ ds -> holds_dict h d = false ->
    ∃ e h', for_each ds (merge_into merge (VRef t)) h = (Raised e, h').
Proof.
  intros Hm. induction ds as [|d0 rest IH]; intros h its d Hok Ht Hp Hds Hin Hd.
  - by apply elem_of_nil in Hin.
  - rewrite for_each_cons.
    apply Forall_cons in Hds as [[Hc0 Hn0] Hds].
    destruct (merge_into merge (VRef t) d0 h) as [[[]|e] h1] eqn:H0; [|eauto].
    pose proof (merge_into_spec merge t kd its d0 h _ _ Hm Hok Ht Hp Hc0 Hn0 H0)
      as (Hok1 & Hlen1 & Hfr1 & _ & Hp1 & its1 & Ht1).
    apply elem_of_cons in Hin as [->|Hin].
    + exfalso. unfold merge_into, bind, py_items in H0. unfold holds_dict in Hd.
      by destruct (deref h d0) as [[]|].
    + eapply Forall_forall in Hds as Hdd; [|exact Hin]. destruct Hdd as [Hcd Hnd].
      destruct (frame_kinds _ _ _ _ d Hfr1 Hcd Hnd) as [_ E].
      apply (IH h1 its1 d); auto; [|congruence].
      eapply Forall_impl; [exact Hds|]. intros x [? ?]. split; [|done].
      eapply closed_val_mono; [|done]. lia.
Qed.

(** X9.  With a layer that is no dict ([None], a number, a string, a list)
    among the arguments, the merge never returns. *)
Theorem merge_of_other_raises limit ds h d out h' :
  heap_ok h -> Forall (closed_val (length h)) ds ->
  d ∈ ds -> holds_dict h d = false ->
  _merge_ordered_dicts limit ds h = (out, h') ->
  ∃ e, out = Raised e.
Proof.
  intros Hok Hds Hin Hd H. destruct limit as [|n].
  { injection H as <- _. eauto. }
  simpl in H. unfold bind, alloc in H.
  set (t := length h) in *. set (h0 := h ++ [ODict OrderedDict []]) in *.
  assert (Hok0 : heap_ok h0).
  { apply heap_ok_alloc; [done|]. split; simpl; constructor. }
  assert (Ht0 : h0 !! t = Some (ODict OrderedDict [])).
  { unfold h0, t. by rewrite list_lookup_middle. }
  assert (Hp0 : private t h0).
  { intros Hh. apply held_alloc in Hh as [Hh|Hh].
    - by apply closed_private in Hh.
    - by apply elem_of_nil in Hh. }
  assert (Hds0 : Forall (fun d => closed_val (length h0) d ∧ d ≠ VRef t) ds).
  { eapply Forall_impl; [exact Hds|]. intros x Hx. split.
    - eapply closed_val_mono; [|exact Hx]. unfold h0. rewrite length_app. lia.
    - intros ->. simpl in Hx. unfold t in Hx. lia. }
  assert (Hd0 : holds_dict h0 d = false).
  { eapply Forall_forall in Hds; [|exact Hin]. unfold holds_dict in *.
    destruct d as [| | | | |x]; try done. simpl in *. unfold h0.
    by rewrite lookup_app_l. }
  destruct (layers_with_other _ t OrderedDict (merge_spec_holds n) ds h0 [] d
              Hok0 Ht0 Hp0 Hds0 Hin Hd0) as (e & h1 & E).
  rewrite E in H. injection H as <- _. eauto.
Qed.

(** X1 on [store_plain]: the text replaces the list at [a]. *)
Lemma plain_value_overrides_witness :
  ∃ items,
    deref (_merge_ordered_dicts 5 [VRef 1; VRef 2] store_plain).2 (VRef 3)
      = Some (ODict OrderedDict items) ∧
    dict_get "a" items = Some (VStr "s").
Proof.
  apply (plain_value_overrides 5 store_plain
           1 OrderedDict [("a", VRef 0); ("b", VStr "x")]
           2 OrderedDict [("a", VStr "s")] "a" (VStr "s") (Returned (VRef 3))).
  - compute_done.
  - reflexivity.
  - reflexivity.
  - reflexivity.
  - exact I.
  - vm_compute. reflexivity.
Defined.

(** X2 on [store_sequence_onto_text]: ["old" + [3]] raises [TypeError]. *)
Lemma sequence_onto_other_witness :
  (5 = 0 ∧ TypeError = RecursionError) ∨
  (eq_str (VInt 3) RESET = false ∧ TypeError = TypeError) ∨
  ∃ n, 5 = S n ∧
       raised_elsewhere (_merge_ordered_dicts n) 3 "a" (VRef 1) [("a", VRef 1)]
         (store_sequence_onto_text ++ [ODict OrderedDict [("a", VStr "old")]])
         TypeError
         (_merge_ordered_dicts 5 [VRef 0; VRef 2] store_sequence_onto_text).2.
Proof.
  apply (sequence_onto_other 5 store_sequence_onto_text
           0 OrderedDict [("a", VStr "old")] 2 OrderedDict [("a", VRef 1)]
           "a" (VStr "old") 1 (VInt 3) [] (Raised TypeError)).
  - compute_done.
  - reflexivity.
  - reflexivity.
  - reflexivity.
  - reflexivity.
  - reflexivity.
  - reflexivity.
  - vm_compute. reflexivity.
Defined.

(** X3 on [store_tree_onto_number]: the recursive call raises
    [AttributeError]. *)
Lemma tree_onto_other_witness :
  (5 = 0 ∧ AttributeError = RecursionError) ∨
  (dict_has RESET [("x", VInt 2)] = false ∧
   ((5 = 1 ∧ AttributeError = RecursionError) ∨
    (1 < 5 ∧ AttributeError = AttributeError))) ∨
  ∃ n, 5 = S n ∧
       raised_elsewhere (_merge_ordered_dicts n) 3 "a" (VRef 1) [("a", VRef 1)]
         (store_tree_onto_number ++ [ODict OrderedDict [("a", VInt 1)]])
         AttributeError
         (_merge_ordered_dicts 5 [VRef 0; VRef 2] store_tree_onto_number).2.
Proof.
  apply (tree_onto_other 5 store_tree_onto_number
           0 OrderedDict [("a", VInt 1)] 2 OrderedDict [("a", VRef 1)]
           "a" (VInt 1) 1 [("x", VInt 2)] (Raised AttributeError)).
  - compute_done.
  - reflexivity.
  - reflexivity.
  - reflexivity.
  - reflexivity.
  - reflexivity.
  - reflexivity.
  - intros k' v' Hin Hne. apply list_elem_of_singleton in Hin. by injection Hin as -> _.
  - vm_compute. reflexivity.
Defined.

(** X4 on [store_empty_new]: the empty list goes into the result as it is. *)
Lemma sequence_under_new_key_witness :
  ∃ items,
    deref (_merge_ordered_dicts 5 [VRef 0; VRef 2] store_empty_new).2 (VRef 3)
      = Some (ODict OrderedDict items) ∧
    dict_get "a" items = Some (VRef 1) ∧
    (_merge_ordered_dicts 5 [VRef 0; VRef 2] store_empty_new).2 !! 1
      = Some (OList []).
Proof.
  apply (sequence_under_new_key 5 store_empty_new
           0 OrderedDict [("b", VInt 1)] 2 OrderedDict [("a", VRef 1)]
           "a" 1 [] (Returned (VRef 3))).
  - compute_done.
  - reflexivity.
  - reflexivity.
  - reflexivity.
  - reflexivity.
  - reflexivity.
  - vm_compute. reflexivity.
Defined.

(** X5 on [store_keys]: the keys of the result are [x], [y], [z]. *)
Lemma merge_key_order_witness :
  ∃ items,
    deref (_merge_ordered_dicts 5 [VRef 0; VRef 1] store_keys).2 (VRef 2)
      = Some (ODict OrderedDict items) ∧
    keys items = ["x"; "y"] ++ filter (fun j => j ∉ ["x"; "y"]) ["z"; "x"].
Proof.
  apply (merge_key_order 5 store_keys
           0 OrderedDict [("x", VInt 1); ("y", VInt 2)]
           1 OrderedDict [("z", VInt 3); ("x", VInt 4)] (VRef 2)).
  - compute_done.
  - reflexivity.
  - reflexivity.
  - vm_compute. reflexivity.
Defined.

(** X7 on [store_lists]: the existing list is as it was. *)
Lemma merge_never_changes_a_list_witness :
  (_merge_ordered_dicts 5 [VRef 1; VRef 3] store_lists).2 !! 0
  = Some (OList [VInt 1; VInt 2]).
Proof.
  apply (merge_never_changes_a_list 5 [VRef 1; VRef 3] store_lists
           (_merge_ordered_dicts 5 [VRef 1; VRef 3] store_lists).1).
  - compute_done.
  - repeat constructor; simpl; lia.
  - vm_compute. reflexivity.
  - reflexivity.
Defined.

(** X8 on [store_lists]. *)
Lemma merge_result_is_new_witness :
  heap_ok (_merge_ordered_dicts 5 [VRef 1; VRef 3] store_lists).2 ∧
  length store_lists ≤ length (_merge_ordered_dicts 5 [VRef 1; VRef 3] store_lists).2 ∧
  (∀ y, held (_merge_ordered_dicts 5 [VRef 1; VRef 3] store_lists).2 (VRef y) ->
        held store_lists (VRef y) ∨ length store_lists ≤ y) ∧
  VRef 4 = VRef (length store_lists) ∧
  (∃ items, (_merge_ordered_dicts 5 [VRef 1; VRef 3] store_lists).2
              !! length store_lists = Some (ODict OrderedDict items)) ∧
  private (length store_lists)
    (_merge_ordered_dicts 5 [VRef 1; VRef 3] store_lists).2.
Proof.
  apply (merge_result_is_new 5 [VRef 1; VRef 3] store_lists (Returned (VRef 4))).
  - compute_done.
  - repeat constructor; simpl; lia.
  - vm_compute. reflexivity.
Defined.

(** X9 on [store_keys], with [None] as the second layer. *)
Lemma merge_of_other_raises_witness :
  ∃ e, (_merge_ordered_dicts 5 [VRef 0; VNone] store_keys).1 = Raised e.
Proof.
  apply (merge_of_other_raises 5 [VRef 0; VNone] store_keys VNone _
           (_merge_ordered_dicts 5 [VRef 0; VNone] store_keys).2).
  - compute_done.
  - repeat constructor; simpl; lia.
  - apply elem_of_cons. right. apply elem_of_cons. by left.
  - reflexivity.
  - vm_compute. reflexivity.
Defined.

(** A loop over plain values is a sequence of dict updates. *)
Lemma entries_plain merge t kd :
  ∀ items h its,
    h !! t = Some (ODict kd its) ->
    Forall (fun kv => is_scalar kv.2) items ->
    for_each items (fun kv => add_entry merge (VRef t) kv.1 kv.2) h
    = (Returned tt,
       <[t := ODict kd (foldl (fun its kv => dict_set kv.1 kv.2 its) its items)]> h).
Proof.
  induction items as [|[k v] rest IH]; intros h its Ht Hall.
  - simpl. by rewrite list_insert_id.
  - apply Forall_cons in Hall as [Hv Hall]. simpl in Hv.
    rewrite for_each_cons. simpl.
    rewrite (add_entry_scalar _ _ _ _ _ _ _ Ht Hv).
    rewrite (IH _ (dict_set k v its));
      [|apply list_lookup_insert_eq; by eapply lookup_lt_Some|done].
    by rewrite list_insert_insert_eq.
Qed.

(** X6.  Merging a layer whose values are all plain never fails, given one
    call of recursion depth: the result is a new [OrderedDict], the items of
    the existing tree updated with the items of the layer one after the
    other, and nothing else in the store changes. *)
Theorem merge_of_plain_layer n h a ka ia b kb ib :
  heap_ok h ->
  h !! a = Some (ODict ka ia) -> h !! b = Some (ODict kb ib) ->
  Forall (fun kv => is_scalar kv.2) ib ->
  _merge_ordered_dicts (S n) [VRef a; VRef b] h
  = (Returned (VRef (length h)),
     h ++ [ODict OrderedDict (foldl (fun its kv => dict_set kv.1 kv.2 its) ia ib)]).
Proof.
  intros Hok Ha Hb Hall.
  assert (Hnda : NoDup (keys ia)) by (by destruct (heap_ok_lookup _ _ _ Hok Ha)).
  rewrite (merge_two _ _ _ _ _ _ _ _ Hnda Ha Hb).
  rewrite (entries_plain _ (length h) OrderedDict ib _ ia); [|by apply list_lookup_middle|done].
  by rewrite insert_last.
Qed.

(** X6 on [store_keys]. *)
Lemma merge_of_plain_layer_witness :
  _merge_ordered_dicts 1 [VRef 0; VRef 1] store_keys
  = (Returned (VRef 2),
     store_keys ++ [ODict OrderedDict
                      (foldl (fun its kv => dict_set kv.1 kv.2 its)
                         [("x", VInt 1); ("y", VInt 2)]
                         [("z", VInt 3); ("x", VInt 4)])]).
Proof.
  apply (merge_of_plain_layer 0 store_keys
           0 OrderedDict [("x", VInt 1); ("y", VInt 2)]
           1 OrderedDict [("z", VInt 3); ("x", VInt 4)]).
  - compute_done.
  - reflexivity.
  - reflexivity.
  - repeat constructor.
Defined.

(** ** More on the section renderers *)

(** [sorted(items, key=lambda x: x[0])]: ascending keys, every item once. *)
Lemma insert_by_key_perm kv l : insert_by_key kv l ≡ₚ kv :: l.
Proof.
  induction l as [|kv' l IH]; simpl; [done|].
  destruct (String.leb kv'.1 kv.1); [|done].
  rewrite IH. apply perm_swap.
Qed.

Lemma insert_by_key_sorted kv l :
  StronglySorted (fun x y => String.le x.1 y.1) l ->
  StronglySorted (fun x y => String.le x.1 y.1) (insert_by_key kv l).
Proof.
  induction 1 as [|kv' l Hs IH Hall]; simpl.
  - repeat constructor.
  - destruct (String.leb kv'.1 kv.1) eqn:E.
    + constructor; [done|].
      apply Forall_forall. intros x Hx. apply insert_by_key_elem in Hx as [->|Hx].
      * unfold String.le. by rewrite E.
      * eapply Forall_forall in Hall; eauto.
    + assert (Hle : String.le kv.1 kv'.1).
      { destruct (String.le_total kv.1 kv'.1) as [?|Hc]; [done|].
        unfold String.le in Hc. by rewrite E in Hc. }
      constructor; [by constructor|]. constructor; [done|].
      eapply Forall_impl; [exact Hall|]. intros x Hx. simpl in *.
      by etrans.
Qed.

(** X10.  The rows of the two tables: [sorted(defs.items(), key=...)] has
    every item once, in ascending order of the keys, whatever the order of the
    dict. *)
Theorem sorted_by_key_sorts items :
  StronglySorted (fun x y => String.le x.1 y.1) (sorted_by_key items) ∧
  sorted_by_key items ≡ₚ items.
Proof.
  unfold sorted_by_key.
  assert (H : ∀ acc,
    StronglySorted (fun x y => String.le x.1 y.1) acc ->
    StronglySorted (fun x y => String.le x.1 y.1)
      (foldl (fun acc kv => insert_by_key kv acc) acc items) ∧
    foldl (fun acc kv => insert_by_key kv acc) acc items ≡ₚ items ++ acc).
  { induction items as [|kv items IH]; intros acc Hacc; simpl; [done|].
    destruct (IH (insert_by_key kv acc)) as [Hs Hp].
    - by apply insert_by_key_sorted.
    - split; [done|]. rewrite Hp, insert_by_key_perm.
      by rewrite Permutation_middle. }
  destruct (H []) as [Hs Hp]; [constructor|]. split; [done|].
  by rewrite app_nil_r in Hp.
Qed.

Ltac no_bit_key :=
  let H := fresh in
  intros H; unfold bit_keys in H; simpl in H;
  repeat (apply elem_of_cons in H as [H|H]; [discriminate H|]);
  by apply elem_of_nil in H.

Section RenderingMore.

Variable repr_obj : heap -> addr -> string.

(** The body that the two table renderers share, on a tree that has the
    source dict and the documentation dict. *)
Lemma update_definitions_run src dst h o ko io s ks items d kd idoc :
  h !! o = Some (ODict ko io) ->
  dict_get src io = Some (VRef s) -> h !! s = Some (ODict ks items) ->
  dict_get "documentation" io = Some (VRef d) -> h !! d = Some (ODict kd idoc) ->
  update_definitions repr_obj src dst (VRef o) h
  = (Returned tt,
     <[d := ODict kd (dict_set dst
                        (VStr (definition_text (py_str repr_obj h) items)) idoc)]> h).
Proof.
  intros Ho Hs Hso Hd Hdo. unfold update_definitions.
  unfold bind at 1. rewrite (run_getitem _ _ _ _ _ _ Ho Hs).
  unfold bind at 1, py_items. simpl. rewrite Hso.
  unfold bind at 1. rewrite definition_table_run.
  unfold bind at 1. rewrite (run_getitem _ _ _ _ _ _ Ho Hd).
  unfold py_setitem. by rewrite Hdo.
Qed.

(** X11.  On a tree with a documentation dict, [_update_type_docs] and
    [_update_term_definitions] return, and store under ["!type_docs!"] and
    ["!term_definitions!"] the table of the source dict: the two header rows,
    then one row [| _key_ | value |] for each item, sorted by key.  Nothing
    else in the store changes. *)
Theorem definition_tables_rendered h o ko io s ks items d kd idoc :
  h !! o = Some (ODict ko io) ->
  h !! s = Some (ODict ks items) ->
  dict_get "documentation" io = Some (VRef d) -> h !! d = Some (ODict kd idoc) ->
  (dict_get "type_docs" io = Some (VRef s) ->
   _update_type_docs repr_obj (VRef o) h
   = (Returned tt,
      <[d := ODict kd (dict_set "!type_docs!"
                         (VStr (definition_text (py_str repr_obj h) items))
                         idoc)]> h)) ∧
  (dict_get "term_definitions" io = Some (VRef s) ->
   _update_term_definitions repr_obj (VRef o) h
   = (Returned tt,
      <[d := ODict kd (dict_set "!term_definitions!"
                         (VStr (definition_text (py_str repr_obj h) items))
                         idoc)]> h)).
Proof.
  intros Ho Hso Hd Hdo. split; intros Hs.
  - exact (update_definitions_run "type_docs" "!type_docs!" _ _ _ _ _ _ _ _ _ _
             Ho Hs Hso Hd Hdo).
  - exact (update_definitions_run "term_definitions" "!term_definitions!"
             _ _ _ _ _ _ _ _ _ _ Ho Hs Hso Hd Hdo).
Qed.

(** The shared body changes the store in its last step only. *)
Lemma update_definitions_raised src dst overall h e h' :
  update_definitions repr_obj src dst overall h = (Raised e, h') -> h' = h.
Proof.
  unfold update_definitions. intros H.
  unfold bind at 1 in H.
  destruct (py_getitem overall src h) as [[defs|?] h0] eqn:H1;
    apply getitem_ro in H1 as ->; [|by injection H as _ <-].
  unfold bind at 1 in H. unfold py_items in H.
  destruct (deref h defs) as [[kdf items|?]|]; try (by injection H as _ <-).
  unfold bind at 1 in H. rewrite definition_table_run in H.
  unfold bind at 1 in H.
  destruct (py_getitem overall "documentation" h) as [[doc|?] h0] eqn:H2;
    apply getitem_ro in H2 as ->; [|by injection H as _ <-].
  unfold py_setitem in H.
  destruct doc as [| | | | |x]; try (by injection H as _ <-).
  destruct (h !! x) as [[]|]; try done; by injection H as _ <-.
Qed.

(** X12.  When [_update_type_docs] or [_update_term_definitions] raises, the
    store is as it was: their only assignment is their last step. *)
Theorem table_renderers_fail_cleanly overall h e h' :
  (_update_type_docs repr_obj overall h = (Raised e, h') -> h' = h) ∧
  (_update_term_definitions repr_obj overall h = (Raised e, h') -> h' = h).
Proof.
  split.
  - apply (update_definitions_raised "type_docs" "!type_docs!").
  - apply (update_definitions_raised "term_definitions" "!term_definitions!").
Qed.

(** X13.  [_update_response_flags] on a tree without a documentation dict
    raises [KeyError], but only after the fill: the bits dict has all of the
    indices ["0"] to ["7"], the missing ones filled with new records
    [{name: "-", description: "-"}]. *)
Theorem response_flags_fills_then_fails h o ko io rf krf irf f kf bits
    (nm : nat -> string) (dv : nat -> value) :
  h !! o = Some (ODict ko io) ->
  dict_get "response_flags" io = Some (VRef rf) -> h !! rf = Some (ODict krf irf) ->
  dict_get "bits" irf = Some (VRef f) -> h !! f = Some (ODict kf bits) ->
  dict_get "documentation" io = None ->
  (∀ n, n ∈ bits_up ->
     match dict_get (str_of_nat n) bits with
     | Some x => bit_record h bits n (nm n) (dv n)
     | None => nm n = "-"
     end) ->
  ∃ hf bits_f,
    _update_response_flags repr_obj (VRef o) h = (Raised KeyError, hf) ∧
    hf !! f = Some (ODict kf bits_f) ∧
    (∀ n, n ∈ bits_up -> dict_has (str_of_nat n) bits_f = true) ∧
    (∀ n, n ∈ bits_up -> dict_get (str_of_nat n) bits = None ->
       ∃ a, h !! a = None ∧ dict_get (str_of_nat n) bits_f = Some (VRef a) ∧
            hf !! a = Some placeholder).
Proof.
  intros Ho Hrf Hrfo Hbits Hf Hdoc Hrec.
  destruct (fill_keeps f kf bits h Hf)
    as (hf & bits_f & Hfill & Hff & Hfr & Hall & Hkeep & Hother & Hnew & Hobj).
  destruct (Hobj _ _ _ Ho) as (io_f & Hof & Hiof).
  exists hf, bits_f. split_and!; auto.
  2: { intros n Hn Hnone. apply Hnew; [done|]. by apply list_elem_of_fmap_2. }
  assert (Hview : ∀ n, n ∈ bits_down -> bit_record hf bits_f n (nm n) (dv n)).
  { intros n Hn. assert (Hn' : n ∈ bits_up).
    { unfold bits_down in Hn.
      repeat (apply elem_of_cons in Hn as [->|Hn]; [compute_done|]).
      by apply elem_of_nil in Hn. }
    specialize (Hrec n Hn'). destruct (dict_get (str_of_nat n) bits) as [x|] eqn:E.
    - destruct Hrec as (b & kb & ib & Hb & Hib & Hname & Hdesc).
      destruct (Hobj _ _ _ Hib) as (ib' & Hib' & Hsame).
      exists b, kb, ib'. split_and!; auto.
      + rewrite Hsame; [done|no_bit_key].
      + intros Hne. rewrite Hsame; [auto|no_bit_key].
    - destruct (Hnew (str_of_nat n) E) as (a & _ & Hget & Hpl);
        [by apply list_elem_of_fmap_2|].
      exists a, PlainDict, [("name", VStr "-"); ("description", VStr "-")].
      rewrite Hrec. split_and!; auto. done. }
  unfold _update_response_flags.
  unfold bind at 1. rewrite (run_getitem _ _ _ _ _ _ Ho Hrf).
  unfold bind at 1. rewrite (run_getitem _ _ _ _ _ _ Hrfo Hbits).
  unfold bind at 1. rewrite Hfill.
  unfold bind at 1, bit_names.
  rewrite (bit_names_run f kf bits_f hf nm dv Hff bits_down Hview).
  unfold bind at 1, py_join. rewrite strings_of_names. unfold ret at 1.
  unfold bind at 1.
  rewrite (bit_descriptions_run repr_obj f kf bits_f hf nm dv Hff bits_down "" Hview).
  unfold bind at 1. unfold py_getitem. simpl. rewrite Hof.
  rewrite Hiof by no_bit_key. by rewrite Hdoc.
Qed.

End RenderingMore.

(** X11 on [store_full]: the type table. *)
Lemma definition_tables_rendered_witness :
  _update_type_docs no_repr (VRef 7) store_full
  = (Returned tt,
     <[6 := ODict OrderedDict
              (dict_set "!type_docs!"
                 (VStr (definition_text (py_str no_repr store_full)
                          [("u8", VStr "byte")]))
                 [("order", VRef 5)])]> store_full).
Proof.
  apply (proj1 (definition_tables_rendered no_repr store_full
           7 OrderedDict
           [("type_docs", VRef 0); ("term_definitions", VRef 1);
            ("response_flags", VRef 4); ("documentation", VRef 6)]
           0 OrderedDict [("u8", VStr "byte")]
           6 OrderedDict [("order", VRef 5)]
           eq_refl eq_refl eq_refl eq_refl)).
  reflexivity.
Defined.

(** X12 on [store_no_documentation]. *)
Lemma table_renderers_fail_cleanly_witness :
  (_update_type_docs no_repr (VRef 1) store_no_documentation).2
  = store_no_documentation.
Proof.
  apply (proj1 (table_renderers_fail_cleanly no_repr (VRef 1)
                  store_no_documentation KeyError
                  (_update_type_docs no_repr (VRef 1) store_no_documentation).2)).
  vm_compute. reflexivity.
Defined.

(** X13 on [store_flags_only]. *)
Lemma response_flags_fills_then_fails_witness :
  ∃ hf bits_f,
    _update_response_flags no_repr (VRef 3) store_flags_only = (Raised KeyError, hf) ∧
    hf !! 1 = Some (ODict OrderedDict bits_f) ∧
    (∀ n, n ∈ bits_up -> dict_has (str_of_nat n) bits_f = true) ∧
    (∀ n, n ∈ bits_up -> dict_get (str_of_nat n) [("3", VRef 0)] = None ->
       ∃ a, store_flags_only !! a = None ∧
            dict_get (str_of_nat n) bits_f = Some (VRef a) ∧
            hf !! a = Some placeholder).
Proof.
  apply (response_flags_fills_then_fails no_repr store_flags_only
           3 OrderedDict [("response_flags", VRef 2)]
           2 OrderedDict [("bits", VRef 1)]
           1 OrderedDict [("3", VRef 0)]
           (fun n => if Nat.eqb n 3 then "ERR" else "-")
           (fun n => if Nat.eqb n 3 then VStr "error flag" else VStr "-")).
  - reflexivity.
  - reflexivity.
  - reflexivity.
  - reflexivity.
  - reflexivity.
  - reflexivity.
  - intros n Hn. unfold bits_up in Hn.
    repeat (apply elem_of_cons in Hn as [->|Hn];
            [first [ reflexivity
                   | exists 0, OrderedDict,
                       [("name", VStr "ERR"); ("description", VStr "error flag")];
                     repeat split ] |]).
    by apply elem_of_nil in Hn.
Defined.

(** ** More on the command *)

Lemma concat_empty_app (l1 l2 : list string) :
  String.concat "" (l1 ++ l2) = String.concat "" l1 +:+ String.concat "" l2.
Proof.
  induction l1 as [|x l1 IH]; [done|].
  simpl app. rewrite !concat_empty_cons, IH. by rewrite append_assoc.
Qed.

(** A loop of writes appends the texts to the file. *)
Lemma write_all path (line : string -> string) :
  ∀ names h out fs acc,
    io_for_each names (fun name => write path (line name))
      (World h out (file_set path acc fs))
    = (Done tt,
       World h out (file_set path (acc +:+ String.concat "" (map line names)) fs)).
Proof.
  induction names as [|name names IH]; intros h out fs acc.
  - simpl. by rewrite append_nil_r.
  - change (io_for_each (name :: names) (fun name => write path (line name))
              (World h out (file_set path acc fs)))
      with (io_for_each names (fun name => write path (line name))
              (World h out
                 (file_set path
                    (default "" (file_get path (file_set path acc fs)) +:+ line name)
                    (file_set path acc fs)))).
    rewrite file_get_set, file_set_set. simpl default. rewrite IH.
    simpl map. by rewrite concat_empty_cons, append_assoc.
Qed.

Lemma insert_name_perm s l : insert_name s l ≡ₚ s :: l.
Proof.
  induction l as [|s' l IH]; simpl; [done|].
  destruct (String.leb s' s); [|done]. rewrite IH. apply perm_swap.
Qed.

Lemma insert_name_elem x s l : x ∈ insert_name s l -> x = s ∨ x ∈ l.
Proof.
  intros H. rewrite insert_name_perm in H. by apply elem_of_cons in H.
Qed.

Lemma insert_name_sorted s l :
  StronglySorted String.le l -> StronglySorted String.le (insert_name s l).
Proof.
  induction 1 as [|s' l Hs IH Hall]; simpl.
  - repeat constructor.
  - destruct (String.leb s' s) eqn:E.
    + constructor; [done|].
      apply Forall_forall. intros x Hx. apply insert_name_elem in Hx as [->|Hx].
      * unfold String.le. by rewrite E.
      * eapply Forall_forall in Hall; eauto.
    + assert (Hle : String.le s s').
      { destruct (String.le_total s s') as [?|Hc]; [done|].
        unfold String.le in Hc. by rewrite E in Hc. }
      constructor; [by constructor|]. constructor; [done|].
      eapply Forall_impl; [exact Hall|]. intros x Hx. by etrans.
Qed.

Lemma sorted_names_sorts l :
  StronglySorted String.le (sorted_names l) ∧ sorted_names l ≡ₚ l.
Proof.
  unfold sorted_names.
  assert (H : ∀ acc,
    StronglySorted String.le acc ->
    StronglySorted String.le (foldl (fun acc s => insert_name s acc) acc l) ∧
    foldl (fun acc s => insert_name s acc) acc l ≡ₚ l ++ acc).
  { induction l as [|s l IH]; intros acc Hacc; simpl; [done|].
    destruct (IH (insert_name s acc)) as [Hs Hp].
    - by apply insert_name_sorted.
    - split; [done|]. rewrite Hp, insert_name_perm.
      by rewrite Permutation_middle. }
  destruct (H []) as [Hs Hp]; [constructor|]. split; [done|].
  by rewrite app_nil_r in Hp.
Qed.

Lemma rev_is_reverse {A} (l : list A) : rev l = reverse l.
Proof.
  induction l as [|x l IH]; [done|]. simpl. by rewrite IH, reverse_cons.
Qed.

(** X17.  The index lists the document of every layer once, in descending
    order of the file names compared as strings. *)
Theorem index_names_descend stems :
  StronglySorted (fun x y => String.le y x) (index_names stems) ∧
  index_names stems ≡ₚ map (fun s => s +:+ ".md") stems.
Proof.
  unfold index_names.
  destruct (sorted_names_sorts (map (fun s => s +:+ ".md") stems)) as [Hs Hp].
  rewrite rev_is_reverse. split.
  - clear Hp. induction Hs as [|x l Hs IH Hall]; [constructor|].
    rewrite reverse_cons.
    assert (Happ : ∀ r, StronglySorted (fun x y => String.le y x) r ->
                        Forall (fun y => String.le x y) r ->
                        StronglySorted (fun x y => String.le y x) (r ++ [x])).
    { induction 1 as [|y r Hr IHr Hally]; intros Hx; simpl.
      - repeat constructor.
      - apply Forall_cons in Hx as [Hxy Hx]. constructor; [by apply IHr|].
        apply Forall_app. split; [done|]. by constructor. }
    apply Happ; [done|].
    apply Forall_forall. intros y Hy. eapply Forall_forall in Hall; [exact Hall|].
    by apply elem_of_reverse.
  - by rewrite reverse_Permutation.
Qed.

Lemma calm_ret {A} (a : A) : calm (io_ret a).
Proof. intros w r w' E. by injection E as <- <-. Qed.

Lemma calm_bind {A B} (m : IO A) (f : A -> IO B) :
  calm m -> (∀ a, calm (f a)) -> calm (io_bind m f).
Proof.
  intros Hm Hf w r w' E. unfold io_bind in E.
  destruct (m w) as [[a|e|c] w1] eqn:Em; destruct (Hm _ _ _ Em) as [Hs Hn].
  - destruct (Hf a _ _ _ E) as [Hs' Hn']. split; [congruence|done].
  - injection E as <- <-. done.
  - by destruct (Hn c).
Qed.

Lemma calm_lift {A} (m : M A) : calm (lift m).
Proof.
  intros w r w' E. unfold lift in E.
  destruct (m (store w)) as [[a|e] h]; by injection E as <- <-.
Qed.

Lemma calm_open path : calm (open_w path).
Proof. intros w r w' E. by injection E as <- <-. Qed.

Lemma calm_write path s : calm (write path s).
Proof. intros w r w' E. by injection E as <- <-. Qed.

Lemma calm_for_each {A} (l : list A) body :
  (∀ x, calm (body x)) -> calm (io_for_each l body).
Proof.
  intros Hb. induction l as [|x l IH]; simpl.
  - apply calm_ret.
  - apply calm_bind; [apply Hb|]. intros _. apply IH.
Qed.

Section CommandMore.

Variable repr_obj : heap -> addr -> string.

Variable hjson_dumps : heap -> value -> string.

Variable py_strip : string -> string.

Variable QMK_FIRMWARE : string.

Variable update_xap_definitions : option value -> value -> M value.

(** The loop of [write_document] over entries that all have a text. *)
Lemma write_sections_prefix path o ko items d kd idoc pre rest h out fs :
  h !! o = Some (ODict ko items) ->
  dict_get "documentation" items = Some (VRef d) ->
  h !! d = Some (ODict kd idoc) ->
  (∀ k, k ∈ pre -> ∃ s, dict_get k idoc = Some (VStr s)) ->
  ∀ acc,
  io_for_each (map VStr pre ++ rest) (fun e =>
    let+ doc' := lift (py_getitem (VRef o) "documentation") in
    let+ text := lift (py_getitem_at doc' e) in
    match text with
    | VStr s => write path (py_strip s)
    | _ => fun w => (Uncaught AttributeError, w)
    end ;;+
    write path (nl +:+ nl)) (World h out (file_set path acc fs)) =
  io_for_each rest (fun e =>
    let+ doc' := lift (py_getitem (VRef o) "documentation") in
    let+ text := lift (py_getitem_at doc' e) in
    match text with
    | VStr s => write path (py_strip s)
    | _ => fun w => (Uncaught AttributeError, w)
    end ;;+
    write path (nl +:+ nl))
    (World h out (file_set path (acc +:+ sections py_strip idoc pre) fs)).
Proof.
  intros Ho Hdoc Hd Hpre.
  induction pre as [|k pre IH]; intros acc; simpl.
  - by rewrite append_nil_r.
  - destruct (Hpre k) as [s Hs]; [left|].
    unfold io_bind at 1.
    unfold io_bind at 1.
    unfold io_bind at 1.
    rewrite (lift_done _ _ (VRef d) h); [|simpl; by apply (run_getitem _ _ ko items)].
    simpl. unfold io_bind at 1.
    unfold lift at 1, py_getitem_at, py_getitem. simpl. rewrite Hd, Hs. simpl.
    unfold write. simpl. rewrite !file_get_set, !file_set_set. simpl.
    rewrite IH by (intros k' Hk'; apply Hpre; by right).
    by rewrite !append_assoc.
Qed.

(** Up to the loop. *)
Lemma write_document_start path o ko items d kd idoc ol entries w :
  store w !! o = Some (ODict ko items) ->
  dict_get "documentation" items = Some (VRef d) ->
  store w !! d = Some (ODict kd idoc) ->
  dict_get "order" idoc = Some (VRef ol) ->
  store w !! ol = Some (OList entries) ->
  write_document py_strip (VRef o) path w
  = io_for_each entries (fun e =>
      let+ doc' := lift (py_getitem (VRef o) "documentation") in
      let+ text := lift (py_getitem_at doc' e) in
      match text with
      | VStr s => write path (py_strip s)
      | _ => fun w => (Uncaught AttributeError, w)
      end ;;+
      write path (nl +:+ nl))
      (World (store w) (stdout w) (file_set path "" (files w))).
Proof.
  intros Ho Hdoc Hd Hord Hol.
  unfold write_document, io_bind, open_w.
  rewrite (lift_done _ _ (VRef d) (store w));
    [|simpl; by apply (run_getitem _ _ ko items)].
  rewrite (lift_done _ _ (VRef ol) (store w));
    [|simpl; by apply (run_getitem _ _ kd idoc)].
  rewrite (lift_done _ _ entries (store w));
    [|simpl; unfold py_iter; by rewrite Hol].
  done.
Qed.

(** X14.  The document of a layer whose [order] names sections that all have
    a text: the file holds, in that order, each text stripped and followed by
    an empty line, and what the file held before is gone.  The store and what
    was printed stay as they are. *)
Theorem document_written path o ko items d kd idoc ol ks w :
  store w !! o = Some (ODict ko items) ->
  dict_get "documentation" items = Some (VRef d) ->
  store w !! d = Some (ODict kd idoc) ->
  dict_get "order" idoc = Some (VRef ol) ->
  store w !! ol = Some (OList (map VStr ks)) ->
  (∀ k, k ∈ ks -> ∃ s, dict_get k idoc = Some (VStr s)) ->
  write_document py_strip (VRef o) path w
  = (Done tt,
     World (store w) (stdout w)
       (file_set path (sections py_strip idoc ks) (files w))).
Proof.
  intros Ho Hdoc Hd Hord Hol Hks.
  rewrite (write_document_start path o ko items d kd idoc ol (map VStr ks) w
             Ho Hdoc Hd Hord Hol).
  rewrite <- (app_nil_r (map VStr ks)).
  by rewrite (write_sections_prefix path o ko items d kd idoc ks [] _ _ _
                Ho Hdoc Hd Hks "").
Qed.

(** X15.  An entry of [order] whose section is no text (a number, a list, a
    dict): [.strip()] raises [AttributeError], which nothing catches; the
    sections before it have been written. *)
Theorem section_without_text path o ko items d kd idoc ol pre e x post w :
  store w !! o = Some (ODict ko items) ->
  dict_get "documentation" items = Some (VRef d) ->
  store w !! d = Some (ODict kd idoc) ->
  dict_get "order" idoc = Some (VRef ol) ->
  store w !! ol = Some (OList (map VStr pre ++ VStr e :: post)) ->
  (∀ k, k ∈ pre -> ∃ s, dict_get k idoc = Some (VStr s)) ->
  dict_get e idoc = Some x -> (∀ s, x ≠ VStr s) ->
  write_document py_strip (VRef o) path w
  = (Uncaught AttributeError,
     World (store w) (stdout w)
       (file_set path (sections py_strip idoc pre) (files w))).
Proof.
  intros Ho Hdoc Hd Hord Hol Hpre He Hx.
  rewrite (write_document_start path o ko items d kd idoc ol _ w
             Ho Hdoc Hd Hord Hol).
  rewrite (write_sections_prefix path o ko items d kd idoc pre _ _ _ _
             Ho Hdoc Hd Hpre "").
  simpl. unfold io_bind.
  rewrite (lift_done _ _ (VRef d) (store w));
    [|simpl; by apply (run_getitem _ _ ko items)].
  simpl. unfold lift, py_getitem_at, py_getitem. simpl. rewrite Hd, He. simpl.
  destruct x; try done. by destruct (Hx s).
Qed.

(** X16.  A tree without a documentation dict, or without an [order] in it:
    the [KeyError] comes after [open(output_doc, "w")], so the document of
    the layer is left empty, whatever it held. *)
Theorem document_emptied_first path o ko items w :
  store w !! o = Some (ODict ko items) ->
  (dict_get "documentation" items = None ∨
   ∃ d kd idoc, dict_get "documentation" items = Some (VRef d) ∧
                store w !! d = Some (ODict kd idoc) ∧
                dict_get "order" idoc = None) ->
  write_document py_strip (VRef o) path w
  = (Uncaught KeyError,
     World (store w) (stdout w) (file_set path "" (files w))).
Proof.
  intros Ho [Hdoc|(d & kd & idoc & Hdoc & Hd & Hord)];
    unfold write_document, io_bind, open_w.
  - unfold lift, py_getitem. simpl. by rewrite Ho, Hdoc.
  - rewrite (lift_done _ _ (VRef d) (store w));
      [|simpl; by apply (run_getitem _ _ ko items)].
    unfold lift, py_getitem. simpl. by rewrite Hd, Hord.
Qed.

(** The index is the title and one line for each name. *)
Lemma write_index_run stems w :
  write_index QMK_FIRMWARE stems w
  = (Done tt,
     World (store w) (stdout w)
       (file_set (index_path QMK_FIRMWARE) (index_text stems) (files w))).
Proof.
  unfold write_index, io_bind at 1 2, open_w, write. simpl.
  rewrite file_get_set, file_set_set. simpl default.
  change (io_for_each _ _ _) with
    (io_for_each (index_names stems)
       (fun name => write (index_path QMK_FIRMWARE) (index_line name))
       (World (store w) (stdout w)
          (file_set (index_path QMK_FIRMWARE)
             ("" +:+ "# XAP Protocol Reference" +:+ nl +:+ nl) (files w)))).
  rewrite write_all. unfold index_text. by rewrite !append_assoc.
Qed.



Lemma calm_write_document overall path :
  calm (write_document py_strip overall path).
Proof.
  unfold write_document.
  apply calm_bind; [apply calm_open|]. intros _.
  apply calm_bind; [apply calm_lift|]. intros doc.
  apply calm_bind; [apply calm_lift|]. intros order.
  apply calm_bind; [apply calm_lift|]. intros entries.
  apply calm_for_each. intros e.
  apply calm_bind; [apply calm_lift|]. intros doc'.
  apply calm_bind; [apply calm_lift|]. intros text.
  apply calm_bind; [|intros _; apply calm_write].
  destruct text; try apply calm_write; intros w r w' E; by injection E as <- <-.
Qed.

(** What one turn of the loop prints, and how it can exit: only through the
    handler of the [try], with the tree that [update_xap_definitions]
    returned for this file. *)
Lemma process_file_prints file state w r w' :
  process_file repr_obj hjson_dumps py_strip QMK_FIRMWARE update_xap_definitions
    file state w = (r, w') ->
  match r with
  | Exited c =>
      c = 1%Z ∧
      ∃ new h1 overall h2 err,
        load file.2 (store w) = (Returned new, h1) ∧
        update_xap_definitions state.1 new h1 = (Returned overall, h2) ∧
        refresh_sections repr_obj overall h2 = (Raised err, store w') ∧
        stdout w' = stdout w ++ [hjson_dumps (store w') overall]
  | _ => stdout w' = stdout w
  end.
Proof.
  unfold process_file. intros E.
  unfold io_bind at 1 in E.
  destruct (lift (load file.2) w) as [[new|e1|c1] w1] eqn:E1;
    destruct (calm_lift _ _ _ _ E1) as [S1 N1].
  2: { by injection E as <- <-. }
  2: { by destruct (N1 c1). }
  unfold io_bind at 1 in E.
  destruct (lift (update_xap_definitions state.1 new) w1) as [[ov|e2|c2] w2] eqn:E2;
    destruct (calm_lift _ _ _ _ E2) as [S2 N2].
  2: { injection E as <- <-. congruence. }
  2: { by destruct (N2 c2). }
  unfold io_bind at 1 in E. unfold try_except in E.
  destruct (lift (refresh_sections repr_obj ov) w2) as [[[]|e3|c3] w3] eqn:E3;
    destruct (calm_lift _ _ _ _ E3) as [S3 N3].
  - unfold io_bind at 1 in E.
    destruct (write_document py_strip ov (doc_path QMK_FIRMWARE file.1) w3)
      as [[[]|e4|c4] w4] eqn:E4;
      destruct (calm_write_document _ _ _ _ _ E4) as [S4 N4].
    + injection E as <- <-. congruence.
    + injection E as <- <-. congruence.
    + by destruct (N4 c4).
  - unfold dump_and_exit, io_bind, print, exit in E. simpl in E.
    injection E as <- <-. split; [done|].
    unfold lift in E1, E2, E3.
    destruct (load file.2 (store w)) as [[new'|?] h1] eqn:L1; [|done].
    injection E1 as -> <-. simpl in E2.
    destruct (update_xap_definitions state.1 new h1) as [[ov'|?] h2] eqn:L2; [|done].
    injection E2 as -> <-. simpl in E3.
    destruct (refresh_sections repr_obj ov h2) as [[[]|err] h3] eqn:L3; [done|].
    injection E3 as -> <-. simpl.
    exists new, h1, ov, h2, e3. by split_and!.
  - by destruct (N3 c3).
Qed.

(** The loop over the files prints only when it exits, and it exits in the
    turn of the first file on whose cumulative tree a renderer raises. *)
Lemma process_files_prints fs state w r w' :
  process_files repr_obj hjson_dumps py_strip QMK_FIRMWARE update_xap_definitions
    fs state w = (r, w') ->
  match r with
  | Exited c =>
      c = 1%Z ∧
      ∃ before file rest st w1 new h1 overall h2 err,
        fs = before ++ file :: rest ∧
        process_files repr_obj hjson_dumps py_strip QMK_FIRMWARE
          update_xap_definitions before state w = (Done st, w1) ∧
        load file.2 (store w1) = (Returned new, h1) ∧
        update_xap_definitions st.1 new h1 = (Returned overall, h2) ∧
        refresh_sections repr_obj overall h2 = (Raised err, store w') ∧
        stdout w' = stdout w ++ [hjson_dumps (store w') overall]
  | _ => stdout w' = stdout w
  end.
Proof.
  revert state w. induction fs as [|f fs IH]; intros state w E; simpl in E.
  - by injection E as <- <-.
  - unfold io_bind in E.
    destruct (process_file _ _ _ _ _ f state w) as [[st1|e1|c1] w1] eqn:E1;
      pose proof (process_file_prints _ _ _ _ _ E1) as P1; simpl in P1.
    + specialize (IH _ _ E). destruct r as [x|e|c].
      * congruence.
      * congruence.
      * destruct IH as (-> & before & file & rest & st & w2 & new & h1 & ov & h2 & err
                        & -> & Hb & Hl & Hu & Hr & Hout).
        split; [done|].
        exists (f :: before), file, rest, st, w2, new, h1, ov, h2, err.
        split_and!; [done| |done|done|done|congruence].
        simpl. unfold io_bind. by rewrite E1.
    + by injection E as <- <-.
    + injection E as <- <-. destruct P1 as (-> & new & h1 & ov & h2 & err & Hl & Hu & Hr & Hout).
      split; [done|].
      by exists [], f, fs, state, w, new, h1, ov, h2, err.
Qed.

(** X19.  Whatever the definition files hold, the command prints nothing
    unless it exits, and it exits with status 1 only.  It does so at the
    first definition file for which one of the renderers raises on the
    cumulative tree, the value that [update_xap_definitions] returned for
    that file and the cumulative tree of the files before; what it has
    printed then is exactly one line, the dump of that tree as the renderers
    left it. *)
Theorem run_prints_only_the_dump fs w r w' :
  xap_generate_docs repr_obj hjson_dumps py_strip QMK_FIRMWARE
    update_xap_definitions fs w = (r, w') ->
  match r with
  | Exited c =>
      c = 1%Z ∧
      ∃ before file rest cumulative w1 new h1 overall h2 err,
        fs = before ++ file :: rest ∧
        process_files repr_obj hjson_dumps py_strip QMK_FIRMWARE
          update_xap_definitions before (None, []) w = (Done cumulative, w1) ∧
        load file.2 (store w1) = (Returned new, h1) ∧
        update_xap_definitions cumulative.1 new h1 = (Returned overall, h2) ∧
        refresh_sections repr_obj overall h2 = (Raised err, store w') ∧
        stdout w' = stdout w ++ [hjson_dumps (store w') overall]
  | _ => stdout w' = stdout w
  end.
Proof.
  unfold xap_generate_docs, io_bind. intros E.
  destruct (process_files _ _ _ _ _ fs (None, []) w) as [[st|e1|c1] w1] eqn:E1;
    pose proof (process_files_prints _ _ _ _ _ E1) as P1; simpl in P1.
  - rewrite write_index_run in E. injection E as <- <-. done.
  - by injection E as <- <-.
  - by injection E as <- <-.
Qed.

End CommandMore.

(** [strip] takes Python's white space off both ends, beyond ASCII too
    (here U+001C, a space, U+2003 before and U+00A0, U+001F, a line feed
    after), and leaves the inside alone, as it leaves the last byte, 0xA0,
    of a word that ends in the letter U+00E0. *)
Example strip_white_space :
  str_strip (utf8 [28; 32; 226; 128; 131; 120; 32; 121; 194; 160; 31; 10]) = "x y" ∧
  str_strip (utf8 [32; 118; 111; 105; 108; 195; 160; 32])
  = utf8 [118; 111; 105; 108; 195; 160].
Proof. split; reflexivity. Qed.

(** The names are compared as strings: version 0.10.0 comes between 0.1.0 and
    0.2.0. *)
Example index_of_three_versions :
  index_names ["xap_0.2.0"; "xap_0.10.0"; "xap_0.1.0"]
  = ["xap_0.2.0.md"; "xap_0.10.0.md"; "xap_0.1.0.md"].
Proof. reflexivity. Qed.

(** X14 on [store_two_sections]. *)
Lemma document_written_witness :
  write_document str_strip (VRef 2) "out.md"
    (World store_two_sections [] [("out.md", "what was there")])
  = (Done tt,
     World store_two_sections []
       (file_set "out.md"
          (sections str_strip
             [("order", VRef 0); ("intro", VStr (" # One" +:+ nl));
              ("more", VStr "Two")]
             ["intro"; "more"])
          [("out.md", "what was there")])).
Proof.
  apply (document_written str_strip "out.md" 2 OrderedDict [("documentation", VRef 1)]
           1 OrderedDict
           [("order", VRef 0); ("intro", VStr (" # One" +:+ nl)); ("more", VStr "Two")]
           0 ["intro"; "more"]
           (World store_two_sections [] [("out.md", "what was there")])).
  - reflexivity.
  - reflexivity.
  - reflexivity.
  - reflexivity.
  - reflexivity.
  - intros k Hk. apply elem_of_cons in Hk as [->|Hk]; [eexists; reflexivity|].
    apply list_elem_of_singleton in Hk as ->. eexists. reflexivity.
Defined.

(** X15 on [store_number_section]. *)
Lemma section_without_text_witness :
  write_document str_strip (VRef 2) "out.md"
    (World store_number_section [] [])
  = (Uncaught AttributeError,
     World store_number_section []
       (file_set "out.md"
          (sections str_strip
             [("order", VRef 0); ("intro", VStr (" # One" +:+ nl));
              ("more", VInt 5)]
             ["intro"])
          [])).
Proof.
  apply (section_without_text str_strip "out.md" 2 OrderedDict
           [("documentation", VRef 1)] 1 OrderedDict
           [("order", VRef 0); ("intro", VStr (" # One" +:+ nl)); ("more", VInt 5)]
           0 ["intro"] "more" (VInt 5) []
           (World store_number_section [] [])).
  - reflexivity.
  - reflexivity.
  - reflexivity.
  - reflexivity.
  - reflexivity.
  - intros k Hk. apply list_elem_of_singleton in Hk as ->. eexists. reflexivity.
  - reflexivity.
  - intros s. discriminate.
Defined.

(** X16 on [store_no_documentation]. *)
Lemma document_emptied_first_witness :
  write_document str_strip (VRef 1) "out.md"
    (World store_no_documentation [] [("out.md", "what was there")])
  = (Uncaught KeyError,
     World store_no_documentation []
       (file_set "out.md" "" [("out.md", "what was there")])).
Proof.
  apply (document_emptied_first str_strip "out.md" 1 OrderedDict
           [("type_docs", VRef 0)]
           (World store_no_documentation [] [("out.md", "what was there")])).
  - reflexivity.
  - left. reflexivity.
Defined.


(** X19 on a layer whose type renderer raises: the one line printed is the
    dump of the tree merged from that layer. *)
Lemma run_prints_only_the_dump_witness :
  stdout (xap_generate_docs no_repr dumps_keys str_strip "qmk_firmware"
            (fold_layer 10) [layer_no_documentation] (World [] [] [])).2
  = ["{type_docs}"].
Proof.
  pose proof (run_prints_only_the_dump no_repr dumps_keys str_strip "qmk_firmware"
           (fold_layer 10) [layer_no_documentation] (World [] [] []) (Exited 1)
           (xap_generate_docs no_repr dumps_keys str_strip "qmk_firmware"
              (fold_layer 10) [layer_no_documentation] (World [] [] [])).2) as H.
  destruct H as (_ & before & file & rest & st & w1 & new & h1 & ov & h2 & err
                 & Efs & Hb & Hl & Hu & Hr & Hout).
  - vm_compute. reflexivity.
  - destruct before as [|f0 [|? ?]]; [|destruct rest; discriminate Efs|discriminate Efs].
    injection Efs as <- <-.
    injection Hb as <- <-.
    vm_compute in Hl. injection Hl as <- <-.
    vm_compute in Hu. injection Hu as <- <-.
    rewrite Hout. vm_compute. reflexivity.
Defined.
